(** * amocrm-api-middleware: the OAuth client and the chunked file uploader

    A shallow embedding of [amocrm_api_middleware/_utils.py] and
    [amocrm_api_middleware/oauth/client.py], and the properties of the
    credential life cycle, of the JWT inspection and of the upload protocol.

    Conventions of the embedding.
    - A Python [str] is a Rocq [string] holding the UTF-8 encoding of the
      text; a Python [bytes] is a [string] as well (one [ascii] per byte).
    - A Python value that comes out of JSON (or is [None]) is a [pyval].
    - A call that may raise returns [result A = exn + A]; methods that mutate
      [self] or reach the network run in the monad [M].
    - [print] and [logger] output is not part of the model.
    - The library calls behave as in CPython 3.11 on Linux (a [time_t] of
      64 bits, the C library of GNU): the range and the errors of
      [datetime], the text of [strftime], the messages of exceptions. *)

From Stdlib Require Import ZArith List String Ascii Bool Lia Arith.
Import ListNotations.

#[local] Set Warnings "-register-all".
#[local] Open Scope string_scope.
#[local] Open Scope Z_scope.

(** ** Python values and exceptions *)

Module Py.

(** Values produced by [json.loads], with [PNone] for [None]/[null].  A
    [dict] keeps its insertion order.  A number written with a fraction or
    an exponent (and [NaN], [Infinity]) is a float, kept by its lexeme. *)
Inductive pyval : Type :=
| PNone
| PBool (b : bool)
| PInt (z : Z)
| PFloat (lexeme : string)
| PStr (s : string)
| PList (items : list pyval)
| PDict (items : list (string * pyval)).

(** The exception classes the two source files can raise.  The first four
    are [ValueError] and its subclasses [binascii.Error],
    [UnicodeDecodeError] and [json.JSONDecodeError];
    [RequestsJSONDecodeError] is both a [ValueError] and an exception of
    [requests].  [OSError] and [OverflowError] are what [datetime] raises
    for a timestamp the C library cannot convert.  [NotModelled] is no
    Python exception: it marks an outcome the embedding leaves open (a
    float handed to [datetime]). *)
Inductive exn : Type :=
| ValueError (msg : string)
| BinasciiError (msg : string)
| UnicodeDecodeError (msg : string)
| JSONDecodeError (msg : string)
| TypeError (msg : string)
| KeyError (key : string)
| AttributeError (msg : string)
| FileNotFoundError (path : string)
| OAuthError (msg : string)
| RequestException (msg : string)
| HTTPError (msg : string)
| RequestsJSONDecodeError (msg : string)
| OSError (msg : string)
| OverflowError (msg : string)
| NotModelled (what : string).

(** [isinstance(e, ValueError)]. *)
Definition is_ValueError (e : exn) : bool :=
  match e with
  | ValueError _ | BinasciiError _ | UnicodeDecodeError _
  | JSONDecodeError _ | RequestsJSONDecodeError _ => true
  | _ => false
  end.

(** The exceptions of the [requests] library: what a caller sees when a
    transport failure or a bad status is not translated. *)
Definition is_requests_exception (e : exn) : bool :=
  match e with
  | RequestException _ | HTTPError _ | RequestsJSONDecodeError _ => true
  | _ => false
  end.

(** [isinstance(e, OAuthError)]: the exception class of the package. *)
Definition is_OAuthError (e : exn) : bool :=
  match e with
  | OAuthError _ => true
  | _ => false
  end.

Definition result (A : Type) : Type := (exn + A)%type.

Definition ok {A} (a : A) : result A := inr a.
Definition raise {A} (e : exn) : result A := inl e.

Definition rbind {A B} (r : result A) (k : A -> result B) : result B :=
  match r with
  | inl e => inl e
  | inr a => k a
  end.

(** Truth value of a Python object, as [not x] and [if x] test it. *)
Definition truthy (v : pyval) : bool :=
  match v with
  | PNone => false
  | PBool b => b
  | PInt z => negb (z =? 0)
  | PFloat _ => true
  | PStr s => negb (String.eqb s "")
  | PList l => match l with [] => false | _ => true end
  | PDict l => match l with [] => false | _ => true end
  end.

(** [d.get(key)] on the items of a dict. *)
Fixpoint dict_get (key : string) (items : list (string * pyval)) : option pyval :=
  match items with
  | [] => None
  | (k, v) :: rest => if String.eqb k key then Some v else dict_get key rest
  end.

(** [d[key] = v]: an existing key keeps its place, a new one goes last. *)
Fixpoint dict_set (key : string) (v : pyval) (items : list (string * pyval))
  : list (string * pyval) :=
  match items with
  | [] => [(key, v)]
  | (k, w) :: rest =>
      if String.eqb k key then (k, v) :: rest else (k, w) :: dict_set key v rest
  end.

(** [type(obj).__name__]. *)
Definition type_name (obj : pyval) : string :=
  match obj with
  | PNone => "NoneType"
  | PBool _ => "bool"
  | PInt _ => "int"
  | PFloat _ => "float"
  | PStr _ => "str"
  | PList _ => "list"
  | PDict _ => "dict"
  end.

(** [obj.get(key)]: only a dict has the method. *)
Definition py_get (obj : pyval) (key : string) : result pyval :=
  match obj with
  | PDict items =>
      match dict_get key items with
      | Some v => ok v
      | None => ok PNone
      end
  | _ => raise (AttributeError ("'" ++ type_name obj ++ "' object has no attribute 'get'"))
  end.

(** [obj[key]] with a string key. *)
Definition py_getitem (obj : pyval) (key : string) : result pyval :=
  match obj with
  | PDict items =>
      match dict_get key items with
      | Some v => ok v
      | None => raise (KeyError key)
      end
  | PList _ => raise (TypeError "list indices must be integers or slices, not str")
  | PStr _ => raise (TypeError "string indices must be integers, not 'str'")
  | _ => raise (TypeError ("'" ++ type_name obj ++ "' object is not subscriptable"))
  end.

(** Lexicographic order of two [str] ([<] of Python; on UTF-8 bytes it is
    the order of the code points). *)
Fixpoint str_ltb (a b : string) : bool :=
  match a, b with
  | EmptyString, EmptyString => false
  | EmptyString, String _ _ => true
  | String _ _, EmptyString => false
  | String x a', String y b' =>
      if (N_of_ascii x <? N_of_ascii y)%N then true
      else if (N_of_ascii y <? N_of_ascii x)%N then false
      else str_ltb a' b'
  end.

(** [a >= b] of two [str]. *)
Fixpoint str_geb (a b : string) : bool :=
  match a, b with
  | _, EmptyString => true
  | EmptyString, String _ _ => false
  | String x a', String y b' =>
      if (N_of_ascii y <? N_of_ascii x)%N then true
      else if (N_of_ascii x <? N_of_ascii y)%N then false
      else str_geb a' b'
  end.

End Py.
Export Py.

Notation "x <- r ;; k" := (rbind r (fun x => k))
  (at level 61, r at next level, right associativity).

(** ** [urllib.parse]: [quote_plus] and [urlencode] *)

Module Urllib.

Definition hex_digit (n : N) : ascii :=
  match n with
  | 0 => "0" | 1 => "1" | 2 => "2" | 3 => "3" | 4 => "4"
  | 5 => "5" | 6 => "6" | 7 => "7" | 8 => "8" | 9 => "9"
  | 10 => "A" | 11 => "B" | 12 => "C" | 13 => "D" | 14 => "E"
  | _ => "F"
  end%N%char.

Definition is_upper (c : ascii) : bool :=
  let n := N_of_ascii c in ((65 <=? n) && (n <=? 90))%N.
Definition is_lower (c : ascii) : bool :=
  let n := N_of_ascii c in ((97 <=? n) && (n <=? 122))%N.
Definition is_digit (c : ascii) : bool :=
  let n := N_of_ascii c in ((48 <=? n) && (n <=? 57))%N.

(** The characters [quote] never escapes: letters, digits and [_.-~]. *)
Definition always_safe (c : ascii) : bool :=
  is_upper c || is_lower c || is_digit c
  || Ascii.eqb c "_" || Ascii.eqb c "." || Ascii.eqb c "-" || Ascii.eqb c "~".

(** [quote_plus] on one byte of the UTF-8 encoding. *)
Definition quote_byte (c : ascii) : string :=
  if always_safe c then String c ""
  else if Ascii.eqb c " " then "+"
  else
    let n := N_of_ascii c in
    String "%" (String (hex_digit (n / 16)) (String (hex_digit (n mod 16)) "")).

Fixpoint quote_plus (s : string) : string :=
  match s with
  | EmptyString => ""
  | String c rest => quote_byte c ++ quote_plus rest
  end.

(** ['&'.join(parts)]. *)
Fixpoint join_amp (parts : list string) : string :=
  match parts with
  | [] => ""
  | [p] => p
  | p :: rest => p ++ "&" ++ join_amp rest
  end.

(** [urlencode(params)] for a dict of [str] keys and values, in the order
    of the dict. *)
Definition urlencode (params : list (string * string)) : string :=
  join_amp (map (fun kv => quote_plus (fst kv) ++ "=" ++ quote_plus (snd kv)) params).

End Urllib.

(** ** [oauth/config.py] *)

(** Modelled from the spec: [OAuthConfig], whose module [oauth/config.py] is
    not among the sources; section 3 gives its three fields, "immutable,
    supplied at construction". *)
Record OAuthConfig : Type := {
  client_id : string;
  client_secret : string;
  redirect_uri : string
}.

(** ** [base64.urlsafe_b64decode] *)

Module Base64.

(** [table_a2b_base64] of [binascii]: the value of a character of the
    standard alphabet, [None] for any other byte. *)
Definition table_a2b (c : ascii) : option N :=
  let n := N_of_ascii c in
  (if (65 <=? n) && (n <=? 90) then Some (n - 65)
   else if (97 <=? n) && (n <=? 122) then Some (n - 71)
   else if (48 <=? n) && (n <=? 57) then Some (n + 4)
   else if n =? 43 then Some 62
   else if n =? 47 then Some 63
   else None)%N.

(** The loop of [binascii.a2b_base64] with [strict_mode] off.  [quad_pos]
    is the position inside the group of four characters, [leftchar] the
    bits carried over, [pads] the run of [=] seen.  A byte outside the
    alphabet is skipped; a [=] that completes a group ends the decoding.
    The shifts and masks of the C code are written with [*], [/] and
    [mod]: the parts that are or-ed never overlap. *)
Fixpoint a2b_loop (quad_pos leftchar pads : N) (s : string) : result string :=
  match s with
  | EmptyString =>
      if (quad_pos =? 0)%N then ok ""
      else if (quad_pos =? 1)%N then
        raise (BinasciiError
          "Invalid base64-encoded string: number of data characters cannot be 1 more than a multiple of 4")
      else raise (BinasciiError "Incorrect padding")
  | String c rest =>
      if Ascii.eqb c "=" then
        if (2 <=? quad_pos)%N then
          if (4 <=? quad_pos + (pads + 1))%N then ok ""
          else a2b_loop quad_pos leftchar (pads + 1) rest
        else a2b_loop quad_pos leftchar pads rest
      else
        match table_a2b c with
        | None => a2b_loop quad_pos leftchar pads rest
        | Some this_ch =>
            (if quad_pos =? 0 then a2b_loop 1 this_ch 0 rest
             else if quad_pos =? 1 then
               out <- a2b_loop 2 (this_ch mod 16) 0 rest ;;
               ok (String (ascii_of_N ((leftchar * 4 + this_ch / 16) mod 256)) out)
             else if quad_pos =? 2 then
               out <- a2b_loop 3 (this_ch mod 4) 0 rest ;;
               ok (String (ascii_of_N ((leftchar * 16 + this_ch / 4) mod 256)) out)
             else
               out <- a2b_loop 0 0 0 rest ;;
               ok (String (ascii_of_N ((leftchar * 64 + this_ch) mod 256)) out))%N
        end
  end.

Definition a2b_base64 (s : string) : result string := a2b_loop 0 0 0 s.

Definition b64decode (s : string) : result string := a2b_base64 s.

Fixpoint is_ascii_str (s : string) : bool :=
  match s with
  | EmptyString => true
  | String c rest => (N_of_ascii c <? 128)%N && is_ascii_str rest
  end.

(** [_bytes_from_decode_data] on a [str]. *)
Definition _bytes_from_decode_data (s : string) : result string :=
  if is_ascii_str s then ok s
  else raise (ValueError "string argument should contain only ASCII characters").

(** [bytes.translate(_urlsafe_decode_translation)]: [-] becomes [+] and
    [_] becomes [/]. *)
Definition urlsafe_char (c : ascii) : ascii :=
  if Ascii.eqb c "-" then "+"%char
  else if Ascii.eqb c "_" then "/"%char
  else c.

Fixpoint translate_urlsafe (s : string) : string :=
  match s with
  | EmptyString => ""
  | String c rest => String (urlsafe_char c) (translate_urlsafe rest)
  end.

Definition urlsafe_b64decode (s : string) : result string :=
  b <- _bytes_from_decode_data s ;;
  b64decode (translate_urlsafe b).

(** *** The encoder of RFC 4648, section 5 (what issues a token)

    Not part of the sources: the round-trip property is stated against
    it.  [pad] tells whether the trailing [=] are written. *)
Definition urlsafe_alphabet (n : N) : ascii :=
  (if n <? 26 then ascii_of_N (n + 65)
   else if n <? 52 then ascii_of_N (n + 71)
   else if n <? 62 then ascii_of_N (n - 4)
   else if n =? 62 then "-"%char
   else "_"%char)%N.

Fixpoint urlsafe_b64encode (pad : bool) (bytes : string) : string :=
  match bytes with
  | EmptyString => ""
  | String b1 EmptyString =>
      let n1 := N_of_ascii b1 in
      String (urlsafe_alphabet (n1 / 4))
        (String (urlsafe_alphabet (n1 mod 4 * 16))
           (if pad then "==" else ""))
  | String b1 (String b2 EmptyString) =>
      let n1 := N_of_ascii b1 in
      let n2 := N_of_ascii b2 in
      String (urlsafe_alphabet (n1 / 4))
        (String (urlsafe_alphabet (n1 mod 4 * 16 + n2 / 16))
           (String (urlsafe_alphabet (n2 mod 16 * 4))
              (if pad then "=" else "")))
  | String b1 (String b2 (String b3 rest)) =>
      let n1 := N_of_ascii b1 in
      let n2 := N_of_ascii b2 in
      let n3 := N_of_ascii b3 in
      String (urlsafe_alphabet (n1 / 4))
        (String (urlsafe_alphabet (n1 mod 4 * 16 + n2 / 16))
           (String (urlsafe_alphabet (n2 mod 16 * 4 + n3 / 64))
              (String (urlsafe_alphabet (n3 mod 64))
                 (urlsafe_b64encode pad rest))))
  end%N.

End Base64.

(** ** [bytes.decode("utf-8")] *)

Module Utf8.

Definition cont (c : ascii) : bool :=
  let n := N_of_ascii c in ((128 <=? n) && (n <=? 191))%N.

Definition between (lo hi : N) (c : ascii) : bool :=
  let n := N_of_ascii c in ((lo <=? n) && (n <=? hi))%N.

(** Well-formed UTF-8 (table 3-7 of the Unicode standard): no overlong
    form, no surrogate, nothing above U+10FFFF. *)
Fixpoint valid (s : string) : bool :=
  match s with
  | EmptyString => true
  | String b0 r0 =>
      let n0 := N_of_ascii b0 in
      if (n0 <? 128)%N then valid r0
      else
        match r0 with
        | EmptyString => false
        | String b1 r1 =>
            if between 194 223 b0 then cont b1 && valid r1
            else
              match r1 with
              | EmptyString => false
              | String b2 r2 =>
                  if between 224 239 b0 then
                    (if (n0 =? 224)%N then between 160 191 b1
                     else if (n0 =? 237)%N then between 128 159 b1
                     else cont b1)
                    && cont b2 && valid r2
                  else
                    match r2 with
                    | EmptyString => false
                    | String b3 r3 =>
                        between 240 244 b0
                        && (if (n0 =? 240)%N then between 144 191 b1
                            else if (n0 =? 244)%N then between 128 143 b1
                            else cont b1)
                        && cont b2 && cont b3 && valid r3
                    end
              end
        end
  end.

(** On the UTF-8 bytes that stand for a [str], decoding checks and keeps
    the bytes. *)
Definition decode (b : string) : result string :=
  if valid b then ok b
  else raise (UnicodeDecodeError "'utf-8' codec can't decode byte: invalid start or continuation byte").

(** [chr(cp)] as UTF-8 bytes; a lone surrogate takes the three-byte form. *)
Definition chr (cp : N) : string :=
  (if cp <? 128 then String (ascii_of_N cp) ""
   else if cp <? 2048 then
     String (ascii_of_N (192 + cp / 64))
       (String (ascii_of_N (128 + cp mod 64)) "")
   else if cp <? 65536 then
     String (ascii_of_N (224 + cp / 4096))
       (String (ascii_of_N (128 + cp / 64 mod 64))
          (String (ascii_of_N (128 + cp mod 64)) ""))
   else
     String (ascii_of_N (240 + cp / 262144))
       (String (ascii_of_N (128 + cp / 4096 mod 64))
          (String (ascii_of_N (128 + cp / 64 mod 64))
             (String (ascii_of_N (128 + cp mod 64)) ""))))%N.

End Utf8.

(** ** [json.loads] *)

Module Json.

Definition code (c : ascii) : N := N_of_ascii c.

Definition is_ws (c : ascii) : bool :=
  let n := code c in ((n =? 32) || (n =? 9) || (n =? 10) || (n =? 13))%N.

Definition is_digit (c : ascii) : bool :=
  let n := code c in ((48 <=? n) && (n <=? 57))%N.

(** [WHITESPACE.match(s, idx).end()]. *)
Fixpoint skip_ws (s : string) : string :=
  match s with
  | EmptyString => s
  | String c rest => if is_ws c then skip_ws rest else s
  end.

(** [s[idx:idx + len(p)] == p], giving what follows. *)
Fixpoint strip_prefix (p s : string) : option string :=
  match p, s with
  | EmptyString, _ => Some s
  | String a p', String b s' => if Ascii.eqb a b then strip_prefix p' s' else None
  | String _ _, EmptyString => None
  end.

Definition hex_val (c : ascii) : option N :=
  let n := code c in
  (if (48 <=? n) && (n <=? 57) then Some (n - 48)
   else if (97 <=? n) && (n <=? 102) then Some (n - 87)
   else if (65 <=? n) && (n <=? 70) then Some (n - 55)
   else None)%N.

Definition hex4 (a b c d : ascii) : option N :=
  match hex_val a, hex_val b, hex_val c, hex_val d with
  | Some x, Some y, Some z, Some w => Some (((x * 16 + y) * 16 + z) * 16 + w)%N
  | _, _, _, _ => None
  end.

(** The table [BACKSLASH] of the simple escapes. *)
Definition backslash (c : ascii) : option ascii :=
  let n := code c in
  (if n =? 34 then Some (ascii_of_N 34)
   else if n =? 92 then Some (ascii_of_N 92)
   else if n =? 47 then Some (ascii_of_N 47)
   else if n =? 98 then Some (ascii_of_N 8)
   else if n =? 102 then Some (ascii_of_N 12)
   else if n =? 110 then Some (ascii_of_N 10)
   else if n =? 114 then Some (ascii_of_N 13)
   else if n =? 116 then Some (ascii_of_N 9)
   else None)%N.

Definition unterminated : exn := JSONDecodeError "Unterminated string starting at".
Definition bad_uXXXX : exn := JSONDecodeError "Invalid \uXXXX escape".

(** [scanstring(s, end, strict=True)], from the character after the
    opening quote: the decoded string and what follows the closing
    quote. *)
Fixpoint scanstring (s : string) : result (string * string) :=
  match s with
  | EmptyString => raise unterminated
  | String c rest =>
      if (code c =? 34)%N then ok ("", rest)
      else if (code c =? 92)%N then
        match rest with
        | EmptyString => raise unterminated
        | String e r0 =>
            if (code e =? 117)%N then
              match r0 with
              | String h1 (String h2 (String h3 (String h4 r4))) =>
                  match hex4 h1 h2 h3 h4 with
                  | None => raise bad_uXXXX
                  | Some uni =>
                      let single :=
                        p <- scanstring r4 ;; ok (Utf8.chr uni ++ fst p, snd p) in
                      if ((55296 <=? uni) && (uni <=? 56319))%N then
                        match r4 with
                        | String b (String u (String g1 (String g2 (String g3 (String g4 r10))))) =>
                            if ((code b =? 92) && (code u =? 117))%N then
                              match hex4 g1 g2 g3 g4 with
                              | None => raise bad_uXXXX
                              | Some uni2 =>
                                  if ((56320 <=? uni2) && (uni2 <=? 57343))%N then
                                    p <- scanstring r10 ;;
                                    ok (Utf8.chr (65536 + (uni - 55296) * 1024 + (uni2 - 56320))
                                          ++ fst p, snd p)
                                  else single
                              end
                            else single
                        | _ => single
                        end
                      else single
                  end
              | _ => raise bad_uXXXX
              end
            else
              match backslash e with
              | None => raise (JSONDecodeError "Invalid \escape")
              | Some ch => p <- scanstring r0 ;; ok (String ch (fst p), snd p)
              end
        end
      else if (code c <? 32)%N then raise (JSONDecodeError "Invalid control character at")
      else p <- scanstring rest ;; ok (String c (fst p), snd p)
  end.

Fixpoint take_digits (s : string) : string * string :=
  match s with
  | EmptyString => ("", "")
  | String c rest =>
      if is_digit c then let p := take_digits rest in (String c (fst p), snd p)
      else ("", s)
  end.

Fixpoint digits_value (acc : Z) (ds : string) : Z :=
  match ds with
  | EmptyString => acc
  | String c rest => digits_value (acc * 10 + (Z.of_N (code c) - 48)) rest
  end.

Definition is_empty (s : string) : bool :=
  match s with EmptyString => true | _ => false end.

(** [_match_number]: an optional minus sign, then a zero or a non-zero
    digit followed by digits, then an optional [.digits] and an optional
    exponent; an [int] when it has neither of the last two. *)
Definition match_number (s : string) : option (pyval * string) :=
  let '(neg, s1) :=
    match s with
    | String c r => if (code c =? 45)%N then (true, r) else (false, s)
    | EmptyString => (false, s)
    end in
  match s1 with
  | EmptyString => None
  | String d r =>
      if is_digit d then
        let '(int_digits, r1) :=
          if (code d =? 48)%N then ("0", r)
          else let p := take_digits r in (String d (fst p), snd p) in
        let '(frac, r2) :=
          match r1 with
          | String dot (String f r') =>
              if (code dot =? 46)%N && is_digit f then
                let p := take_digits r' in (String dot (String f (fst p)), snd p)
              else ("", r1)
          | _ => ("", r1)
          end in
        let '(exp, r3) :=
          match r2 with
          | String e r' =>
              if ((code e =? 101) || (code e =? 69))%N then
                let '(sign, r'') :=
                  match r' with
                  | String sg t =>
                      if ((code sg =? 43) || (code sg =? 45))%N then (String sg "", t)
                      else ("", r')
                  | EmptyString => ("", r')
                  end in
                let p := take_digits r'' in
                if is_empty (fst p) then ("", r2)
                else (String e (sign ++ fst p), snd p)
              else ("", r2)
          | EmptyString => ("", r2)
          end in
        if is_empty frac && is_empty exp then
          let v := digits_value 0 int_digits in
          Some (PInt (if neg then - v else v), r3)
        else
          Some (PFloat ((if neg then "-" else "") ++ int_digits ++ frac ++ exp), r3)
      else None
  end.

Definition expecting_value : exn := JSONDecodeError "Expecting value".
Definition expecting_comma : exn := JSONDecodeError "Expecting ',' delimiter".
Definition expecting_colon : exn := JSONDecodeError "Expecting ':' delimiter".
Definition expecting_name : exn :=
  JSONDecodeError "Expecting property name enclosed in double quotes".

(** [dict(pairs)]: a repeated key keeps its first place and its last
    value. *)
Definition dict_of_pairs (pairs : list (string * pyval)) : list (string * pyval) :=
  fold_left (fun d kv => dict_set (fst kv) (snd kv) d) pairs [].

(** [scan_once], with [JSONArray] and [JSONObject] unfolded into the loops
    [parse_elements] (from the first element) and [parse_members] (from
    the character after the opening quote of a key).  Each gives the value
    and the text that follows it.  [fuel] bounds the depth of the calls;
    twice the length of the text is always enough (lemma
    [parser_has_fuel]). *)
Fixpoint scan_once (fuel : nat) (s : string) {struct fuel} : result (pyval * string) :=
  match fuel with
  | O => raise (NotModelled "json.loads: out of fuel")
  | S f =>
      match s with
      | EmptyString => raise expecting_value
      | String c rest =>
          let n := code c in
          if (n =? 34)%N then
            p <- scanstring rest ;; ok (PStr (fst p), snd p)
          else if (n =? 123)%N then
            match skip_ws rest with
            | String c' rest' =>
                if (code c' =? 125)%N then ok (PDict [], rest')
                else if (code c' =? 34)%N then
                  p <- parse_members f rest' ;; ok (PDict (dict_of_pairs (fst p)), snd p)
                else raise expecting_name
            | EmptyString => raise expecting_name
            end
          else if (n =? 91)%N then
            match skip_ws rest with
            | String c' rest' =>
                if (code c' =? 93)%N then ok (PList [], rest')
                else p <- parse_elements f (String c' rest') ;; ok (PList (fst p), snd p)
            | EmptyString => raise expecting_value
            end
          else
            match strip_prefix "null" s, strip_prefix "true" s, strip_prefix "false" s with
            | Some r, _, _ => ok (PNone, r)
            | _, Some r, _ => ok (PBool true, r)
            | _, _, Some r => ok (PBool false, r)
            | None, None, None =>
                match strip_prefix "NaN" s, strip_prefix "Infinity" s,
                      strip_prefix "-Infinity" s with
                | Some r, _, _ => ok (PFloat "NaN", r)
                | _, Some r, _ => ok (PFloat "Infinity", r)
                | _, _, Some r => ok (PFloat "-Infinity", r)
                | None, None, None =>
                    match match_number s with
                    | Some p => ok p
                    | None => raise expecting_value
                    end
                end
            end
      end
  end

with parse_elements (fuel : nat) (s : string) {struct fuel}
  : result (list pyval * string) :=
  match fuel with
  | O => raise (NotModelled "json.loads: out of fuel")
  | S f =>
      p <- scan_once f s ;;
      match skip_ws (snd p) with
      | String c rest =>
          if (code c =? 93)%N then ok ([fst p], rest)
          else if (code c =? 44)%N then
            q <- parse_elements f (skip_ws rest) ;; ok (fst p :: fst q, snd q)
          else raise expecting_comma
      | EmptyString => raise expecting_comma
      end
  end

with parse_members (fuel : nat) (s : string) {struct fuel}
  : result (list (string * pyval) * string) :=
  match fuel with
  | O => raise (NotModelled "json.loads: out of fuel")
  | S f =>
      k <- scanstring s ;;
      match skip_ws (snd k) with
      | String c rest =>
          if (code c =? 58)%N then
            p <- scan_once f (skip_ws rest) ;;
            match skip_ws (snd p) with
            | String c' rest' =>
                if (code c' =? 125)%N then ok ([(fst k, fst p)], rest')
                else if (code c' =? 44)%N then
                  match skip_ws rest' with
                  | String c'' rest'' =>
                      if (code c'' =? 34)%N then
                        q <- parse_members f rest'' ;;
                        ok ((fst k, fst p) :: fst q, snd q)
                      else raise expecting_name
                  | EmptyString => raise expecting_name
                  end
                else raise expecting_comma
            | EmptyString => raise expecting_comma
            end
          else raise expecting_colon
      | EmptyString => raise expecting_colon
      end
  end.

(** [json.loads(s)] for a [str]: a byte order mark is refused, white space
    is allowed around the value, anything else after it is "Extra data".
    The interpreter's recursion limit and its limit on the digits of an
    [int] are not modelled. *)
Definition loads (s : string) : result pyval :=
  match strip_prefix (String (ascii_of_N 239) (String (ascii_of_N 187) (String (ascii_of_N 191) ""))) s with
  | Some _ => raise (JSONDecodeError "Unexpected UTF-8 BOM (decode using utf-8-sig)")
  | None =>
      p <- scan_once (S (2 * String.length s)) (skip_ws s) ;;
      match skip_ws (snd p) with
      | EmptyString => ok (fst p)
      | String _ _ => raise (JSONDecodeError "Extra data")
      end
  end.

End Json.

(** ** [datetime]: [utcfromtimestamp], [utcnow] and [strftime] *)

Module Datetime.

Record datetime : Type := {
  year : Z; month : Z; day : Z;
  hour : Z; minute : Z; second : Z;
  microsecond : Z
}.

Definition MINYEAR : Z := 1.
Definition MAXYEAR : Z := 9999.

(** The proleptic Gregorian date of a day counted from 1970-01-01, as
    [gmtime] gives it: eras of 400 years that start on a first of March. *)
Definition civil_from_days (z : Z) : Z * Z * Z :=
  let z' := z + 719468 in
  let era := z' / 146097 in
  let doe := z' mod 146097 in
  let yoe := (doe - doe / 1460 + doe / 36524 - doe / 146096) / 365 in
  let doy := doe - (365 * yoe + yoe / 4 - yoe / 100) in
  let mp := (5 * doy + 2) / 153 in
  let d := doy - (153 * mp + 2) / 5 + 1 in
  let m := if mp <? 10 then mp + 3 else mp - 9 in
  let y := yoe + era * 400 in
  ((if m <=? 2 then y + 1 else y), m, d).

(** The date and time at [seconds] whole seconds and [micro] microseconds
    after the epoch, in UTC. *)
Definition of_epoch (seconds micro : Z) : datetime :=
  let '(y, m, d) := civil_from_days (seconds / 86400) in
  let sod := seconds mod 86400 in
  {| year := y; month := m; day := d;
     hour := sod / 3600; minute := sod mod 3600 / 60; second := sod mod 60;
     microsecond := micro |}.

Definition digit_char (n : Z) : ascii := ascii_of_N (Z.to_N (48 + n mod 10)).

(** The decimal digits of a positive number; [fuel] is the number of its
    binary digits, which is enough. *)
Fixpoint decimal_digits (fuel : nat) (n : Z) : string :=
  match fuel with
  | O => ""
  | S f =>
      if n <? 10 then String (digit_char n) ""
      else decimal_digits f (n / 10) ++ String (digit_char n) ""
  end.

(** [%i] of C on an [int]. *)
Definition int_text (z : Z) : string :=
  match z with
  | Z0 => "0"
  | Zpos p => decimal_digits (Pos.size_nat p) (Zpos p)
  | Zneg p => "-" ++ decimal_digits (Pos.size_nat p) (Zpos p)
  end.

(** A value stored in a C [int] of 32 bits, in two's complement. *)
Definition c_int (z : Z) : Z := (z + 2147483648) mod 4294967296 - 2147483648.

(** [datetime.utcfromtimestamp] on a whole number of seconds, as CPython
    3.11 does it on Linux with a [time_t] of 64 bits.  A number that does
    not fit [time_t] is an [OverflowError].  [gmtime] of the C library
    fails ([EOVERFLOW], an [OSError]) when the year minus 1900 does not fit
    the field [tm_year], a C [int].  The constructor then refuses a year
    outside [MINYEAR..MAXYEAR]; the year it names is [tm_year + 1900]
    computed in a C [int]. *)
Definition from_seconds (seconds : Z) : result datetime :=
  if (seconds <? -9223372036854775808) || (9223372036854775808 <=? seconds) then
    raise (OverflowError "timestamp out of range for platform time_t")
  else
    let dt := of_epoch seconds 0 in
    let tm_year := year dt - 1900 in
    if (tm_year <? -2147483648) || (2147483648 <=? tm_year) then
      raise (OSError "[Errno 75] Value too large for defined data type")
    else
      let y := c_int (tm_year + 1900) in
      if (MINYEAR <=? y) && (y <=? MAXYEAR) then ok dt
      else raise (ValueError ("year " ++ int_text y ++ " is out of range")).

(** [datetime.utcfromtimestamp(timestamp)].  An [int] (or a [bool], which
    is one) is a number of seconds; [None], a [str], a list or a dict is a
    [TypeError].  The rounding of a float is not modelled. *)
Definition utcfromtimestamp (timestamp : pyval) : result datetime :=
  match timestamp with
  | PInt z => from_seconds z
  | PBool b => from_seconds (if b then 1 else 0)
  | PFloat lexeme => raise (NotModelled "datetime.utcfromtimestamp of a float")
  | PNone => raise (TypeError "'NoneType' object cannot be interpreted as an integer")
  | PStr _ => raise (TypeError "'str' object cannot be interpreted as an integer")
  | PList _ => raise (TypeError "'list' object cannot be interpreted as an integer")
  | PDict _ => raise (TypeError "'dict' object cannot be interpreted as an integer")
  end.

(** [datetime.utcnow()] when the clock reads [now_us] microseconds since
    the epoch. *)
Definition utcnow (now_us : Z) : datetime :=
  of_epoch (now_us / 1000000) (now_us mod 1000000).

(** [n] written with [width] decimal digits, zero filled (for
    [0 <= n < 10 ^ width], which the fields of a [datetime] satisfy). *)
Fixpoint zero_padded (width : nat) (n : Z) : string :=
  match width with
  | O => ""
  | S w => zero_padded w (n / 10) ++ String (digit_char n) ""
  end.

(** [%Y] as the C library of Linux writes it: the year in decimal, with no
    zero in front of a year below 1000 (for [1 <= y <= 9999], the years of
    a [datetime]). *)
Definition year_text (y : Z) : string :=
  if y <? 10 then zero_padded 1 y
  else if y <? 100 then zero_padded 2 y
  else if y <? 1000 then zero_padded 3 y
  else zero_padded 4 y.

(** [dt.strftime('%Y-%m-%d %H:%M:%S')]. *)
Definition strftime_Ymd_HMS (dt : datetime) : string :=
  year_text (year dt) ++ "-" ++ zero_padded 2 (month dt) ++ "-"
  ++ zero_padded 2 (day dt) ++ " " ++ zero_padded 2 (hour dt) ++ ":"
  ++ zero_padded 2 (minute dt) ++ ":" ++ zero_padded 2 (second dt).

End Datetime.

(** ** [_utils.py] *)

Module Utils.

(** [token.split(".")]. *)
Fixpoint split_dot (s : string) : list string :=
  match s with
  | EmptyString => [""]
  | String c rest =>
      if Ascii.eqb c "." then "" :: split_dot rest
      else
        match split_dot rest with
        | seg :: segs => String c seg :: segs
        | [] => [String c ""]
        end
  end.

(** [_decode_jwt(token)].  The [except ValueError] clause prints and
    raises the same exception again, so it leaves the outcome as it is;
    unpacking anything but three segments is itself a [ValueError], with
    the messages of CPython 3.11 ([split] gives at least one segment). *)
Definition _decode_jwt (token : string) : result pyval :=
  match split_dot token with
  | [header_b64; payload_b64; signature_b64] =>
      payload_bytes <- Base64.urlsafe_b64decode (payload_b64 ++ "==") ;;
      payload_json <- Utf8.decode payload_bytes ;;
      Json.loads payload_json
  | _ :: _ :: _ :: _ :: _ =>
      raise (ValueError "too many values to unpack (expected 3)")
  | [_; _] => raise (ValueError "not enough values to unpack (expected 3, got 2)")
  | [_] => raise (ValueError "not enough values to unpack (expected 3, got 1)")
  | [] => raise (ValueError "not enough values to unpack (expected 3, got 0)")
  end.

(** [_decode_timestamp(timestamp)]. *)
Definition _decode_timestamp (timestamp : pyval) : result string :=
  decoded_time <- Datetime.utcfromtimestamp timestamp ;;
  ok (Datetime.strftime_Ymd_HMS decoded_time).

(** [_compare_timestamp_with_current(timestamp)] when the clock reads
    [now_us]: [Some true], [Some false], or [None] for the end of the
    function body, which has no [return]. *)
Definition _compare_timestamp_with_current (now_us : Z) (timestamp : pyval)
  : result (option bool) :=
  decoded_time <- _decode_timestamp timestamp ;;
  let current_time := Datetime.strftime_Ymd_HMS (Datetime.utcnow now_us) in
  if str_ltb decoded_time current_time then ok (Some true)
  else if str_geb decoded_time current_time then ok (Some false)
  else ok None.

End Utils.

(** ** The issuer of a token

    Not part of the sources: the round-trip property of [_decode_jwt] is
    stated against an encoder, the one of a JWT library: the claims written
    as compact JSON, in UTF-8, base64url-encoded between a header and a
    signature. *)

Module Issuer.

(** The text of a JSON string: a quote, a backslash and the control
    characters are escaped, any other byte is written as it is. *)
Definition dumps_char (c : ascii) : string :=
  let n := Json.code c in
  (if n =? 34 then String "\" (String (ascii_of_N 34) "")
   else if n =? 92 then "\\"
   else if n <? 32 then
     "\u00" ++ String (Urllib.hex_digit (n / 16)) (String (Urllib.hex_digit (n mod 16)) "")
   else String c "")%N.

Fixpoint dumps_chars (s : string) : string :=
  match s with
  | EmptyString => ""
  | String c rest => dumps_char c ++ dumps_chars rest
  end.

Definition dumps_string (s : string) : string :=
  String (ascii_of_N 34) (dumps_chars s ++ String (ascii_of_N 34) "").

(** The decimal digits of a positive number; [fuel] is the number of its
    binary digits, which is enough. *)
Fixpoint decimal (fuel : nat) (n : Z) : string :=
  match fuel with
  | O => ""
  | S f =>
      if n <? 10 then String (Datetime.digit_char n) ""
      else decimal f (n / 10) ++ String (Datetime.digit_char n) ""
  end.

Definition dumps_int (z : Z) : string :=
  match z with
  | Z0 => "0"
  | Zpos p => decimal (Pos.size_nat p) (Zpos p)
  | Zneg p => "-" ++ decimal (Pos.size_nat p) (Zpos p)
  end.

(** The items separated by commas. *)
Fixpoint join_comma (parts : list string) : string :=
  match parts with
  | [] => ""
  | p :: rest =>
      match rest with
      | [] => p
      | _ :: _ => p ++ "," ++ join_comma rest
      end
  end.

(** [json.dumps(v, separators=(',', ':'), ensure_ascii=False)]; a float is
    written by its lexeme. *)
Fixpoint dumps (v : pyval) : string :=
  match v with
  | PNone => "null"
  | PBool true => "true"
  | PBool false => "false"
  | PInt z => dumps_int z
  | PFloat lexeme => lexeme
  | PStr s => dumps_string s
  | PList items => "[" ++ join_comma (map dumps items) ++ "]"
  | PDict items =>
      "{" ++ join_comma (map (fun kv => dumps_string (fst kv) ++ ":" ++ dumps (snd kv)) items)
      ++ "}"
  end.

Fixpoint unique_keys (keys : list string) : bool :=
  match keys with
  | [] => true
  | k :: rest => negb (existsb (String.eqb k) rest) && unique_keys rest
  end.

(** The values a token can carry and the model can follow: no float, the
    keys of an object all different, every string well-formed UTF-8. *)
Fixpoint claims_value (v : pyval) : bool :=
  match v with
  | PNone | PBool _ | PInt _ => true
  | PFloat _ => false
  | PStr s => Utf8.valid s
  | PList items => forallb claims_value items
  | PDict items =>
      forallb (fun kv => Utf8.valid (fst kv) && claims_value (snd kv)) items
      && unique_keys (map fst items)
  end.

(** A segment of a token has no dot. *)
Fixpoint no_dot (s : string) : bool :=
  match s with
  | EmptyString => true
  | String c rest => negb (Ascii.eqb c ".") && no_dot rest
  end.

(** The token for [claims], between [header] and [signature]; [pad] tells
    whether the middle segment keeps its padding. *)
Definition encode_token (pad : bool) (header : string) (claims : pyval)
    (signature : string) : string :=
  header ++ "." ++ Base64.urlsafe_b64encode pad (dumps claims) ++ "." ++ signature.

End Issuer.

(** ** The HTTP collaborator ([requests]) *)

Module Requests.

(** What a call sends: [json=v], [data=json.dumps(v)], or [data=bytes]. *)
Inductive body : Type :=
| NoBody
| JsonBody (v : pyval)
| DataJsonText (v : pyval)
| DataBytes (b : list Byte.byte).

Record request : Type := {
  method : string;
  url : pyval;
  headers : list (string * string);
  payload : body
}.

Record response : Type := {
  status_code : Z;
  text : string
}.

(** A call either raises a [requests.RequestException] (no response) or
    gives a response. *)
Inductive outcome : Type :=
| Failed (msg : string)
| Answered (r : response).

(** The network: what the call [req] gives after the calls [log]. *)
Definition network : Type := list request -> request -> outcome.

(** [response.json()]. *)
Definition json (r : response) : result pyval :=
  match Json.loads (text r) with
  | inr v => ok v
  | inl _ => raise (RequestsJSONDecodeError "Expecting value")
  end.

(** [response.raise_for_status()]: an error for a status from 400 to 599. *)
Definition raise_for_status (r : response) : result unit :=
  if (400 <=? status_code r) && (status_code r <? 500) then
    raise (HTTPError "Client Error")
  else if (500 <=? status_code r) && (status_code r <? 600) then
    raise (HTTPError "Server Error")
  else ok tt.

End Requests.
Export Requests.

(** ** Stateful calls *)

(** A method runs on a state [S] (the fields of [self], the log of the
    calls made) and either returns or raises; what it changed before
    raising stays changed. *)
Definition M (S A : Type) : Type := S -> result A * S.

Definition mret {S A} (a : A) : M S A := fun st => (ok a, st).
Definition mraise {S A} (e : exn) : M S A := fun st => (raise e, st).
Definition mbind {S A B} (m : M S A) (k : A -> M S B) : M S B :=
  fun st =>
    match m st with
    | (inl e, st') => (inl e, st')
    | (inr a, st') => k a st'
    end.
Definition lift {S A} (r : result A) : M S A := fun st => (r, st).

Notation "x <~ m ;; k" := (mbind m (fun x => k))
  (at level 61, m at next level, right associativity).
Notation "m ;;; k" := (mbind m (fun _ => k))
  (at level 61, right associativity).

(** ** [oauth/client.py]: [OAuthClient] *)

Module OAuth.

(** The fields of an [OAuthClient].  The two tokens take whatever the
    token endpoint answered, so they are Python values; [PNone] is
    [None]. *)
Record OAuthClient : Type := {
  config : OAuthConfig;
  access_token : pyval;
  refresh_token : pyval;
  longlive_token : pyval;
  api_key : pyval;
  base_url : option string
}.

(** [OAuthClient(config)]. *)
Definition __init__ (config : OAuthConfig) : OAuthClient :=
  {| config := config; access_token := PNone; refresh_token := PNone;
     longlive_token := PNone; api_key := PNone; base_url := None |}.

(** The state a method runs on: [self] and the calls made so far. *)
Definition state : Type := (OAuthClient * list request)%type.

Definition self_ : M state OAuthClient := fun st => (ok (fst st), st).
Definition set_self (f : OAuthClient -> OAuthClient) : M state unit :=
  fun st => (ok tt, (f (fst st), snd st)).

Definition set_base_url (v : option string) (c : OAuthClient) : OAuthClient :=
  {| config := config c; access_token := access_token c;
     refresh_token := refresh_token c; longlive_token := longlive_token c;
     api_key := api_key c; base_url := v |}.
Definition set_access_token (v : pyval) (c : OAuthClient) : OAuthClient :=
  {| config := config c; access_token := v;
     refresh_token := refresh_token c; longlive_token := longlive_token c;
     api_key := api_key c; base_url := base_url c |}.
Definition set_refresh_token (v : pyval) (c : OAuthClient) : OAuthClient :=
  {| config := config c; access_token := access_token c;
     refresh_token := v; longlive_token := longlive_token c;
     api_key := api_key c; base_url := base_url c |}.
Definition set_longlive (v : pyval) (c : OAuthClient) : OAuthClient :=
  {| config := config c; access_token := access_token c;
     refresh_token := refresh_token c; longlive_token := v;
     api_key := api_key c; base_url := base_url c |}.

(** [f"{self.base_url}"]. *)
Definition str_base_url (c : OAuthClient) : string :=
  match base_url c with
  | Some u => u
  | None => "None"
  end.

(** *** [get_authorization_url] *)

(** The comprehension [{key: value for key, value in params.items() if
    value is not None}]. *)
Fixpoint drop_none (params : list (string * option string)) : list (string * string) :=
  match params with
  | [] => []
  | (k, Some v) :: rest => (k, v) :: drop_none rest
  | (_, None) :: rest => drop_none rest
  end.

Definition authorization_params (c : OAuthClient) (state mode : option string)
  : list (string * string) :=
  drop_none [ ("client_id", Some (client_id (config c)));
              ("state", state);
              ("mode", mode) ].

Definition _encode_params (params : list (string * string)) : string :=
  Urllib.urlencode params.

Definition get_authorization_url (c : OAuthClient) (state mode : option string)
  : string :=
  "https://www.amocrm.ru/oauth?" ++ _encode_params (authorization_params c state mode).

(** *** Installing credentials *)

Definition set_oauth_credentials (access refresh subdomain : string) : M state bool :=
  set_self (set_base_url (Some ("https://" ++ subdomain ++ ".amocrm.ru"))) ;;;
  set_self (set_access_token (PStr access)) ;;;
  set_self (set_refresh_token (PStr refresh)) ;;;
  mret true.

Definition set_longlive_token (token subdomain : string) : M state bool :=
  set_self (set_base_url (Some ("https://" ++ subdomain ++ ".amocrm.ru"))) ;;;
  set_self (set_longlive (PStr token)) ;;;
  mret true.

Section WithNetwork.

Variable net : network.

(** One call of [requests]: it is logged, whatever comes of it. *)
Definition call (req : request) : M state outcome :=
  fun st => (ok (net (snd st) req), (fst st, (snd st ++ [req])%list)).

(** [_make_request]: a [RequestException] becomes an [OAuthError]; the
    [ValueError] for an unknown method is not caught. *)
Definition _make_request (url method : string) (headers : list (string * string))
    (data : option pyval) : M state response :=
  let json_of := match data with Some d => JsonBody d | None => NoBody end in
  let send (b : body) : M state response :=
    out <~ call {| Requests.method := method; url := PStr url;
                   headers := headers; payload := b |} ;;
    match out with
    | Answered r => mret r
    | Failed e => mraise (OAuthError ("Request failed: " ++ e))
    end in
  if String.eqb method "GET" then send NoBody
  else if String.eqb method "POST" then send json_of
  else if String.eqb method "PATCH" then send json_of
  else if String.eqb method "PUT" then send json_of
  else mraise (ValueError ("Unsupported HTTP method: " ++ method)).

(** [_make_post_request]. *)
Definition _make_post_request (url : string) (data : pyval) : M state pyval :=
  response <~ _make_request url "POST" [] (Some data) ;;
  if negb (status_code response =? 200) then
    mraise (OAuthError ("Failed to post to " ++ url ++ ": " ++ text response))
  else lift (Requests.json response).

(** [get_access_token]. *)
Definition get_access_token (authorization_code subdomain : string) : M state pyval :=
  set_self (set_base_url (Some ("https://" ++ subdomain ++ ".amocrm.ru"))) ;;;
  self <~ self_ ;;
  let url := str_base_url self ++ "/oauth2/access_token" in
  let data := PDict [ ("client_id", PStr (client_id (config self)));
                      ("client_secret", PStr (client_secret (config self)));
                      ("redirect_uri", PStr (redirect_uri (config self)));
                      ("code", PStr authorization_code);
                      ("grant_type", PStr "authorization_code") ] in
  token_data <~ _make_post_request url data ;;
  access <~ lift (py_getitem token_data "access_token") ;;
  set_self (set_access_token access) ;;;
  refresh <~ lift (py_get token_data "refresh_token") ;;
  set_self (set_refresh_token refresh) ;;;
  mret token_data.

(** [refresh_access_token]. *)
Definition refresh_access_token : M state pyval :=
  self <~ self_ ;;
  if negb (truthy (refresh_token self)) then
    mraise (OAuthError "No refresh token available")
  else
    let url := str_base_url self ++ "/oauth2/access_token" in
    let data := PDict [ ("client_id", PStr (client_id (config self)));
                        ("client_secret", PStr (client_secret (config self)));
                        ("grant_type", PStr "refresh_token");
                        ("refresh_token", refresh_token self) ] in
    token_data <~ _make_post_request url data ;;
    access <~ lift (py_getitem token_data "access_token") ;;
    set_self (set_access_token access) ;;;
    refresh <~ lift (py_get token_data "refresh_token") ;;
    set_self (set_refresh_token refresh) ;;;
    mret token_data.

(** [str(v)], as an f-string formats a value: a [str] as it is, [None],
    a [bool] and an [int] by their names and digits.  The text of a float,
    a list or a dict is not modelled. *)
Definition py_str (v : pyval) : result string :=
  match v with
  | PStr s => ok s
  | PNone => ok "None"
  | PBool true => ok "True"
  | PBool false => ok "False"
  | PInt z => ok (Issuer.dumps_int z)
  | PFloat _ | PList _ | PDict _ =>
      raise (NotModelled "str() of a float, a list or a dict")
  end.

(** The token an authenticated request presents:
    [self.longlive_token if self.longlive_token else self.access_token]. *)
Definition bearer_token (c : OAuthClient) : pyval :=
  if truthy (longlive_token c) then longlive_token c else access_token c.

(** [_make_authenticated_request(endpoint, method, data)].  [__version__]
    is the version of the package, whose [__init__.py] is not among the
    sources: it is a parameter.  The status of the response is not looked
    at: the body is parsed and returned. *)
Definition _make_authenticated_request (__version__ : string)
    (endpoint method : string) (data : option pyval) : M state pyval :=
  self <~ self_ ;;
  let url := str_base_url self ++ "/" ++ endpoint in
  token <~ lift (py_str (bearer_token self)) ;;
  let headers := [ ("Authorization", "Bearer " ++ token);
                   ("Content-Type", "application/json");
                   ("User-Agent", "amocrm-api-middleware/" ++ __version__) ] in
  response <~ _make_request url method headers data ;;
  lift (Requests.json response).

(** [get_domain_info(refresh_token)]: the argument is not used. *)
Definition get_domain_info (__version__ : string) (refresh_token : string)
  : M state pyval :=
  let endpoint := "api/v4/domain" in
  _make_authenticated_request __version__ endpoint "GET" None.

(** [exchange_api_key()]: the body is [pass]. *)
Definition exchange_api_key : M state pyval := mret PNone.

End WithNetwork.

(** [decode_jwt]. *)
Definition decode_jwt (token : string) : result pyval := Utils._decode_jwt token.

(** [is_token_expired] when the clock reads [now_us]; the result is
    [None], [True] or [False]. *)
Definition is_token_expired (now_us : Z) (token : option string)
  : result (option bool) :=
  match token with
  | None => ok None
  | Some t =>
      jwt <- Utils._decode_jwt t ;;
      jwt_exp <- py_get jwt "exp" ;;
      Utils._compare_timestamp_with_current now_us jwt_exp
  end.

End OAuth.

(** ** [oauth/client.py]: [FileUploadManager] *)

Module Upload.

Record FileUploadManager : Type := {
  access_token : string;
  max_part_size : Z
}.

(** The default of the parameter [max_part_size]. *)
Definition DEFAULT_MAX_PART_SIZE : Z := 131072.

(** [FileUploadManager(access_token, max_part_size)]. *)
Definition __init__ (access_token : string) (max_part_size : Z) : FileUploadManager :=
  {| access_token := access_token; max_part_size := max_part_size |}.

(** The files the uploader can see: the content of each path that exists.
    A file does not change while it is uploaded. *)
Definition filesystem : Type := string -> option (list Byte.byte).

(** The state of an upload: the calls made so far. *)
Definition state : Type := list request.

(** [file.read(size)]: at most [size] bytes, everything left when [size]
    is negative; and the rest of the file. *)
Definition read (size : Z) (rest : list Byte.byte) : list Byte.byte * list Byte.byte :=
  if size <? 0 then (rest, [])
  else (firstn (Z.to_nat size) rest, skipn (Z.to_nat size) rest).

(** The generator [upload_file_in_parts]: [while chunk :=
    file.read(self.max_part_size): yield chunk].  An empty read ends the
    loop; [fuel] counts the iterations left, and the number of bytes left
    is always enough, since a part that is yielded has a byte. *)
Fixpoint read_parts (fuel : nat) (size : Z) (rest : list Byte.byte)
  : list (list Byte.byte) :=
  match fuel with
  | O => []
  | S f =>
      match read size rest with
      | ([], _) => []
      | (chunk, rest') => chunk :: read_parts f size rest'
      end
  end.

Definition upload_file_in_parts (self : FileUploadManager) (content : list Byte.byte)
  : list (list Byte.byte) :=
  read_parts (List.length content) (max_part_size self) content.

Section WithNetwork.

Variable net : network.

(** [requests.post(url, headers=headers, data=...)]: logged; a transport
    failure reaches the caller as it is. *)
Definition post (url : pyval) (headers : list (string * string)) (b : body)
  : M state response :=
  fun log =>
    let req := {| method := "POST"; url := url; headers := headers; payload := b |} in
    match net log req with
    | Answered r => (ok r, (log ++ [req])%list)
    | Failed e => (raise (RequestException e), (log ++ [req])%list)
    end.

(** [create_session]. *)
Definition create_session (self : FileUploadManager) (file_name : string)
    (file_size : Z) : M state pyval :=
  let url := "https://drive-b.amocrm.ru/v1.0/sessions" in
  let headers := [ ("Content-Type", "application/json");
                   ("Authorization", "Bearer " ++ access_token self) ] in
  let payload := DataJsonText (PDict [ ("file_name", PStr file_name);
                                       ("file_size", PInt file_size);
                                       ("content_type", PStr "image/jpeg") ]) in
  response <~ post (PStr url) headers payload ;;
  lift (raise_for_status response) ;;;
  session <~ lift (Requests.json response) ;;
  lift (py_getitem session "upload_url").

(** [upload_chunk]: [response.json()] is evaluated for [print] and
    again for [next_url]. *)
Definition upload_chunk (self : FileUploadManager) (file_chunk : list Byte.byte)
    (upload_url : pyval) : M state pyval :=
  let headers := [ ("Content-Type", "image/jpeg");
                   ("Authorization", "Bearer " ++ access_token self) ] in
  response <~ post upload_url headers (DataBytes file_chunk) ;;
  lift (raise_for_status response) ;;;
  lift (Requests.json response) ;;;
  answer <~ lift (Requests.json response) ;;
  lift (py_get answer "next_url").

(** The [for] loop of [upload_file] over the parts. *)
Fixpoint upload_parts (self : FileUploadManager) (parts : list (list Byte.byte))
    (upload_url : pyval) : M state unit :=
  match parts with
  | [] => mret tt
  | part :: rest =>
      next_url <~ upload_chunk self part upload_url ;;
      upload_parts self rest next_url
  end.

(** [upload_file]: [os.path.getsize] raises for a path that does not
    exist. *)
Definition upload_file (self : FileUploadManager) (fs : filesystem)
    (file_path file_name : string) : M state unit :=
  match fs file_path with
  | None => mraise (FileNotFoundError file_path)
  | Some content =>
      upload_url <~ create_session self file_name (Z.of_nat (List.length content)) ;;
      upload_parts self (upload_file_in_parts self content) upload_url
  end.

End WithNetwork.

End Upload.

(** * Properties *)

(** ** Strings *)

Lemma str_length_app a b :
  String.length (a ++ b) = (String.length a + String.length b)%nat.
Proof. induction a as [|c a IH]; simpl; [reflexivity | now rewrite IH]. Qed.

Lemma str_app_assoc a b c : (a ++ b) ++ c = a ++ (b ++ c).
Proof. induction a as [|x a IH]; simpl; [reflexivity | now rewrite IH]. Qed.

Lemma str_app_nil_r a : a ++ "" = a.
Proof. induction a as [|x a IH]; simpl; [reflexivity | now rewrite IH]. Qed.

Lemma str_ltb_irrefl a : str_ltb a a = false.
Proof.
  induction a as [|c a IH]; simpl; [reflexivity|].
  now rewrite N.ltb_irrefl.
Qed.

Lemma str_ltb_cons c x x' : str_ltb (String c x) (String c x') = str_ltb x x'.
Proof. simpl. now rewrite N.ltb_irrefl. Qed.

(** The order of texts is total: [a >= b] holds exactly when [a < b] does
    not. *)
Lemma str_geb_ltb a b : str_geb a b = negb (str_ltb a b).
Proof.
  revert b. induction a as [|x a IH]; intros [|y b]; try reflexivity.
  cbn [str_geb str_ltb].
  destruct (N.ltb_spec (N_of_ascii y) (N_of_ascii x));
    destruct (N.ltb_spec (N_of_ascii x) (N_of_ascii y)); try reflexivity; try lia.
  apply IH.
Qed.

(** Two texts that start with parts of the same length compare by those
    parts first. *)
Lemma str_ltb_app a a' x x' :
  String.length a = String.length a' ->
  str_ltb (a ++ x) (a' ++ x') =
  if str_ltb a a' then true else if str_ltb a' a then false else str_ltb x x'.
Proof.
  revert a'. induction a as [|c a IH]; intros [|c' a'] Hlen; simpl in Hlen; try discriminate.
  - simpl. destruct x, x'; reflexivity.
  - simpl.
    destruct (N_of_ascii c <? N_of_ascii c')%N eqn:E1; [reflexivity|].
    destruct (N_of_ascii c' <? N_of_ascii c)%N eqn:E2; [reflexivity|].
    apply IH. now injection Hlen.
Qed.

(** The order of texts is transitive: [a < b] and [b <= c] give [a < c]. *)
Lemma str_ltb_le_trans a :
  forall b c, str_ltb a b = true -> str_ltb c b = false -> str_ltb a c = true.
Proof.
  induction a as [|x a IH]; intros [|y b] [|z c]; cbn [str_ltb];
    try discriminate; try reflexivity.
  destruct (N.ltb_spec (N_of_ascii x) (N_of_ascii y));
    destruct (N.ltb_spec (N_of_ascii y) (N_of_ascii x));
    destruct (N.ltb_spec (N_of_ascii z) (N_of_ascii y));
    destruct (N.ltb_spec (N_of_ascii y) (N_of_ascii z));
    destruct (N.ltb_spec (N_of_ascii x) (N_of_ascii z));
    destruct (N.ltb_spec (N_of_ascii z) (N_of_ascii x));
    try discriminate; try reflexivity; try lia.
  apply IH.
Qed.

(** ** The calendar: formatted times compare as the instants do *)

Module DatetimeFacts.
Import Datetime.

Definition yoe_of (doe : Z) : Z :=
  (doe - doe / 1460 + doe / 36524 - doe / 146096) / 365.
Definition doy_of (doe : Z) : Z :=
  doe - (365 * yoe_of doe + yoe_of doe / 4 - yoe_of doe / 100).
Definition mp_of (doy : Z) : Z := (5 * doy + 2) / 153.
Definition dom_of (doy : Z) : Z := doy - (153 * mp_of doy + 2) / 5 + 1.

(** Days before the year [y] of an era (years that start in March). *)
Definition days_before (y : Z) : Z := 365 * y + y / 4 - y / 100 + y / 400.

Definition date_key (p : Z * Z * Z) : Z :=
  let '(y, m, d) := p in (y * 13 + m) * 32 + d.

Definition time_key (dt : datetime) : Z :=
  ((((year dt * 13 + month dt) * 32 + day dt) * 24 + hour dt) * 60 + minute dt) * 60
  + second dt.

Definition fields_ok (dt : datetime) : Prop :=
  1000 <= year dt < 10000 /\ 1 <= month dt <= 12 /\ 1 <= day dt <= 31 /\
  0 <= hour dt < 24 /\ 0 <= minute dt < 60 /\ 0 <= second dt < 60.

(** The first and the last second [datetime] can hold:
    0001-01-01 00:00:00 and 9999-12-31 23:59:59. *)
Definition MIN_TIMESTAMP : Z := -62135596800.
Definition MAX_TIMESTAMP : Z := 253402300799.

(** The first second of the year 1000, from which [%Y] has four digits:
    1000-01-01 00:00:00. *)
Definition YEAR_1000 : Z := -30610224000.

Lemma yoe_bounds doe :
  0 <= doe <= 146096 ->
  0 <= yoe_of doe <= 399
  /\ days_before (yoe_of doe) <= doe < days_before (yoe_of doe + 1).
Proof.
  intros H. unfold yoe_of, days_before.
  Z.div_mod_to_equations; lia.
Qed.

Lemma days_before_mono x y : x <= y -> days_before x <= days_before y.
Proof. intros H. unfold days_before. Z.div_mod_to_equations; lia. Qed.

Lemma doy_bounds doe : 0 <= doe <= 146096 -> 0 <= doy_of doe <= 365.
Proof.
  intros H. destruct (yoe_bounds doe H) as [Hy [Hl Hu]].
  unfold doy_of. unfold days_before in *. Z.div_mod_to_equations; lia.
Qed.

Lemma era_year_mono a b :
  0 <= a < b -> b <= 146096 ->
  yoe_of a * 366 + doy_of a < yoe_of b * 366 + doy_of b.
Proof.
  intros Ha Hb.
  destruct (yoe_bounds a ltac:(lia)) as [Hya [Hla Hua]].
  destruct (yoe_bounds b ltac:(lia)) as [Hyb [Hlb Hub]].
  pose proof (doy_bounds a ltac:(lia)). pose proof (doy_bounds b ltac:(lia)).
  destruct (Z.lt_trichotomy (yoe_of a) (yoe_of b)) as [Hlt | [Heq | Hgt]].
  - lia.
  - unfold doy_of in *. rewrite Heq. lia.
  - pose proof (days_before_mono (yoe_of b + 1) (yoe_of a) ltac:(lia)). lia.
Qed.

Lemma month_bounds doy :
  0 <= doy <= 365 -> 0 <= mp_of doy <= 11 /\ 1 <= dom_of doy <= 31.
Proof. intros H. unfold dom_of, mp_of. Z.div_mod_to_equations; lia. Qed.

Lemma month_mono a b :
  0 <= a < b -> b <= 365 ->
  mp_of a * 32 + dom_of a < mp_of b * 32 + dom_of b.
Proof. intros Ha Hb. unfold dom_of, mp_of. Z.div_mod_to_equations; lia. Qed.

Lemma civil_from_days_unfold z :
  civil_from_days z =
  let z' := z + 719468 in
  let doe := z' mod 146097 in
  let mp := mp_of (doy_of doe) in
  let m := if mp <? 10 then mp + 3 else mp - 9 in
  let y := yoe_of doe + z' / 146097 * 400 in
  ((if m <=? 2 then y + 1 else y), m, dom_of (doy_of doe)).
Proof. reflexivity. Qed.

Ltac split_ifs :=
  repeat match goal with
         | |- context [if ?c then _ else _] => destruct c eqn:?
         end.

Lemma civil_fields z :
  let '(y, m, d) := civil_from_days z in 1 <= m <= 12 /\ 1 <= d <= 31.
Proof.
  rewrite civil_from_days_unfold. cbv zeta.
  pose proof (Z.mod_pos_bound (z + 719468) 146097 ltac:(lia)) as Hd.
  pose proof (doy_bounds ((z + 719468) mod 146097) ltac:(lia)) as Hy.
  pose proof (month_bounds _ Hy) as [Hm Hdm].
  destruct (mp_of _ <? 10) eqn:E; lia.
Qed.

(** A later day has a later date. *)
Lemma date_key_mono z1 z2 :
  z1 < z2 -> date_key (civil_from_days z1) < date_key (civil_from_days z2).
Proof.
  intros Hlt. rewrite !civil_from_days_unfold. cbv zeta. unfold date_key.
  set (a := z1 + 719468). set (b := z2 + 719468).
  assert (Hab : a < b) by (subst a b; lia).
  pose proof (Z.mod_pos_bound a 146097 ltac:(lia)) as Hda.
  pose proof (Z.mod_pos_bound b 146097 ltac:(lia)) as Hdb.
  pose proof (Z.div_mod a 146097 ltac:(lia)) as Ea.
  pose proof (Z.div_mod b 146097 ltac:(lia)) as Eb.
  pose proof (yoe_bounds (a mod 146097) ltac:(lia)) as [Hya _].
  pose proof (yoe_bounds (b mod 146097) ltac:(lia)) as [Hyb _].
  pose proof (doy_bounds (a mod 146097) ltac:(lia)) as Hoa.
  pose proof (doy_bounds (b mod 146097) ltac:(lia)) as Hob.
  pose proof (month_bounds _ Hoa) as [Hma Hxa].
  pose proof (month_bounds _ Hob) as [Hmb Hxb].
  assert (Hkey : (yoe_of (a mod 146097) + a / 146097 * 400) * 366 + doy_of (a mod 146097)
               < (yoe_of (b mod 146097) + b / 146097 * 400) * 366 + doy_of (b mod 146097)).
  { destruct (Z.lt_trichotomy (a / 146097) (b / 146097)) as [H | [H | H]].
    - lia.
    - pose proof (era_year_mono (a mod 146097) (b mod 146097) ltac:(lia) ltac:(lia)). lia.
    - lia. }
  generalize dependent (yoe_of (a mod 146097) + a / 146097 * 400).
  generalize dependent (yoe_of (b mod 146097) + b / 146097 * 400).
  intros Yb Ya Hkey.
  assert (Hcase : Ya < Yb \/ (Ya = Yb /\ doy_of (a mod 146097) < doy_of (b mod 146097)))
    by lia.
  destruct Hcase as [HY | [HY Hd]].
  - split_ifs; lia.
  - pose proof (month_mono _ _ (conj (proj1 Hoa) Hd) (proj2 Hob)).
    split_ifs; lia.
Qed.

Lemma date_key_mono_le z1 z2 :
  z1 <= z2 -> date_key (civil_from_days z1) <= date_key (civil_from_days z2).
Proof.
  intros H. destruct (Z.eq_dec z1 z2) as [-> | Hne]; [lia|].
  pose proof (date_key_mono z1 z2 ltac:(lia)). lia.
Qed.

(** *** Zero-filled numbers compare as numbers *)

Lemma zero_padded_length w n : String.length (zero_padded w n) = w.
Proof.
  revert n. induction w as [|w IH]; intros n; simpl; [reflexivity|].
  rewrite str_length_app, IH. simpl. lia.
Qed.

Lemma digit_char_code n : N_of_ascii (digit_char n) = Z.to_N (48 + n mod 10).
Proof.
  unfold digit_char. apply N_ascii_embedding.
  pose proof (Z.mod_pos_bound n 10 ltac:(lia)). lia.
Qed.

Lemma zero_padded_ltb w n m :
  0 <= n < 10 ^ Z.of_nat w -> 0 <= m < 10 ^ Z.of_nat w ->
  str_ltb (zero_padded w n) (zero_padded w m) = (n <? m).
Proof.
  revert n m. induction w as [|w IH]; intros n m Hn Hm.
  - simpl in *. assert (n = 0) by lia. assert (m = 0) by lia. subst. reflexivity.
  - rewrite Nat2Z.inj_succ, Z.pow_succ_r in Hn, Hm by lia.
    simpl zero_padded.
    rewrite str_ltb_app by (now rewrite !zero_padded_length).
    rewrite !IH by (Z.div_mod_to_equations; lia).
    simpl str_ltb. rewrite !digit_char_code.
    pose proof (Z.mod_pos_bound n 10 ltac:(lia)).
    pose proof (Z.mod_pos_bound m 10 ltac:(lia)).
    pose proof (Z.div_mod n 10 ltac:(lia)). pose proof (Z.div_mod m 10 ltac:(lia)).
    repeat match goal with
           | |- context [(?a <? ?b)%N] => destruct (N.ltb_spec a b)
           | |- context [?a <? ?b] => destruct (Z.ltb_spec a b)
           end; try reflexivity; lia.
Qed.

(** Two formatted times compare as the tuples of their fields. *)
Lemma strftime_ltb dt1 dt2 :
  fields_ok dt1 -> fields_ok dt2 ->
  str_ltb (strftime_Ymd_HMS dt1) (strftime_Ymd_HMS dt2) = (time_key dt1 <? time_key dt2).
Proof.
  intros (Hy1 & Hm1 & Hd1 & HH1 & HM1 & HS1) (Hy2 & Hm2 & Hd2 & HH2 & HM2 & HS2).
  unfold strftime_Ymd_HMS, time_key, year_text.
  replace (year dt1 <? 10) with false by (symmetry; apply Z.ltb_ge; lia).
  replace (year dt1 <? 100) with false by (symmetry; apply Z.ltb_ge; lia).
  replace (year dt1 <? 1000) with false by (symmetry; apply Z.ltb_ge; lia).
  replace (year dt2 <? 10) with false by (symmetry; apply Z.ltb_ge; lia).
  replace (year dt2 <? 100) with false by (symmetry; apply Z.ltb_ge; lia).
  replace (year dt2 <? 1000) with false by (symmetry; apply Z.ltb_ge; lia).
  repeat (rewrite str_ltb_app by (now rewrite !zero_padded_length);
          try match goal with
              | |- context [str_ltb (String ?c EmptyString ++ ?x) (String ?c EmptyString ++ ?y)] =>
                  change (str_ltb (String c EmptyString ++ x) (String c EmptyString ++ y))
                    with (str_ltb (String c x) (String c y));
                  rewrite str_ltb_cons
              end).
  rewrite !zero_padded_ltb by (simpl; lia).
  repeat match goal with
         | |- context [?a <? ?b] => destruct (Z.ltb_spec a b)
         end; try reflexivity; try lia.
Qed.

(** *** From seconds to fields *)

Lemma time_key_of_epoch t us :
  time_key (of_epoch t us)
  = date_key (civil_from_days (t / 86400)) * 86400 + t mod 86400.
Proof.
  unfold of_epoch, time_key, date_key.
  destruct (civil_from_days (t / 86400)) as [[y m] d]. simpl.
  pose proof (Z.mod_pos_bound t 86400 ltac:(lia)).
  Z.div_mod_to_equations; lia.
Qed.

Lemma time_key_mono t1 t2 u1 u2 :
  t1 < t2 -> time_key (of_epoch t1 u1) < time_key (of_epoch t2 u2).
Proof.
  intros H. rewrite !time_key_of_epoch.
  pose proof (Z.mod_pos_bound t1 86400 ltac:(lia)).
  pose proof (Z.mod_pos_bound t2 86400 ltac:(lia)).
  pose proof (Z.div_mod t1 86400 ltac:(lia)).
  pose proof (Z.div_mod t2 86400 ltac:(lia)).
  destruct (Z.eq_dec (t1 / 86400) (t2 / 86400)) as [E | E].
  - rewrite E. lia.
  - pose proof (date_key_mono (t1 / 86400) (t2 / 86400) ltac:(lia)). lia.
Qed.

Lemma time_key_ltb t1 t2 u1 u2 :
  (time_key (of_epoch t1 u1) <? time_key (of_epoch t2 u2)) = (t1 <? t2).
Proof.
  destruct (Z.ltb_spec t1 t2) as [H | H].
  - apply Z.ltb_lt. now apply time_key_mono.
  - apply Z.ltb_ge. destruct (Z.eq_dec t1 t2) as [-> | Hne].
    + rewrite !time_key_of_epoch. lia.
    + pose proof (time_key_mono t2 t1 u2 u1 ltac:(lia)). lia.
Qed.

(** The year is within [MINYEAR..MAXYEAR] exactly for the seconds from
    [MIN_TIMESTAMP] to [MAX_TIMESTAMP]. *)
Lemma year_in_range t us :
  MIN_TIMESTAMP <= t <= MAX_TIMESTAMP <->
  MINYEAR <= year (of_epoch t us) <= MAXYEAR.
Proof.
  unfold MIN_TIMESTAMP, MAX_TIMESTAMP, MINYEAR, MAXYEAR, of_epoch.
  pose proof (civil_fields (t / 86400)) as Hf.
  pose proof (date_key_mono_le (-719162) (t / 86400)) as Hlo.
  pose proof (date_key_mono_le (t / 86400) 2932896) as Hhi.
  pose proof (date_key_mono_le (t / 86400) (-719163)) as Hlo'.
  pose proof (date_key_mono_le 2932897 (t / 86400)) as Hhi'.
  change (civil_from_days (-719162)) with (1, 1, 1) in Hlo.
  change (civil_from_days 2932896) with (9999, 12, 31) in Hhi.
  change (civil_from_days (-719163)) with (0, 12, 31) in Hlo'.
  change (civil_from_days 2932897) with (10000, 1, 1) in Hhi'.
  destruct (civil_from_days (t / 86400)) as [[y m] d]. simpl in *.
  split; intros H.
  - assert (-719162 <= t / 86400 <= 2932896) by (Z.div_mod_to_equations; lia). lia.
  - destruct (Z_le_gt_dec (t / 86400) (-719163)) as [G | G]; [lia|].
    destruct (Z_le_gt_dec 2932897 (t / 86400)) as [G' | G']; [lia|].
    Z.div_mod_to_equations; lia.
Qed.

Lemma four_digit_year t us :
  YEAR_1000 <= t <= MAX_TIMESTAMP -> 1000 <= year (of_epoch t us) < 10000.
Proof.
  unfold YEAR_1000, MAX_TIMESTAMP, of_epoch. intros H.
  pose proof (civil_fields (t / 86400)) as Hf.
  pose proof (date_key_mono_le (-354285) (t / 86400)) as Hlo.
  pose proof (date_key_mono_le (t / 86400) 2932896) as Hhi.
  change (civil_from_days (-354285)) with (1000, 1, 1) in Hlo.
  change (civil_from_days 2932896) with (9999, 12, 31) in Hhi.
  destruct (civil_from_days (t / 86400)) as [[y m] d]. simpl in *.
  assert (-354285 <= t / 86400 <= 2932896) by (Z.div_mod_to_equations; lia). lia.
Qed.

Lemma of_epoch_fields t us :
  YEAR_1000 <= t <= MAX_TIMESTAMP -> fields_ok (of_epoch t us).
Proof.
  intros H. pose proof (four_digit_year t us H) as Hy.
  unfold fields_ok.
  split; [lia|]. clear Hy. unfold of_epoch.
  pose proof (civil_fields (t / 86400)) as Hf.
  destruct (civil_from_days (t / 86400)) as [[y m] d]. simpl.
  pose proof (Z.mod_pos_bound t 86400 ltac:(lia)).
  repeat split; try lia; Z.div_mod_to_equations; lia.
Qed.

(** The comparison of the sources: the formatted texts of two instants of
    four-digit years compare as the instants do. *)
Lemma strftime_of_epoch_ltb t1 t2 u1 u2 :
  YEAR_1000 <= t1 <= MAX_TIMESTAMP ->
  YEAR_1000 <= t2 <= MAX_TIMESTAMP ->
  str_ltb (strftime_Ymd_HMS (of_epoch t1 u1)) (strftime_Ymd_HMS (of_epoch t2 u2))
  = (t1 <? t2).
Proof.
  intros H1 H2.
  rewrite strftime_ltb by (now apply of_epoch_fields).
  apply time_key_ltb.
Qed.

Lemma c_int_small z : -2147483648 <= z < 2147483648 -> c_int z = z.
Proof. intros H. unfold c_int. rewrite Z.mod_small by lia. lia. Qed.

(** Up to 10^16 seconds either way the year is far from the bounds of a C
    [int]. *)
Lemma year_bound t us :
  - 10 ^ 16 <= t <= 10 ^ 16 -> -316885416 <= year (of_epoch t us) <= 316889355.
Proof.
  intros H. change (10 ^ 16) with 10000000000000000 in H. unfold of_epoch.
  pose proof (civil_fields (t / 86400)) as Hf.
  pose proof (date_key_mono_le (-115740740741) (t / 86400)) as Hlo.
  pose proof (date_key_mono_le (t / 86400) 115740740740) as Hhi.
  replace (civil_from_days (-115740740741)) with (-316885416, 12, 6) in Hlo
    by (vm_compute; reflexivity).
  replace (civil_from_days 115740740740) with (316889355, 1, 25) in Hhi
    by (vm_compute; reflexivity).
  destruct (civil_from_days (t / 86400)) as [[y m] d]. simpl in *.
  assert (-115740740741 <= t / 86400 <= 115740740740) by (Z.div_mod_to_equations; lia).
  lia.
Qed.

(** Where the timestamp fits [time_t] and the year fits a C [int] with
    room for 1900, only the test of the year is left. *)
Lemma from_seconds_year t :
  -9223372036854775808 <= t < 9223372036854775808 ->
  -2147481748 <= year (of_epoch t 0) < 2147483648 ->
  from_seconds t
  = if (MINYEAR <=? year (of_epoch t 0)) && (year (of_epoch t 0) <=? MAXYEAR)
    then ok (of_epoch t 0)
    else raise (ValueError ("year " ++ int_text (year (of_epoch t 0)) ++ " is out of range")).
Proof.
  intros Ht Hy. unfold from_seconds.
  replace (t <? -9223372036854775808) with false by (symmetry; apply Z.ltb_ge; lia).
  replace (9223372036854775808 <=? t) with false by (symmetry; apply Z.leb_gt; lia).
  cbv zeta. cbn [orb].
  replace (year (of_epoch t 0) - 1900 <? -2147483648) with false
    by (symmetry; apply Z.ltb_ge; lia).
  replace (2147483648 <=? year (of_epoch t 0) - 1900) with false
    by (symmetry; apply Z.leb_gt; lia).
  cbn [orb].
  replace (year (of_epoch t 0) - 1900 + 1900) with (year (of_epoch t 0)) by lia.
  now rewrite c_int_small by lia.
Qed.

Lemma from_seconds_in_range t :
  MIN_TIMESTAMP <= t <= MAX_TIMESTAMP -> from_seconds t = ok (of_epoch t 0).
Proof.
  intros H.
  pose proof (proj1 (year_in_range t 0) H) as [Hlo Hhi].
  rewrite from_seconds_year
    by (unfold MIN_TIMESTAMP, MAX_TIMESTAMP, MINYEAR, MAXYEAR in *; lia).
  apply Z.leb_le in Hlo. apply Z.leb_le in Hhi.
  now rewrite Hlo, Hhi.
Qed.

(** Outside the years of [datetime], and up to 10^16 seconds either way,
    the constructor refuses the year and names it. *)
Lemma from_seconds_out_of_range t :
  - 10 ^ 16 <= t <= 10 ^ 16 ->
  ~ (MIN_TIMESTAMP <= t <= MAX_TIMESTAMP) ->
  from_seconds t
  = raise (ValueError ("year " ++ int_text (year (of_epoch t 0)) ++ " is out of range")).
Proof.
  intros Hb H. pose proof (year_bound t 0 Hb) as Hy.
  rewrite from_seconds_year by (change (10 ^ 16) with 10000000000000000 in Hb; lia).
  destruct ((MINYEAR <=? year (of_epoch t 0)) && (year (of_epoch t 0) <=? MAXYEAR)) eqn:E;
    [|reflexivity].
  exfalso. apply H. apply (year_in_range t 0).
  apply andb_prop in E. destruct E as [E1 E2].
  apply Z.leb_le in E1. apply Z.leb_le in E2. lia.
Qed.

(** Whatever the timestamp, outside the years of [datetime] nothing is
    returned. *)
Lemma from_seconds_fails t :
  ~ (MIN_TIMESTAMP <= t <= MAX_TIMESTAMP) -> exists e, from_seconds t = raise e.
Proof.
  intros H. unfold from_seconds.
  destruct ((t <? -9223372036854775808) || (9223372036854775808 <=? t)) eqn:E1;
    [eexists; reflexivity|].
  cbv zeta.
  destruct ((year (of_epoch t 0) - 1900 <? -2147483648)
            || (2147483648 <=? year (of_epoch t 0) - 1900)) eqn:E2;
    [eexists; reflexivity|].
  destruct ((MINYEAR <=? c_int (year (of_epoch t 0) - 1900 + 1900))
            && (c_int (year (of_epoch t 0) - 1900 + 1900) <=? MAXYEAR)) eqn:E3;
    [|eexists; reflexivity].
  exfalso. apply H. apply (year_in_range t 0).
  apply orb_false_iff in E2. destruct E2 as [E2 E2'].
  apply Z.ltb_ge in E2. apply Z.leb_gt in E2'.
  apply andb_prop in E3. destruct E3 as [E3 E3'].
  apply Z.leb_le in E3. apply Z.leb_le in E3'.
  unfold MINYEAR, MAXYEAR, c_int in *.
  replace (year (of_epoch t 0) - 1900 + 1900) with (year (of_epoch t 0)) in * by lia.
  Z.div_mod_to_equations. lia.
Qed.

End DatetimeFacts.

(** ** Expiry of a token *)

Module ExpiryFacts.
Import Datetime DatetimeFacts Utils OAuth.

(** The two tests of [_compare_timestamp_with_current] leave no case: the
    end of the body is never reached. *)
Lemma compare_never_falls_through now_us timestamp :
  _compare_timestamp_with_current now_us timestamp <> ok None.
Proof.
  unfold _compare_timestamp_with_current, _decode_timestamp.
  destruct (utcfromtimestamp timestamp) as [e | dt]; cbn [rbind ok]; [discriminate|].
  rewrite str_geb_ltb.
  destruct (str_ltb _ _); cbn [negb]; discriminate.
Qed.

Lemma compare_returns_bool now_us t :
  MIN_TIMESTAMP <= t <= MAX_TIMESTAMP ->
  exists b, _compare_timestamp_with_current now_us (PInt t) = ok (Some b).
Proof.
  intros H. unfold _compare_timestamp_with_current, _decode_timestamp.
  cbn [utcfromtimestamp]. rewrite from_seconds_in_range by assumption.
  cbn [rbind ok]. rewrite str_geb_ltb.
  destruct (str_ltb _ _); cbn [negb]; eauto.
Qed.

Lemma compare_four_digit_years now_us t :
  YEAR_1000 <= t <= MAX_TIMESTAMP ->
  YEAR_1000 <= now_us / 1000000 <= MAX_TIMESTAMP ->
  _compare_timestamp_with_current now_us (PInt t) = ok (Some (t <? now_us / 1000000)).
Proof.
  intros Ht Hn. unfold _compare_timestamp_with_current, _decode_timestamp.
  cbn [utcfromtimestamp].
  rewrite from_seconds_in_range by (unfold YEAR_1000, MIN_TIMESTAMP in *; lia).
  cbn [rbind ok]. rewrite str_geb_ltb. unfold utcnow.
  rewrite strftime_of_epoch_ltb by assumption.
  destruct (t <? now_us / 1000000); reflexivity.
Qed.

Lemma compare_out_of_range now_us t :
  - 10 ^ 16 <= t <= 10 ^ 16 ->
  ~ (MIN_TIMESTAMP <= t <= MAX_TIMESTAMP) ->
  _compare_timestamp_with_current now_us (PInt t)
  = raise (ValueError ("year " ++ int_text (year (of_epoch t 0)) ++ " is out of range")).
Proof.
  intros Hb H. unfold _compare_timestamp_with_current, _decode_timestamp.
  cbn [utcfromtimestamp]. now rewrite from_seconds_out_of_range.
Qed.

End ExpiryFacts.

(** ** Tokens: base64, UTF-8 and JSON *)

Module TokenFacts.
Import Issuer Json Base64.

(** *** Strings of JSON *)

Ltac n_arith := zify; Z.to_euclidean_division_equations; lia.

Lemma byte_of_code b n : n = N_of_ascii b -> ascii_of_N n = b.
Proof. intros ->. apply ascii_N_embedding. Qed.

Lemma hex_digit_val n : (n < 16)%N -> hex_val (Urllib.hex_digit n) = Some n.
Proof.
  intros H.
  assert (A : forallb (fun n => match hex_val (Urllib.hex_digit n) with
                              | Some m => (m =? n)%N | None => false end)
                (map N.of_nat (seq 0 16)) = true) by (vm_compute; reflexivity).
  rewrite forallb_forall in A. specialize (A n).
  assert (Hin : In n (map N.of_nat (seq 0 16))).
  { apply in_map_iff. exists (N.to_nat n). split; [lia|]. apply in_seq. lia. }
  specialize (A Hin). destruct (hex_val _) as [m|]; [|discriminate].
  apply N.eqb_eq in A. now subst.
Qed.

Lemma scanstring_dumps s rest :
  scanstring (dumps_chars s ++ String (ascii_of_N 34) rest) = ok (s, rest).
Proof.
  induction s as [|c s IH]; [reflexivity|].
  cbn [dumps_chars]. rewrite str_app_assoc. unfold dumps_char. cbv zeta.
  pose proof (N_ascii_bounded c) as Hc.
  destruct (N.eqb_spec (code c) 34) as [E34 | N34].
  - cbn [append].
    change (scanstring (String "\" (String (ascii_of_N 34) ?x)))
      with (p <- scanstring x ;; ok (String (ascii_of_N 34) (fst p), snd p)).
    rewrite IH. cbn [rbind ok fst snd]. do 2 f_equal.
    f_equal. apply byte_of_code. now rewrite <- E34.
  - destruct (N.eqb_spec (code c) 92) as [E92 | N92].
    + cbn [append].
      change (scanstring (String "\" (String "\" ?x)))
        with (p <- scanstring x ;; ok (String (ascii_of_N 92) (fst p), snd p)).
      rewrite IH. cbn [rbind ok fst snd]. do 2 f_equal.
      f_equal. apply byte_of_code. now rewrite <- E92.
    + destruct (N.ltb_spec (code c) 32) as [L32 | G32].
      * cbn [append scanstring].
        change (code "\" =? 34)%N with false. change (code "\" =? 92)%N with true.
        change (code "u" =? 117)%N with true. cbv beta iota.
        unfold hex4. change (hex_val "0") with (Some 0%N).
        rewrite !hex_digit_val by n_arith.
        replace ((((0 * 16 + 0) * 16 + code c / 16) * 16 + code c mod 16))%N
          with (code c) by n_arith.
        replace ((55296 <=? code c)%N) with false by (symmetry; apply N.leb_gt; lia).
        cbn [andb]. rewrite IH. cbn [rbind ok fst snd].
        unfold Utf8.chr. replace (code c <? 128)%N with true by (symmetry; apply N.ltb_lt; lia).
        cbn [append]. do 3 f_equal. now apply byte_of_code.
      * cbn [append scanstring].
        replace (code c =? 34)%N with false by (symmetry; now apply N.eqb_neq).
        replace (code c =? 92)%N with false by (symmetry; now apply N.eqb_neq).
        replace (code c <? 32)%N with false by (symmetry; now apply N.ltb_ge).
        rewrite IH. reflexivity.
Qed.

(** *** Numbers *)

Fixpoint all_digits (s : string) : bool :=
  match s with
  | EmptyString => true
  | String c rest => is_digit c && all_digits rest
  end.

(** What may follow a value inside a text written by [dumps]: nothing, a
    comma, or a closing bracket or brace. *)
Definition delimited (rest : string) : Prop :=
  match rest with
  | EmptyString => True
  | String c _ => code c = 44%N \/ code c = 93%N \/ code c = 125%N
  end.

Lemma take_digits_app ds rest :
  all_digits ds = true -> delimited rest -> take_digits (ds ++ rest) = (ds, rest).
Proof.
  intros Hd Hr. induction ds as [|c ds IH].
  - destruct rest as [|c r]; [reflexivity|]. simpl in *.
    unfold is_digit. destruct Hr as [E | [E | E]]; rewrite E; reflexivity.
  - simpl in *. apply andb_prop in Hd. destruct Hd as [Hc Hd].
    rewrite Hc, (IH Hd). reflexivity.
Qed.

Lemma digits_value_app acc a b :
  digits_value acc (a ++ b) = digits_value (digits_value acc a) b.
Proof. revert acc. induction a as [|c a IH]; intros acc; simpl; [reflexivity | apply IH]. Qed.

Lemma all_digits_app a b : all_digits (a ++ b) = all_digits a && all_digits b.
Proof. induction a as [|c a IH]; simpl; [reflexivity|]. now rewrite IH, andb_assoc. Qed.

Lemma digit_char_spec n :
  0 <= n < 10 ->
  code (Datetime.digit_char n) = Z.to_N (48 + n) /\ is_digit (Datetime.digit_char n) = true.
Proof.
  intros H. unfold is_digit, code. rewrite DatetimeFacts.digit_char_code.
  rewrite Z.mod_small by lia. split; [reflexivity|].
  apply andb_true_intro. split; apply N.leb_le; lia.
Qed.

Lemma digit_char_mod n : Datetime.digit_char (n mod 10) = Datetime.digit_char n.
Proof. unfold Datetime.digit_char. now rewrite Z.mod_mod by lia. Qed.

(** The digits of a positive number: all digits, the first one not zero,
    and their value is the number. *)
Lemma decimal_spec fuel n :
  0 < n < 2 ^ Z.of_nat fuel ->
  all_digits (decimal fuel n) = true
  /\ digits_value 0 (decimal fuel n) = n
  /\ exists d ds, decimal fuel n = String d ds /\ is_digit d = true /\ code d <> 48%N.
Proof.
  revert n. induction fuel as [|f IH]; intros n Hn.
  - simpl in Hn. lia.
  - rewrite Nat2Z.inj_succ, Z.pow_succ_r in Hn by lia.
    cbn [decimal]. destruct (Z.ltb_spec n 10) as [L | G].
    + destruct (digit_char_spec n ltac:(lia)) as [Hcode Hdig].
      repeat split.
      * simpl. now rewrite Hdig.
      * simpl. rewrite Hcode. lia.
      * exists (Datetime.digit_char n), "". repeat split; [assumption|]. rewrite Hcode. lia.
    + assert (Hq : 0 < n / 10 < 2 ^ Z.of_nat f) by (Z.div_mod_to_equations; lia).
      destruct (IH _ Hq) as (Hall & Hval & d & ds & Heq & Hd & Hnz).
      pose proof (Z.mod_pos_bound n 10 ltac:(lia)) as Hm.
      destruct (digit_char_spec (n mod 10) Hm) as [Hcode Hdig].
      rewrite digit_char_mod in Hcode, Hdig.
      repeat split.
      * rewrite all_digits_app, Hall. simpl. now rewrite Hdig.
      * rewrite digits_value_app, Hval. simpl. rewrite Hcode.
        Z.div_mod_to_equations; lia.
      * exists d, (ds ++ String (Datetime.digit_char n) ""). rewrite Heq. now repeat split.
Qed.

Lemma pos_size_bound p : 0 < Zpos p < 2 ^ Z.of_nat (Pos.size_nat p).
Proof.
  split; [lia|].
  induction p as [p IH | p IH |]; cbn [Pos.size_nat].
  - rewrite Nat2Z.inj_succ, Z.pow_succ_r by lia. lia.
  - rewrite Nat2Z.inj_succ, Z.pow_succ_r by lia. lia.
  - simpl. lia.
Qed.

Lemma delimited_not_digit c rest :
  delimited (String c rest) ->
  is_digit c = false /\ (code c =? 46)%N = false
  /\ (code c =? 101)%N = false /\ (code c =? 69)%N = false.
Proof.
  unfold is_digit. simpl. intros [E | [E | E]]; rewrite E; repeat split; reflexivity.
Qed.

(** A number written as digits whose first is not zero, and followed by a
    delimiter, is read back as the integer of these digits. *)
Lemma match_number_digits d ds rest :
  is_digit d = true -> code d <> 48%N -> all_digits ds = true -> delimited rest ->
  match_number (String d (ds ++ rest))
  = Some (PInt (digits_value 0 (String d ds)), rest)
  /\ match_number (String "-" (String d (ds ++ rest)))
     = Some (PInt (- digits_value 0 (String d ds)), rest).
Proof.
  intros Hd Hnz Hds Hrest.
  assert (Hminus : (code d =? 45)%N = false).
  { unfold is_digit in Hd. apply andb_prop in Hd. destruct Hd as [H1 H2].
    apply N.leb_le in H1. apply N.eqb_neq. lia. }
  assert (H48 : (code d =? 48)%N = false) by (now apply N.eqb_neq).
  unfold match_number.
  change (code "-" =? 45)%N with true. rewrite Hminus. cbv beta iota.
  rewrite Hd, H48. rewrite (take_digits_app ds rest Hds Hrest). cbn [fst snd].
  destruct rest as [|c rest]; [split; reflexivity|].
  destruct (delimited_not_digit c rest Hrest) as (_ & H46 & H101 & H69).
  destruct rest as [|c' rest]; rewrite ?H46; cbn [andb]; rewrite H101, H69;
    cbn [andb orb is_empty]; split; reflexivity.
Qed.

Lemma match_number_zero rest :
  delimited rest -> match_number (String "0" rest) = Some (PInt 0, rest).
Proof.
  intros Hrest. unfold match_number.
  change (code "0" =? 45)%N with false. cbv beta iota.
  change (is_digit "0") with true. change (code "0" =? 48)%N with true. cbv beta iota.
  destruct rest as [|c rest]; [reflexivity|].
  destruct (delimited_not_digit c rest Hrest) as (_ & H46 & H101 & H69).
  destruct rest as [|c' rest]; rewrite ?H46; cbn [andb]; rewrite H101, H69;
    cbn [andb orb is_empty]; reflexivity.
Qed.

Lemma match_number_dumps_int z rest :
  delimited rest -> match_number (dumps_int z ++ rest) = Some (PInt z, rest).
Proof.
  intros Hrest. destruct z as [|p|p]; cbn [dumps_int].
  - now apply match_number_zero.
  - destruct (decimal_spec _ _ (pos_size_bound p)) as (Hall & Hval & d & ds & Heq & Hd & Hnz).
    rewrite Heq in *. cbn [append]. cbn [all_digits] in Hall.
    apply andb_prop in Hall. destruct Hall as [_ Hall].
    rewrite (proj1 (match_number_digits d ds rest Hd Hnz Hall Hrest)).
    now rewrite Hval.
  - destruct (decimal_spec _ _ (pos_size_bound p)) as (Hall & Hval & d & ds & Heq & Hd & Hnz).
    rewrite Heq in *. cbn [append]. cbn [all_digits] in Hall.
    apply andb_prop in Hall. destruct Hall as [_ Hall].
    rewrite (proj2 (match_number_digits d ds rest Hd Hnz Hall Hrest)).
    now rewrite Hval.
Qed.

(** *** Values *)

Lemma ascii_eqb_code a c : code a <> code c -> Ascii.eqb a c = false.
Proof. intros H. apply Ascii.eqb_neq. intros ->. now apply H. Qed.

Lemma digit_code c : is_digit c = true -> (48 <= code c <= 57)%N.
Proof.
  unfold is_digit. intros H. apply andb_prop in H. destruct H as [H1 H2].
  apply N.leb_le in H1. apply N.leb_le in H2. lia.
Qed.

(** The first character of a number decides that it is a number. *)
Lemma scan_once_number f c r :
  is_digit c = true
  \/ (code c = 45%N /\ exists d r', r = String d r' /\ is_digit d = true) ->
  scan_once (S f) (String c r)
  = match match_number (String c r) with
    | Some p => ok p
    | None => raise expecting_value
    end.
Proof.
  intros H. cbn [scan_once].
  assert (Hc : (48 <= code c <= 57)%N \/ code c = 45%N).
  { destruct H as [H | [H _]]; [left; now apply digit_code | now right]. }
  replace (code c =? 34)%N with false by (symmetry; apply N.eqb_neq; lia).
  replace (code c =? 123)%N with false by (symmetry; apply N.eqb_neq; lia).
  replace (code c =? 91)%N with false by (symmetry; apply N.eqb_neq; lia).
  cbn [strip_prefix].
  rewrite !ascii_eqb_code by (cbn; lia).
  destruct H as [H | (E & d & r' & -> & Hd)].
  - rewrite ascii_eqb_code by (apply digit_code in H; cbn; lia). reflexivity.
  - replace (Ascii.eqb "-" c) with true
      by (symmetry; apply Ascii.eqb_eq; rewrite <- (ascii_N_embedding c);
          unfold code in E; now rewrite E).
    rewrite ascii_eqb_code by (apply digit_code in Hd; cbn; lia). reflexivity.
Qed.

Lemma dumps_int_first z :
  exists c r, dumps_int z = String c r
    /\ (is_digit c = true
        \/ (code c = 45%N /\ exists d r', r = String d r' /\ is_digit d = true)).
Proof.
  destruct z as [|p|p]; cbn [dumps_int].
  - exists "0"%char, "". split; [reflexivity | now left].
  - destruct (decimal_spec _ _ (pos_size_bound p)) as (_ & _ & d & ds & Heq & Hd & _).
    exists d, ds. split; [assumption | now left].
  - destruct (decimal_spec _ _ (pos_size_bound p)) as (_ & _ & d & ds & Heq & Hd & _).
    exists "-"%char, (String d ds). rewrite Heq. split; [reflexivity|].
    right. split; [reflexivity|]. now exists d, ds.
Qed.

Lemma scan_once_int f z rest :
  delimited rest -> scan_once (S f) (dumps_int z ++ rest) = ok (PInt z, rest).
Proof.
  intros Hrest. pose proof (match_number_dumps_int z rest Hrest) as Hm.
  destruct (dumps_int_first z) as (c & r & Heq & Hc).
  rewrite Heq in *. cbn [append] in *.
  rewrite scan_once_number, Hm; [reflexivity|].
  destruct Hc as [Hc | (E & d & r' & -> & Hd)]; [now left|].
  right. split; [assumption|]. now exists d, (r' ++ rest).
Qed.

Section PyvalInduction.

Variable P : pyval -> Prop.
Hypothesis HNone : P PNone.
Hypothesis HBool : forall b, P (PBool b).
Hypothesis HInt : forall z, P (PInt z).
Hypothesis HFloat : forall l, P (PFloat l).
Hypothesis HStr : forall s, P (PStr s).
Hypothesis HList : forall items, Forall P items -> P (PList items).
Hypothesis HDict : forall items, Forall (fun kv => P (snd kv)) items -> P (PDict items).

Fixpoint pyval_nested_ind (v : pyval) : P v :=
  match v with
  | PNone => HNone
  | PBool b => HBool b
  | PInt z => HInt z
  | PFloat l => HFloat l
  | PStr s => HStr s
  | PList items =>
      HList items
        ((fix go (l : list pyval) : Forall P l :=
            match l with
            | [] => Forall_nil P
            | x :: l' => Forall_cons x (pyval_nested_ind x) (go l')
            end) items)
  | PDict items =>
      HDict items
        ((fix go (l : list (string * pyval)) : Forall (fun kv => P (snd kv)) l :=
            match l with
            | [] => Forall_nil _
            | (k, x) :: l' =>
                Forall_cons (P := fun kv => P (snd kv)) (k, x) (pyval_nested_ind x) (go l')
            end) items)
  end.

End PyvalInduction.

(** The fuel [scan_once] needs for the text of a value. *)
Fixpoint need (v : pyval) : nat :=
  match v with
  | PList items => S (fold_right (fun x acc => S (need x) + acc)%nat O items)
  | PDict items => S (fold_right (fun kv acc => S (need (snd kv)) + acc)%nat O items)
  | _ => 1
  end.

(** A text that starts a value: its first character is no white space and
    closes nothing. *)
Definition starts_value (s : string) : Prop :=
  match s with
  | EmptyString => False
  | String c _ => is_ws c = false /\ code c <> 93%N /\ code c <> 125%N
  end.

Lemma starts_value_skip_ws s : starts_value s -> skip_ws s = s.
Proof. destruct s as [|c s]; [contradiction|]. intros (H & _). simpl. now rewrite H. Qed.

Lemma dumps_starts_value v rest :
  claims_value v = true -> starts_value (dumps v ++ rest).
Proof.
  intros H. destruct v as [| [|] | z | l | s | items | items]; try discriminate;
    try (cbn; repeat split; (reflexivity || discriminate)).
  cbn [dumps]. destruct (dumps_int_first z) as (c & r & -> & Hc). cbn [append starts_value].
  assert (Hcode : (48 <= code c <= 57)%N \/ code c = 45%N).
  { destruct Hc as [Hc | [Hc _]]; [left; now apply digit_code | now right]. }
  unfold is_ws. repeat split; try lia.
  repeat (apply orb_false_intro); apply N.eqb_neq; lia.
Qed.

Lemma delimited_skip_ws rest : delimited rest -> skip_ws rest = rest.
Proof.
  destruct rest as [|c rest]; [reflexivity|]. simpl. unfold is_ws.
  intros [E | [E | E]]; rewrite E; reflexivity.
Qed.

(** *** Objects with different keys *)

Lemma unique_keys_NoDup keys : unique_keys keys = true -> NoDup keys.
Proof.
  induction keys as [|k keys IH]; intros H; [constructor|].
  cbn [unique_keys] in H. apply andb_prop in H. destruct H as [Hk Hrest].
  constructor; [| now apply IH].
  intros Hin. apply negb_true_iff in Hk.
  assert (existsb (String.eqb k) keys = true); [| congruence].
  apply existsb_exists. exists k. split; [assumption | apply String.eqb_refl].
Qed.

Lemma dict_set_new key v items :
  ~ In key (map fst items) -> dict_set key v items = (items ++ [(key, v)])%list.
Proof.
  induction items as [|[k w] items IH]; intros Hin; [reflexivity|].
  cbn [dict_set]. simpl in Hin.
  destruct (String.eqb_spec k key) as [-> | Hne]; [exfalso; apply Hin; now left|].
  rewrite IH by (intros H; apply Hin; now right). reflexivity.
Qed.

Lemma dict_of_pairs_from acc items :
  NoDup (map fst (acc ++ items)%list) ->
  fold_left (fun d kv => dict_set (fst kv) (snd kv) d) items acc = (acc ++ items)%list.
Proof.
  revert acc. induction items as [|[k v] items IH]; intros acc H.
  - now rewrite app_nil_r.
  - cbn [fold_left fst snd].
    rewrite dict_set_new.
    + rewrite IH; rewrite <- app_assoc; [reflexivity | exact H].
    + rewrite map_app in H. cbn [map fst] in H.
      apply NoDup_remove_2 in H. intros Hin. apply H. apply in_or_app. now left.
Qed.

Lemma dict_of_pairs_unique items :
  unique_keys (map fst items) = true -> dict_of_pairs items = items.
Proof.
  intros H. unfold dict_of_pairs. rewrite dict_of_pairs_from; [reflexivity|].
  now apply unique_keys_NoDup.
Qed.

(** The text of the elements of a list, from the first element on, and of
    the members of an object, from the character after the first quote. *)
Fixpoint elems_tail (items : list pyval) (rest : string) : string :=
  match items with
  | [] => ""
  | x :: more =>
      dumps x ++ match more with
                 | [] => "]" ++ rest
                 | _ :: _ => "," ++ elems_tail more rest
                 end
  end.

Fixpoint members_tail (items : list (string * pyval)) (rest : string) : string :=
  match items with
  | [] => ""
  | kv :: more =>
      dumps_chars (fst kv)
      ++ String (ascii_of_N 34)
           (":" ++ dumps (snd kv)
              ++ match more with
                 | [] => "}" ++ rest
                 | _ :: _ => "," ++ String (ascii_of_N 34) (members_tail more rest)
                 end)
  end.

Lemma join_comma_cons p q parts :
  join_comma (p :: q :: parts) = p ++ String "," (join_comma (q :: parts)).
Proof. reflexivity. Qed.

Lemma elems_tail_cons x y more rest :
  elems_tail (x :: y :: more) rest = dumps x ++ String "," (elems_tail (y :: more) rest).
Proof. reflexivity. Qed.

Lemma members_tail_cons kv kv' more rest :
  members_tail (kv :: kv' :: more) rest
  = dumps_chars (fst kv)
    ++ String (ascii_of_N 34)
         (String ":" (dumps (snd kv)
            ++ String "," (String (ascii_of_N 34) (members_tail (kv' :: more) rest)))).
Proof. reflexivity. Qed.

Lemma join_elems x more rest :
  join_comma (map dumps (x :: more)) ++ String "]" rest = elems_tail (x :: more) rest.
Proof.
  revert x. induction more as [|y more IH]; intros x; [reflexivity|].
  change (map dumps (x :: y :: more)) with (dumps x :: dumps y :: map dumps more).
  rewrite join_comma_cons, elems_tail_cons, str_app_assoc.
  change (String "," ?a ++ ?b) with (String "," (a ++ b)).
  f_equal. f_equal. apply IH.
Qed.

Lemma join_members kv more rest :
  join_comma (map (fun kv => dumps_string (fst kv) ++ ":" ++ dumps (snd kv)) (kv :: more))
    ++ String "}" rest
  = String (ascii_of_N 34) (members_tail (kv :: more) rest).
Proof.
  revert kv. induction more as [|kv' more IH]; intros kv.
  - cbn [map join_comma members_tail]. unfold dumps_string. cbn [append].
    now rewrite !str_app_assoc.
  - set (f := fun kv => dumps_string (fst kv) ++ ":" ++ dumps (snd kv)) in *.
    change (map f (kv :: kv' :: more)) with (f kv :: f kv' :: map f more).
    rewrite join_comma_cons, members_tail_cons, str_app_assoc.
    change (String "," ?a ++ ?b) with (String "," (a ++ b)).
    change (f kv' :: map f more) with (map f (kv' :: more)).
    rewrite IH. subst f. cbv beta. unfold dumps_string. cbn [append].
    now rewrite !str_app_assoc.
Qed.

(** A value is read back from its text, whatever delimiter follows. *)
Definition reads_back (v : pyval) : Prop :=
  claims_value v = true ->
  forall fuel rest, (need v <= fuel)%nat -> delimited rest ->
  scan_once fuel (dumps v ++ rest) = ok (v, rest).

Definition elems_need (items : list pyval) : nat :=
  fold_right (fun x acc => S (need x) + acc)%nat O items.

Definition members_need (items : list (string * pyval)) : nat :=
  fold_right (fun kv acc => S (need (snd kv)) + acc)%nat O items.

Lemma elems_tail_starts y more rest :
  claims_value y = true -> starts_value (elems_tail (y :: more) rest).
Proof. intros H. cbn [elems_tail]. now apply dumps_starts_value. Qed.

Lemma parse_elements_tail items :
  items <> [] -> Forall reads_back items -> forallb claims_value items = true ->
  forall fuel rest, (elems_need items <= fuel)%nat ->
  parse_elements fuel (elems_tail items rest) = ok (items, rest).
Proof.
  induction items as [|x more IH]; intros Hne Hall Hwf fuel rest Hfuel; [contradiction|].
  inversion Hall as [|? ? Hx Hmore]; subst.
  cbn [forallb] in Hwf. apply andb_prop in Hwf. destruct Hwf as [Hwx Hwmore].
  cbn [elems_need fold_right] in Hfuel. fold (elems_need more) in Hfuel.
  destruct fuel as [|f]; [lia|]. cbn [parse_elements].
  destruct more as [|y more].
  - change (elems_tail [x] rest) with (dumps x ++ String "]" rest).
    rewrite (Hx Hwx f (String "]" rest)) by (simpl; (lia || auto)).
    reflexivity.
  - rewrite elems_tail_cons.
    rewrite (Hx Hwx f (String "," (elems_tail (y :: more) rest))) by (simpl; (lia || auto)).
    cbn [rbind ok fst snd].
    change (skip_ws (String "," ?t)) with (String "," t). cbv beta iota.
    change (code "," =? 93)%N with false. change (code "," =? 44)%N with true.
    cbv beta iota.
    assert (Hwy : claims_value y = true)
      by (cbn [forallb] in Hwmore; now apply andb_prop in Hwmore).
    rewrite (starts_value_skip_ws _ (elems_tail_starts y more rest Hwy)).
    rewrite (IH ltac:(discriminate) Hmore Hwmore f rest) by lia.
    reflexivity.
Qed.

Lemma members_tail_one kv rest :
  members_tail [kv] rest
  = dumps_chars (fst kv)
    ++ String (ascii_of_N 34) (String ":" (dumps (snd kv) ++ String "}" rest)).
Proof. reflexivity. Qed.

Lemma parse_members_tail items :
  items <> [] -> Forall (fun kv => reads_back (snd kv)) items ->
  forallb (fun kv => claims_value (snd kv)) items = true ->
  forall fuel rest, (members_need items <= fuel)%nat ->
  parse_members fuel (members_tail items rest) = ok (items, rest).
Proof.
  induction items as [|[k x] more IH]; intros Hne Hall Hwf fuel rest Hfuel; [contradiction|].
  inversion Hall as [|? ? Hx Hmore]; subst. cbn [snd] in Hx.
  cbn [forallb snd] in Hwf. apply andb_prop in Hwf. destruct Hwf as [Hwx Hwmore].
  cbn [members_need fold_right snd] in Hfuel. fold (members_need more) in Hfuel.
  destruct fuel as [|f]; [lia|]. cbn [parse_members].
  destruct more as [|kv' more].
  - rewrite members_tail_one. cbn [fst snd].
    rewrite scanstring_dumps. cbn [rbind ok fst snd].
    change (skip_ws (String ":" ?t)) with (String ":" t). cbv beta iota.
    change (code ":" =? 58)%N with true. cbv beta iota.
    rewrite (starts_value_skip_ws _ (dumps_starts_value x _ Hwx)).
    rewrite (Hx Hwx f (String "}" rest)) by (simpl; (lia || auto)).
    reflexivity.
  - rewrite members_tail_cons. cbn [fst snd].
    rewrite scanstring_dumps. cbn [rbind ok fst snd].
    change (skip_ws (String ":" ?t)) with (String ":" t). cbv beta iota.
    change (code ":" =? 58)%N with true. cbv beta iota.
    rewrite (starts_value_skip_ws _ (dumps_starts_value x _ Hwx)).
    rewrite (Hx Hwx f (String "," _)) by (simpl; (lia || auto)).
    cbn [rbind ok fst snd].
    change (skip_ws (String "," ?t)) with (String "," t). cbv beta iota.
    change (code "," =? 125)%N with false. change (code "," =? 44)%N with true.
    cbv beta iota.
    change (skip_ws (String (ascii_of_N 34) ?t)) with (String (ascii_of_N 34) t).
    cbv beta iota.
    change (code (ascii_of_N 34) =? 34)%N with true. cbv beta iota.
    rewrite (IH ltac:(discriminate) Hmore Hwmore f rest) by lia.
    reflexivity.
Qed.

Lemma forallb_members items :
  forallb (fun kv => Utf8.valid (fst kv) && claims_value (snd kv)) items = true ->
  forallb (fun kv => claims_value (snd kv)) items = true.
Proof.
  induction items as [|kv items IH]; [reflexivity|]. cbn [forallb].
  intros H. apply andb_prop in H. destruct H as [H1 H2].
  apply andb_prop in H1. destruct H1 as [_ H1]. now rewrite H1, IH.
Qed.

Theorem scan_once_dumps v : reads_back v.
Proof.
  induction v as [| b | z | l | s | items IH | items IH] using pyval_nested_ind;
    intros Hwf fuel rest Hfuel Hrest;
    (destruct fuel as [|f]; [cbn [need] in Hfuel; lia|]).
  - reflexivity.
  - destruct b; reflexivity.
  - now apply scan_once_int.
  - discriminate.
  - cbn [dumps]. unfold dumps_string. cbn [append scan_once].
    change (code (ascii_of_N 34) =? 34)%N with true. cbv beta iota.
    rewrite str_app_assoc. cbn [append].
    rewrite scanstring_dumps. reflexivity.
  - cbn [claims_value] in Hwf. cbn [need] in Hfuel. fold (elems_need items) in Hfuel.
    cbn [dumps]. cbn [append scan_once]. rewrite str_app_assoc. cbn [append].
    change (code "[" =? 34)%N with false. change (code "[" =? 123)%N with false.
    change (code "[" =? 91)%N with true. cbv beta iota.
    destruct items as [|x more]; [reflexivity|].
    rewrite join_elems.
    assert (Hwx : claims_value x = true)
      by (cbn [forallb] in Hwf; now apply andb_prop in Hwf).
    pose proof (elems_tail_starts x more rest Hwx) as Hs.
    rewrite (starts_value_skip_ws _ Hs).
    destruct (elems_tail (x :: more) rest) as [|c' r'] eqn:E; [contradiction|].
    destruct Hs as (_ & H93 & _).
    replace (code c' =? 93)%N with false by (symmetry; now apply N.eqb_neq).
    rewrite <- E.
    rewrite (parse_elements_tail (x :: more) ltac:(discriminate) IH Hwf f rest) by lia.
    reflexivity.
  - cbn [claims_value] in Hwf. apply andb_prop in Hwf. destruct Hwf as [Hwf Huniq].
    cbn [need] in Hfuel. fold (members_need items) in Hfuel.
    cbn [dumps]. cbn [append scan_once]. rewrite str_app_assoc. cbn [append].
    change (code "{" =? 34)%N with false. change (code "{" =? 123)%N with true.
    cbv beta iota.
    destruct items as [|kv more]; [reflexivity|].
    rewrite join_members.
    change (skip_ws (String (ascii_of_N 34) ?t)) with (String (ascii_of_N 34) t).
    cbv beta iota.
    change (code (ascii_of_N 34) =? 125)%N with false.
    change (code (ascii_of_N 34) =? 34)%N with true. cbv beta iota.
    rewrite (parse_members_tail (kv :: more) ltac:(discriminate) IH
               (forallb_members _ Hwf) f rest) by lia.
    cbn [rbind ok fst snd]. now rewrite dict_of_pairs_unique.
Qed.

(** *** The text of a value as a whole *)

Lemma need_atom_le v :
  claims_value v = true -> (need v <= String.length (dumps v))%nat.
Proof.
  induction v as [| b | z | l | s | items IH | items IH] using pyval_nested_ind; intros Hwf.
  - cbn. lia.
  - destruct b; cbn; lia.
  - cbn [need dumps]. destruct (dumps_int_first z) as (c & r & -> & _). cbn. lia.
  - discriminate.
  - cbn [need dumps]. unfold dumps_string. cbn. lia.
  - cbn [need dumps]. cbn [claims_value] in Hwf. fold (elems_need items).
    rewrite !str_length_app. cbn [String.length].
    assert (elems_need items <= String.length (join_comma (map dumps items)) + 1)%nat; [|lia].
    induction items as [|x more IHm]; [cbn; lia|].
    inversion IH as [|? ? Hx Hmore]; subst.
    cbn [forallb] in Hwf. apply andb_prop in Hwf. destruct Hwf as [Hwx Hwmore].
    specialize (IHm Hmore Hwmore). specialize (Hx Hwx).
    cbn [elems_need fold_right]. fold (elems_need more).
    destruct more as [|y more].
    + cbn [map join_comma elems_need fold_right]. lia.
    + change (map dumps (x :: y :: more)) with (dumps x :: dumps y :: map dumps more).
      rewrite join_comma_cons, str_length_app. cbn [String.length].
      change (dumps y :: map dumps more) with (map dumps (y :: more)). lia.
  - cbn [need dumps]. cbn [claims_value] in Hwf. apply andb_prop in Hwf.
    destruct Hwf as [Hwf _]. apply forallb_members in Hwf. fold (members_need items).
    rewrite !str_length_app. cbn [String.length].
    set (f := fun kv : string * pyval => dumps_string (fst kv) ++ ":" ++ dumps (snd kv)).
    assert (members_need items <= String.length (join_comma (map f items)) + 1)%nat; [|lia].
    induction items as [|kv more IHm]; [cbn; lia|].
    inversion IH as [|? ? Hx Hmore]; subst.
    cbn [forallb] in Hwf. apply andb_prop in Hwf. destruct Hwf as [Hwx Hwmore].
    specialize (IHm Hmore Hwmore). specialize (Hx Hwx).
    cbn [members_need fold_right]. fold (members_need more).
    assert (Hkv : (need (snd kv) <= String.length (f kv))%nat)
      by (unfold f; rewrite !str_length_app; lia).
    destruct more as [|kv' more].
    + cbn [map join_comma members_need fold_right]. lia.
    + change (map f (kv :: kv' :: more)) with (f kv :: f kv' :: map f more).
      rewrite join_comma_cons, str_length_app. cbn [String.length].
      change (f kv' :: map f more) with (map f (kv' :: more)). lia.
Qed.

Lemma dumps_first v :
  claims_value v = true ->
  exists c r, dumps v = String c r /\ is_ws c = false /\ (code c < 128)%N.
Proof.
  intros H. destruct v as [| [|] | z | l | s | items | items]; try discriminate;
    try (eexists; eexists; cbn; repeat split; reflexivity).
  cbn [dumps]. destruct (dumps_int_first z) as (c & r & -> & Hc). exists c, r.
  assert (Hcode : (48 <= code c <= 57)%N \/ code c = 45%N).
  { destruct Hc as [Hc | [Hc _]]; [left; now apply digit_code | now right]. }
  unfold is_ws. repeat split; try lia.
  repeat (apply orb_false_intro); apply N.eqb_neq; lia.
Qed.

(** The parser of the model reads back what [dumps] wrote (the limits of
    the interpreter on the nesting of a text and on the digits of an [int]
    are not modelled). *)
Theorem loads_dumps v : claims_value v = true -> loads (dumps v) = ok v.
Proof.
  intros Hwf. unfold loads.
  destruct (dumps_first v Hwf) as (c & r & Heq & Hws & Hascii).
  pose proof (need_atom_le v Hwf) as Hneed.
  pose proof (scan_once_dumps v Hwf (S (2 * String.length (dumps v))) "" ltac:(lia) I) as Hscan.
  rewrite str_app_nil_r in Hscan.
  rewrite Heq in *. cbn [strip_prefix].
  rewrite ascii_eqb_code by (cbn; lia).
  cbn [skip_ws]. rewrite Hws, Hscan. reflexivity.
Qed.

(** *** UTF-8 *)

Lemma is_ascii_app a b :
  Base64.is_ascii_str (a ++ b) = Base64.is_ascii_str a && Base64.is_ascii_str b.
Proof. induction a as [|c a IH]; simpl; [reflexivity|]. now rewrite IH, andb_assoc. Qed.

Lemma valid_ascii_app a t :
  Base64.is_ascii_str a = true -> Utf8.valid (a ++ t) = Utf8.valid t.
Proof.
  induction a as [|c a IH]; intros H; [reflexivity|].
  cbn [Base64.is_ascii_str] in H. apply andb_prop in H. destruct H as [Hc Ha].
  cbn [append Utf8.valid]. rewrite Hc. now apply IH.
Qed.

Lemma hex_digit_ascii n : (N_of_ascii (Urllib.hex_digit n) <? 128)%N = true.
Proof.
  unfold Urllib.hex_digit.
  repeat match goal with
         | |- context [match ?x with _ => _ end] => destruct x
         end; reflexivity.
Qed.

Lemma dumps_char_ascii c :
  (code c < 128)%N -> Base64.is_ascii_str (dumps_char c) = true.
Proof.
  intros H. unfold dumps_char. cbv zeta.
  destruct (code c =? 34)%N; [reflexivity|].
  destruct (code c =? 92)%N; [reflexivity|].
  destruct (code c <? 32)%N.
  - cbn [append Base64.is_ascii_str]. rewrite !hex_digit_ascii. reflexivity.
  - cbn [Base64.is_ascii_str]. unfold code in H.
    replace (N_of_ascii c <? 128)%N with true by (symmetry; now apply N.ltb_lt).
    reflexivity.
Qed.

Lemma dumps_char_high c : (128 <= code c)%N -> dumps_char c = String c "".
Proof.
  intros H. unfold dumps_char. cbv zeta.
  replace (code c =? 34)%N with false by (symmetry; apply N.eqb_neq; lia).
  replace (code c =? 92)%N with false by (symmetry; apply N.eqb_neq; lia).
  replace (code c <? 32)%N with false by (symmetry; apply N.ltb_ge; lia).
  reflexivity.
Qed.

Lemma between_high lo hi c :
  (128 <= lo)%N -> Utf8.between lo hi c = true -> (128 <= code c)%N.
Proof.
  unfold Utf8.between, code. intros Hlo H. apply andb_prop in H. destruct H as [H _].
  apply N.leb_le in H. lia.
Qed.

Lemma cont_high c : Utf8.cont c = true -> (128 <= code c)%N.
Proof.
  unfold Utf8.cont, code. intros H. apply andb_prop in H. destruct H as [H _].
  now apply N.leb_le in H.
Qed.

Lemma second_byte_high n0 b1 :
  (if (n0 =? 224)%N then Utf8.between 160 191 b1
   else if (n0 =? 237)%N then Utf8.between 128 159 b1 else Utf8.cont b1) = true ->
  (128 <= code b1)%N.
Proof.
  destruct (n0 =? 224)%N; [apply between_high; lia|].
  destruct (n0 =? 237)%N; [apply between_high; lia | apply cont_high].
Qed.

Lemma second_byte_high4 n0 b1 :
  (if (n0 =? 240)%N then Utf8.between 144 191 b1
   else if (n0 =? 244)%N then Utf8.between 128 143 b1 else Utf8.cont b1) = true ->
  (128 <= code b1)%N.
Proof.
  destruct (n0 =? 240)%N; [apply between_high; lia|].
  destruct (n0 =? 244)%N; [apply between_high; lia | apply cont_high].
Qed.

(** Escaping keeps a text well-formed: only ASCII characters are escaped. *)
Lemma valid_dumps_chars s t :
  Utf8.valid s = true -> Utf8.valid (dumps_chars s ++ t) = Utf8.valid t.
Proof.
  assert (H : forall n s, (String.length s < n)%nat ->
            Utf8.valid s = true -> Utf8.valid (dumps_chars s ++ t) = Utf8.valid t);
    [| apply (H (S (String.length s))); lia].
  clear s. induction n as [|n IH]; intros s Hlen Hv; [lia|].
  destruct s as [|b0 r0]; [reflexivity|].
  cbn [dumps_chars]. rewrite str_app_assoc.
  cbn [Utf8.valid] in Hv. cbn [String.length] in Hlen.
  destruct (N_of_ascii b0 <? 128)%N eqn:E0.
  - rewrite valid_ascii_app by (apply dumps_char_ascii; apply N.ltb_lt in E0; exact E0).
    apply IH; [lia | assumption].
  - assert (H0 : (128 <= code b0)%N) by (apply N.ltb_ge in E0; exact E0).
    rewrite (dumps_char_high b0 H0).
    destruct r0 as [|b1 r1]; [discriminate|]. cbn [String.length] in Hlen.
    destruct (Utf8.between 194 223 b0) eqn:E2.
    + apply andb_prop in Hv. destruct Hv as [Hc1 Hv].
      cbn [dumps_chars]. rewrite (dumps_char_high b1 (cont_high _ Hc1)).
      cbn [append Utf8.valid]. rewrite E0, E2, Hc1. cbn [andb].
      apply IH; [lia | assumption].
    + destruct r1 as [|b2 r2]; [discriminate|]. cbn [String.length] in Hlen.
      destruct (Utf8.between 224 239 b0) eqn:E3.
      * apply andb_prop in Hv. destruct Hv as [Hv Hv2].
        apply andb_prop in Hv. destruct Hv as [Hb1 Hc2].
        cbn [dumps_chars].
        rewrite (dumps_char_high b1 (second_byte_high _ _ Hb1)).
        rewrite (dumps_char_high b2 (cont_high _ Hc2)).
        cbn [append Utf8.valid]. rewrite E0, E2, E3, Hb1, Hc2. cbn [andb].
        apply IH; [lia | assumption].
      * destruct r2 as [|b3 r3]; [discriminate|]. cbn [String.length] in Hlen.
        apply andb_prop in Hv. destruct Hv as [Hv Hv3].
        apply andb_prop in Hv. destruct Hv as [Hv Hc3].
        apply andb_prop in Hv. destruct Hv as [Hv Hc2].
        apply andb_prop in Hv. destruct Hv as [Hb0 Hb1].
        cbn [dumps_chars].
        rewrite (dumps_char_high b1 (second_byte_high4 _ _ Hb1)).
        rewrite (dumps_char_high b2 (cont_high _ Hc2)).
        rewrite (dumps_char_high b3 (cont_high _ Hc3)).
        cbn [append Utf8.valid]. rewrite E0, E2, E3, Hb0, Hb1, Hc2, Hc3. cbn [andb].
        apply IH; [lia | assumption].
Qed.

Lemma all_digits_ascii s : all_digits s = true -> Base64.is_ascii_str s = true.
Proof.
  induction s as [|c s IH]; [reflexivity|]. cbn [all_digits Base64.is_ascii_str].
  intros H. apply andb_prop in H. destruct H as [Hc Hs].
  apply digit_code in Hc. unfold code in Hc.
  replace (N_of_ascii c <? 128)%N with true by (symmetry; apply N.ltb_lt; lia).
  now apply IH.
Qed.

Lemma dumps_int_ascii z : Base64.is_ascii_str (dumps_int z) = true.
Proof.
  destruct z as [|p|p]; cbn [dumps_int]; [reflexivity| |];
    destruct (decimal_spec _ _ (pos_size_bound p)) as (Hall & _).
  - now apply all_digits_ascii.
  - cbn [append Base64.is_ascii_str]. now apply all_digits_ascii.
Qed.

Lemma valid_dumps_string s t :
  Utf8.valid s = true -> Utf8.valid (dumps_string s ++ t) = Utf8.valid t.
Proof.
  intros H. unfold dumps_string. cbn [append]. rewrite str_app_assoc.
  change (Utf8.valid (String (ascii_of_N 34) ?x)) with (Utf8.valid x).
  now rewrite valid_dumps_chars.
Qed.

(** The text of a value is well-formed UTF-8. *)
Lemma valid_dumps v :
  claims_value v = true -> forall t, Utf8.valid (dumps v ++ t) = Utf8.valid t.
Proof.
  induction v as [| b | z | l | s | items IH | items IH] using pyval_nested_ind;
    intros Hwf t.
  - reflexivity.
  - destruct b; reflexivity.
  - cbn [dumps]. apply valid_ascii_app, dumps_int_ascii.
  - discriminate.
  - cbn [dumps]. now apply valid_dumps_string.
  - cbn [dumps]. cbn [claims_value] in Hwf. rewrite !str_app_assoc.
    change (Utf8.valid ("[" ++ ?x)) with (Utf8.valid x).
    assert (H : forall u, Utf8.valid (join_comma (map dumps items) ++ u) = Utf8.valid u);
      [| now rewrite H].
    induction items as [|x more IHm]; intros u; [reflexivity|].
    inversion IH as [|? ? Hx Hmore]; subst.
    cbn [forallb] in Hwf. apply andb_prop in Hwf. destruct Hwf as [Hwx Hwmore].
    destruct more as [|y more]; [cbn [map join_comma]; now apply Hx|].
    change (map dumps (x :: y :: more)) with (dumps x :: dumps y :: map dumps more).
    rewrite join_comma_cons, str_app_assoc, (Hx Hwx).
    change (Utf8.valid (String "," ?a ++ ?b)) with (Utf8.valid (a ++ b)).
    now apply IHm.
  - cbn [dumps]. cbn [claims_value] in Hwf. apply andb_prop in Hwf.
    destruct Hwf as [Hwf _]. rewrite !str_app_assoc.
    change (Utf8.valid ("{" ++ ?x)) with (Utf8.valid x).
    set (f := fun kv : string * pyval => dumps_string (fst kv) ++ ":" ++ dumps (snd kv)).
    assert (Hf : forall kv u,
               Utf8.valid (fst kv) && claims_value (snd kv) = true ->
               (claims_value (snd kv) = true ->
                forall t, Utf8.valid (dumps (snd kv) ++ t) = Utf8.valid t) ->
               Utf8.valid (f kv ++ u) = Utf8.valid u).
    { intros kv u Hkv Hread. apply andb_prop in Hkv. destruct Hkv as [Hk Hv].
      unfold f. rewrite str_app_assoc, valid_dumps_string by assumption.
      rewrite str_app_assoc.
      change (Utf8.valid (":" ++ ?x)) with (Utf8.valid x). now apply Hread. }
    assert (H : forall u, Utf8.valid (join_comma (map f items) ++ u) = Utf8.valid u);
      [| now rewrite H].
    induction items as [|kv more IHm]; intros u; [reflexivity|].
    inversion IH as [|? ? Hx Hmore]; subst.
    cbn [forallb] in Hwf. apply andb_prop in Hwf. destruct Hwf as [Hwx Hwmore].
    destruct more as [|kv' more]; [cbn [map join_comma]; now apply Hf|].
    change (map f (kv :: kv' :: more)) with (f kv :: f kv' :: map f more).
    rewrite join_comma_cons, str_app_assoc, (Hf kv _ Hwx Hx).
    change (Utf8.valid (String "," ?a ++ ?b)) with (Utf8.valid (a ++ b)).
    now apply IHm.
Qed.

Lemma decode_dumps v : claims_value v = true -> Utf8.decode (dumps v) = ok (dumps v).
Proof.
  intros H. unfold Utf8.decode.
  rewrite <- (str_app_nil_r (dumps v)) at 1. now rewrite valid_dumps.
Qed.


(** *** Base64 *)

(** Every value below 64 goes through the alphabet and back. *)
Lemma alphabet_all :
  forallb (fun n =>
    let c := urlsafe_alphabet n in
    match table_a2b (urlsafe_char c) with
    | Some m => (m =? n)%N
    | None => false
    end && negb (Ascii.eqb (urlsafe_char c) "=") && (N_of_ascii c <? 128)%N
        && negb (Ascii.eqb c "."))
    (map N.of_nat (seq 0 64)) = true.
Proof. vm_compute. reflexivity. Qed.

Lemma alphabet_spec n :
  (n < 64)%N ->
  table_a2b (urlsafe_char (urlsafe_alphabet n)) = Some n
  /\ Ascii.eqb (urlsafe_char (urlsafe_alphabet n)) "=" = false
  /\ (N_of_ascii (urlsafe_alphabet n) <? 128)%N = true
  /\ Ascii.eqb (urlsafe_alphabet n) "." = false.
Proof.
  intros H. pose proof alphabet_all as A.
  rewrite forallb_forall in A.
  specialize (A n). 
  assert (In n (map N.of_nat (seq 0 64))) as Hin.
  { apply in_map_iff. exists (N.to_nat n). split; [lia|]. apply in_seq. lia. }
  specialize (A Hin). cbv zeta in A.
  destruct (table_a2b _) as [m|]; [|discriminate].
  repeat (apply andb_prop in A; destruct A as [A ?]).
  apply N.eqb_eq in A. subst m.
  repeat split; auto.
  - now apply negb_true_iff.
  - now apply negb_true_iff.
Qed.

Lemma a2b_loop_char q l p n rest :
  (n < 64)%N ->
  a2b_loop q l p (String (urlsafe_char (urlsafe_alphabet n)) rest) =
  (if q =? 0 then a2b_loop 1 n 0 rest
   else if q =? 1 then
     out <- a2b_loop 2 (n mod 16) 0 rest ;;
     ok (String (ascii_of_N ((l * 4 + n / 16) mod 256)) out)
   else if q =? 2 then
     out <- a2b_loop 3 (n mod 4) 0 rest ;;
     ok (String (ascii_of_N ((l * 16 + n / 4) mod 256)) out)
   else
     out <- a2b_loop 0 0 0 rest ;;
     ok (String (ascii_of_N ((l * 64 + n) mod 256)) out))%N.
Proof.
  intros H. destruct (alphabet_spec n H) as (T & E & _ & _).
  cbn [a2b_loop]. rewrite E, T. reflexivity.
Qed.



Lemma translate_app a b :
  translate_urlsafe (a ++ b) = translate_urlsafe a ++ translate_urlsafe b.
Proof. induction a as [|c a IH]; simpl; [reflexivity | now rewrite IH]. Qed.

Lemma a2b_loop_roundtrip pad bytes :
  a2b_loop 0 0 0 (translate_urlsafe (urlsafe_b64encode pad bytes) ++ "==") = ok bytes.
Proof.
  assert (H : forall n bytes, (String.length bytes < n)%nat ->
            a2b_loop 0 0 0 (translate_urlsafe (urlsafe_b64encode pad bytes) ++ "==")
            = ok bytes);
    [| apply (H (S (String.length bytes))); lia].
  induction n as [|n IH]; intros bs Hlen; [lia|].
  destruct bs as [|b1 [|b2 [|b3 rest]]].
  - reflexivity.
  - pose proof (N_ascii_bounded b1) as B1.
    cbn [urlsafe_b64encode translate_urlsafe append].
    rewrite !a2b_loop_char by n_arith.
    cbn [N.eqb Pos.eqb rbind ok].
    replace (a2b_loop 2 _ 0 _) with (@ok string "") by (now destruct pad).
    cbn [rbind ok]. f_equal. f_equal. apply byte_of_code. n_arith.
  - pose proof (N_ascii_bounded b1) as B1. pose proof (N_ascii_bounded b2) as B2.
    cbn [urlsafe_b64encode translate_urlsafe append].
    rewrite !a2b_loop_char by n_arith.
    cbn [N.eqb Pos.eqb rbind ok].
    replace (a2b_loop 3 _ 0 _) with (@ok string "") by (now destruct pad).
    cbn [rbind ok]. f_equal. f_equal; [| f_equal]; apply byte_of_code; n_arith.
  - pose proof (N_ascii_bounded b1) as B1. pose proof (N_ascii_bounded b2) as B2.
    pose proof (N_ascii_bounded b3) as B3.
    cbn [urlsafe_b64encode translate_urlsafe append].
    rewrite !a2b_loop_char by n_arith.
    cbn [N.eqb Pos.eqb rbind ok].
    rewrite IH by (simpl in Hlen; lia).
    cbn [rbind ok]. f_equal.
    f_equal; [| f_equal; [| f_equal]]; apply byte_of_code; n_arith.
Qed.

Lemma encode_chars pad bytes :
  Base64.is_ascii_str (urlsafe_b64encode pad bytes) = true
  /\ no_dot (urlsafe_b64encode pad bytes) = true.
Proof.
  assert (H : forall n bytes, (String.length bytes < n)%nat ->
            Base64.is_ascii_str (urlsafe_b64encode pad bytes) = true
            /\ no_dot (urlsafe_b64encode pad bytes) = true);
    [| apply (H (S (String.length bytes))); lia].
  clear bytes. induction n as [|n IH]; intros bs Hlen; [lia|].
  destruct bs as [|b1 [|b2 [|b3 rest]]].
  - split; reflexivity.
  - pose proof (N_ascii_bounded b1) as B1.
    cbn [urlsafe_b64encode Base64.is_ascii_str no_dot].
    destruct (alphabet_spec (N_of_ascii b1 / 4) ltac:(n_arith)) as (_ & _ & A1 & D1).
    destruct (alphabet_spec (N_of_ascii b1 mod 4 * 16) ltac:(n_arith)) as (_ & _ & A2 & D2).
    rewrite A1, A2, D1, D2. now destruct pad.
  - pose proof (N_ascii_bounded b1) as B1. pose proof (N_ascii_bounded b2) as B2.
    cbn [urlsafe_b64encode Base64.is_ascii_str no_dot].
    destruct (alphabet_spec (N_of_ascii b1 / 4) ltac:(n_arith)) as (_ & _ & A1 & D1).
    destruct (alphabet_spec (N_of_ascii b1 mod 4 * 16 + N_of_ascii b2 / 16) ltac:(n_arith))
      as (_ & _ & A2 & D2).
    destruct (alphabet_spec (N_of_ascii b2 mod 16 * 4) ltac:(n_arith)) as (_ & _ & A3 & D3).
    rewrite A1, A2, A3, D1, D2, D3. now destruct pad.
  - pose proof (N_ascii_bounded b1) as B1. pose proof (N_ascii_bounded b2) as B2.
    pose proof (N_ascii_bounded b3) as B3.
    cbn [urlsafe_b64encode Base64.is_ascii_str no_dot].
    destruct (alphabet_spec (N_of_ascii b1 / 4) ltac:(n_arith)) as (_ & _ & A1 & D1).
    destruct (alphabet_spec (N_of_ascii b1 mod 4 * 16 + N_of_ascii b2 / 16) ltac:(n_arith))
      as (_ & _ & A2 & D2).
    destruct (alphabet_spec (N_of_ascii b2 mod 16 * 4 + N_of_ascii b3 / 64) ltac:(n_arith))
      as (_ & _ & A3 & D3).
    destruct (alphabet_spec (N_of_ascii b3 mod 64) ltac:(n_arith)) as (_ & _ & A4 & D4).
    rewrite A1, A2, A3, A4, D1, D2, D3, D4.
    cbn [andb negb]. apply IH. simpl in Hlen. lia.
Qed.

(** Decoding, with the two [=] that [_decode_jwt] appends, gives back the
    bytes that were encoded, with or without padding. *)
Theorem urlsafe_b64decode_encode pad bytes :
  Base64.urlsafe_b64decode (urlsafe_b64encode pad bytes ++ "==") = ok bytes.
Proof.
  unfold Base64.urlsafe_b64decode, Base64._bytes_from_decode_data.
  rewrite is_ascii_app, (proj1 (encode_chars pad bytes)).
  change (Base64.is_ascii_str "==") with true.
  cbn [andb rbind ok]. unfold Base64.b64decode, Base64.a2b_base64.
  rewrite translate_app. apply a2b_loop_roundtrip.
Qed.

(** *** Segments *)

Lemma split_dot_no_dot s : no_dot s = true -> Utils.split_dot s = [s].
Proof.
  induction s as [|c s IH]; [reflexivity|]. cbn [no_dot Utils.split_dot].
  intros H. apply andb_prop in H. destruct H as [Hc Hs].
  apply negb_true_iff in Hc. rewrite Hc, (IH Hs). reflexivity.
Qed.

Lemma split_dot_segment h rest :
  no_dot h = true ->
  Utils.split_dot (h ++ String "." rest) = h :: Utils.split_dot rest.
Proof.
  induction h as [|c h IH]; [reflexivity|]. cbn [no_dot append Utils.split_dot].
  intros H. apply andb_prop in H. destruct H as [Hc Hh].
  apply negb_true_iff in Hc. rewrite Hc, (IH Hh). reflexivity.
Qed.

Lemma split_dot_three h p s :
  no_dot h = true -> no_dot p = true -> no_dot s = true ->
  Utils.split_dot (h ++ "." ++ p ++ "." ++ s) = [h; p; s].
Proof.
  intros Hh Hp Hs. cbn [append].
  now rewrite (split_dot_segment h), (split_dot_segment p), (split_dot_no_dot s).
Qed.

(** Whatever JSON text the issuer wrote, [_decode_jwt] hands that text to
    [json.loads]. *)
Theorem decode_jwt_encoded_text pad header text signature :
  no_dot header = true -> no_dot signature = true ->
  Utils._decode_jwt (header ++ "." ++ urlsafe_b64encode pad text ++ "." ++ signature)
  = (payload_json <- Utf8.decode text ;; loads payload_json).
Proof.
  intros Hh Hs. unfold Utils._decode_jwt.
  rewrite split_dot_three by (assumption || apply encode_chars).
  rewrite urlsafe_b64decode_encode. reflexivity.
Qed.

Theorem decode_jwt_encode_token pad header claims signature :
  no_dot header = true -> no_dot signature = true -> claims_value claims = true ->
  Utils._decode_jwt (encode_token pad header claims signature) = ok claims.
Proof.
  intros Hh Hs Hc. unfold encode_token.
  rewrite decode_jwt_encoded_text by assumption.
  rewrite decode_dumps by assumption. cbn [rbind ok].
  now apply loads_dumps.
Qed.

(** *** The parser never runs out of fuel *)

(** What a parser step gives: a [ValueError], or a value and a strictly
    shorter rest. *)
Definition consumes {A} (s : string) (r : result (A * string)) : Prop :=
  match r with
  | inl e => is_ValueError e = true
  | inr (_, rest) => (String.length rest < String.length s)%nat
  end.

Lemma consumes_bind {A B} s s' (r : result (A * string)) (k : A * string -> result (B * string)) :
  consumes s' r ->
  (forall a rest, (String.length rest < String.length s')%nat -> consumes s (k (a, rest))) ->
  consumes s (rbind r k).
Proof.
  intros Hr Hk. destruct r as [e | [a rest]]; [exact Hr|]. cbn [rbind]. now apply Hk.
Qed.

Lemma skip_ws_length s : (String.length (skip_ws s) <= String.length s)%nat.
Proof.
  induction s as [|c s IH]; [reflexivity|]. cbn [skip_ws].
  destruct (is_ws c); cbn [String.length]; lia.
Qed.

Lemma strip_prefix_length p s r :
  strip_prefix p s = Some r -> (String.length r + String.length p = String.length s)%nat.
Proof.
  revert s. induction p as [|a p IH]; intros s H.
  - cbn in H. injection H as ->. cbn. lia.
  - destruct s as [|b s]; [discriminate|]. cbn [strip_prefix] in H.
    destruct (Ascii.eqb a b); [|discriminate]. apply IH in H. cbn [String.length]. lia.
Qed.

Lemma take_digits_length s :
  (String.length (snd (take_digits s)) <= String.length s)%nat.
Proof.
  induction s as [|c s IH]; [reflexivity|]. cbn [take_digits].
  destruct (is_digit c); cbn [snd String.length]; lia.
Qed.

Lemma scanstring_consumes s : consumes s (scanstring s).
Proof.
  assert (H : forall n s, (String.length s < n)%nat -> consumes s (scanstring s));
    [| apply (H (S (String.length s))); lia].
  clear s. induction n as [|n IH]; intros s Hlen; [lia|].
  destruct s as [|c rest]; [reflexivity|]. cbn [scanstring String.length] in *.
  destruct (code c =? 34)%N; [cbn; lia|].
  destruct (code c =? 92)%N.
  - destruct rest as [|e r0]; [reflexivity|]. cbn [String.length] in *.
    destruct (code e =? 117)%N.
    + destruct r0 as [|h1 [|h2 [|h3 [|h4 r4]]]]; try reflexivity.
      cbn [String.length] in *.
      destruct (hex4 h1 h2 h3 h4) as [uni|]; [|reflexivity].
      assert (Hsingle : consumes (String c (String e (String h1 (String h2 (String h3 (String h4 r4))))))
                (p <- scanstring r4 ;; ok (Utf8.chr uni ++ fst p, snd p))).
      { apply (consumes_bind _ r4); [apply IH; lia|].
        intros a r Hr. cbn [consumes ok fst snd String.length]. lia. }
      destruct ((55296 <=? uni)%N && (uni <=? 56319)%N); [|exact Hsingle].
      destruct r4 as [|b [|u [|g1 [|g2 [|g3 [|g4 r10]]]]]]; try exact Hsingle.
      destruct ((code b =? 92)%N && (code u =? 117)%N); [|exact Hsingle].
      destruct (hex4 g1 g2 g3 g4) as [uni2|]; [|reflexivity].
      destruct ((56320 <=? uni2)%N && (uni2 <=? 57343)%N); [|exact Hsingle].
      apply (consumes_bind _ r10); [apply IH; cbn [String.length] in *; lia|].
      intros a r Hr. cbn [consumes ok fst snd String.length] in *. lia.
    + destruct (backslash e) as [ch|]; [|reflexivity].
      apply (consumes_bind _ r0); [apply IH; lia|].
      intros a r Hr. cbn [consumes ok fst snd String.length]. lia.
  - destruct (code c <? 32)%N; [reflexivity|].
    apply (consumes_bind _ rest); [apply IH; lia|].
    intros a r Hr. cbn [consumes ok fst snd String.length]. lia.
Qed.

Lemma match_number_length s v r :
  match_number s = Some (v, r) -> (String.length r < String.length s)%nat.
Proof.
  unfold match_number.
  set (first := match s with
                | EmptyString => (false, s)
                | String c r0 => if (code c =? 45)%N then (true, r0) else (false, s)
                end).
  assert (Hs1 : (String.length (snd first) <= String.length s)%nat).
  { subst first. destruct s as [|c r0]; [reflexivity|].
    destruct (code c =? 45)%N; cbn [snd String.length]; lia. }
  destruct first as [neg s1]. cbn [snd] in Hs1.
  destruct s1 as [|d r0]; [discriminate|]. cbn [String.length] in Hs1.
  destruct (is_digit d); [|discriminate].
  set (int_part := if (code d =? 48)%N then ("0", r0)
                   else (String d (fst (take_digits r0)), snd (take_digits r0))).
  assert (H1 : (String.length (snd int_part) <= String.length r0)%nat).
  { subst int_part. destruct (code d =? 48)%N; cbn [snd]; [lia | apply take_digits_length]. }
  destruct int_part as [int_digits r1]. cbn [snd] in H1.
  set (frac_part := match r1 with
                    | String dot (String f r') =>
                        if (code dot =? 46)%N && is_digit f
                        then (String dot (String f (fst (take_digits r'))),
                              snd (take_digits r'))
                        else ("", r1)
                    | _ => ("", r1)
                    end).
  assert (H2 : (String.length (snd frac_part) <= String.length r1)%nat).
  { subst frac_part. destruct r1 as [|dot [|f r']]; try (cbn [snd]; lia).
    destruct ((code dot =? 46)%N && is_digit f); cbn [snd String.length]; [|lia].
    pose proof (take_digits_length r'). lia. }
  destruct frac_part as [frac r2]. cbn [snd] in H2.
  set (exp_part := match r2 with
                   | EmptyString => ("", r2)
                   | String e r' =>
                       if ((code e =? 101)%N || (code e =? 69)%N)
                       then
                         let '(sign, r'') :=
                           match r' with
                           | EmptyString => ("", r')
                           | String sg t =>
                               if ((code sg =? 43)%N || (code sg =? 45)%N)
                               then (String sg "", t) else ("", r')
                           end in
                         if is_empty (fst (take_digits r''))
                         then ("", r2)
                         else (String e (sign ++ fst (take_digits r'')),
                               snd (take_digits r''))
                       else ("", r2)
                   end).
  assert (H3 : (String.length (snd exp_part) <= String.length r2)%nat).
  { subst exp_part. destruct r2 as [|e r']; [cbn [snd]; lia|].
    destruct ((code e =? 101)%N || (code e =? 69)%N); [|cbn [snd]; lia].
    destruct r' as [|sg t].
    - cbn. lia.
    - destruct ((code sg =? 43)%N || (code sg =? 45)%N); cbv beta iota zeta.
      + pose proof (take_digits_length t).
        destruct (is_empty (fst (take_digits t))); cbn [snd String.length]; lia.
      + pose proof (take_digits_length (String sg t)).
        destruct (is_empty (fst (take_digits (String sg t)))); cbn [snd String.length] in *; lia. }
  destruct exp_part as [exp r3]. cbn [snd] in H3.
  destruct (is_empty frac && is_empty exp); intros H; injection H as _ <-; lia.
Qed.

Lemma consumes_shorter {A} s s' (r : result (A * string)) :
  consumes s' r -> (String.length s' <= String.length s)%nat -> consumes s r.
Proof. destruct r as [e | [a rest]]; cbn; [auto | lia]. Qed.

(** With twice the length of the text as fuel, the parser never runs out
    of it: it gives a [ValueError] or consumes some of the text. *)
Lemma parser_has_fuel fuel :
  (forall s, (2 * String.length s + 1 <= fuel)%nat -> consumes s (scan_once fuel s))
  /\ (forall s, (2 * String.length s + 2 <= fuel)%nat -> consumes s (parse_elements fuel s))
  /\ (forall s, (2 * String.length s + 2 <= fuel)%nat -> consumes s (parse_members fuel s)).
Proof.
  induction fuel as [|f (IHs & IHe & IHm)]; [repeat split; intros s H; lia|].
  repeat split; intros s Hf.
  - destruct s as [|c rest]; [reflexivity|]. cbn [scan_once]. cbn [String.length] in Hf.
    destruct (code c =? 34)%N.
    { apply (consumes_bind _ rest); [apply scanstring_consumes|].
      intros a r Hr. cbn [consumes ok fst snd String.length]. lia. }
    destruct (code c =? 123)%N.
    { pose proof (skip_ws_length rest) as Hw.
      destruct (skip_ws rest) as [|c' rest']; [reflexivity|]. cbn [String.length] in Hw.
      destruct (code c' =? 125)%N; [cbn [consumes ok String.length]; lia|].
      destruct (code c' =? 34)%N; [|reflexivity].
      apply (consumes_bind _ rest'); [apply IHm; lia|].
      intros a r Hr. cbn [consumes ok fst snd String.length]. lia. }
    destruct (code c =? 91)%N.
    { pose proof (skip_ws_length rest) as Hw.
      destruct (skip_ws rest) as [|c' rest']; [reflexivity|]. cbn [String.length] in Hw.
      destruct (code c' =? 93)%N; [cbn [consumes ok String.length]; lia|].
      apply (consumes_bind _ (String c' rest')); [apply IHe; cbn [String.length]; lia|].
      intros a r Hr. cbn [consumes ok fst snd String.length] in *. lia. }
    repeat match goal with
           | |- context [strip_prefix ?p (String c rest)] =>
               let E := fresh "E" in
               destruct (strip_prefix p (String c rest)) eqn:E;
               [apply strip_prefix_length in E; cbn [String.length] in E;
                cbn [consumes ok String.length]; try lia |]
           end.
    destruct (match_number (String c rest)) as [[v r]|] eqn:Enum; [|reflexivity].
    apply match_number_length in Enum. exact Enum.
  - cbn [parse_elements].
    apply (consumes_bind _ s); [apply IHs; lia|].
    intros v r Hr. cbn [fst snd].
    pose proof (skip_ws_length r) as Hw.
    destruct (skip_ws r) as [|c rest]; [reflexivity|]. cbn [String.length] in Hw.
    destruct (code c =? 93)%N; [cbn [consumes ok String.length]; lia|].
    destruct (code c =? 44)%N; [|reflexivity].
    pose proof (skip_ws_length rest) as Hw'.
    apply (consumes_bind _ (skip_ws rest)); [apply IHe; lia|].
    intros a r' Hr'. cbn [consumes ok fst snd String.length]. lia.
  - cbn [parse_members].
    apply (consumes_bind _ s); [apply scanstring_consumes|].
    intros k r Hr. cbn [fst snd].
    pose proof (skip_ws_length r) as Hw.
    destruct (skip_ws r) as [|c rest]; [reflexivity|]. cbn [String.length] in Hw.
    destruct (code c =? 58)%N; [|reflexivity].
    pose proof (skip_ws_length rest) as Hw'.
    apply (consumes_bind _ (skip_ws rest)); [apply IHs; lia|].
    intros v r' Hr'. cbn [fst snd].
    pose proof (skip_ws_length r') as Hw''.
    destruct (skip_ws r') as [|c' rest']; [reflexivity|]. cbn [String.length] in Hw''.
    destruct (code c' =? 125)%N; [cbn [consumes ok String.length]; lia|].
    destruct (code c' =? 44)%N; [|reflexivity].
    pose proof (skip_ws_length rest') as Hw3.
    destruct (skip_ws rest') as [|c'' rest'']; [reflexivity|]. cbn [String.length] in Hw3.
    destruct (code c'' =? 34)%N; [|reflexivity].
    apply (consumes_bind _ rest''); [apply IHm; lia|].
    intros a r'' Hr''. cbn [consumes ok fst snd String.length]. lia.
Qed.

(** The parser of the model never runs out of fuel: every failure of
    [loads] is a [JSONDecodeError], a [ValueError].  (The [RecursionError]
    of the interpreter for a text nested too deep is not modelled.) *)
Lemma loads_error s e : loads s = raise e -> is_ValueError e = true.
Proof.
  unfold loads. destruct (strip_prefix _ s); [intros H; injection H as <-; reflexivity|].
  pose proof (skip_ws_length s) as Hw.
  pose proof (proj1 (parser_has_fuel (S (2 * String.length s))) (skip_ws s) ltac:(lia)) as H.
  destruct (scan_once _ (skip_ws s)) as [e' | [v r]]; cbn [rbind].
  - intros E. injection E as <-. exact H.
  - cbn [fst snd]. destruct (skip_ws r); [discriminate|].
    intros E. injection E as <-. reflexivity.
Qed.


Lemma a2b_loop_error q l p s e :
  a2b_loop q l p s = raise e -> is_ValueError e = true.
Proof.
  revert q l p. induction s as [|c s IH]; intros q l p; cbn [a2b_loop].
  - destruct (q =? 0)%N; [discriminate|].
    destruct (q =? 1)%N; intros H; injection H as <-; reflexivity.
  - destruct (Ascii.eqb c "=").
    + destruct (2 <=? q)%N; [|apply IH].
      destruct (4 <=? q + (p + 1))%N; [discriminate | apply IH].
    + destruct (table_a2b c) as [this_ch|]; [|apply IH].
      destruct (q =? 0)%N; [apply IH|].
      repeat match goal with
             | |- context [if ?b then _ else _] => destruct b
             end;
        match goal with
        | |- rbind (a2b_loop ?q' ?l' ?p' s) _ = _ -> _ =>
            destruct (a2b_loop q' l' p' s) eqn:E; cbn [rbind ok];
            [intros H; injection H as <-; now apply (IH _ _ _ E) | discriminate]
        end.
Qed.

Lemma urlsafe_b64decode_error s e :
  urlsafe_b64decode s = raise e -> is_ValueError e = true.
Proof.
  unfold urlsafe_b64decode, _bytes_from_decode_data.
  destruct (is_ascii_str s); cbn [rbind ok].
  - apply a2b_loop_error.
  - intros H. injection H as <-. reflexivity.
Qed.

Lemma decode_jwt_segments token :
  List.length (Utils.split_dot token) <> 3%nat ->
  exists msg, Utils._decode_jwt token = raise (ValueError msg).
Proof.
  unfold Utils._decode_jwt.
  destruct (Utils.split_dot token) as [|h [|p [|s [|x more]]]]; intros H;
    try (eexists; reflexivity).
  now contradiction H.
Qed.

End TokenFacts.

(** ** Segments of a token *)

Module SegmentFacts.
Import Utils Issuer Base64 TokenFacts.

(** The characters the decoder reads in a segment: those of the two
    base64 alphabets, and the padding [=].  Every other one is skipped. *)
Definition data_char (c : ascii) : bool :=
  Ascii.eqb c "="
  || match table_a2b (urlsafe_char c) with Some _ => true | None => false end.

Fixpoint only_data (s : string) : string :=
  match s with
  | EmptyString => ""
  | String c rest => if data_char c then String c (only_data rest) else only_data rest
  end.

Fixpoint count_dots (s : string) : nat :=
  match s with
  | EmptyString => 0
  | String c rest => (if Ascii.eqb c "." then 1 else 0) + count_dots rest
  end.

Lemma split_dot_length s : List.length (split_dot s) = S (count_dots s).
Proof.
  induction s as [|c s IH]; [reflexivity|]. cbn [split_dot count_dots].
  destruct (Ascii.eqb c "."); cbn [List.length]; [now rewrite IH|].
  destruct (split_dot s) as [|seg segs]; [discriminate|]. exact IH.
Qed.

Lemma urlsafe_char_eq c : Ascii.eqb (urlsafe_char c) "=" = Ascii.eqb c "=".
Proof.
  unfold urlsafe_char.
  destruct (Ascii.eqb_spec c "-") as [-> | _]; [reflexivity|].
  destruct (Ascii.eqb_spec c "_") as [-> | _]; reflexivity.
Qed.

Lemma a2b_loop_only_data s :
  forall q l p,
    a2b_loop q l p (translate_urlsafe (only_data s))
    = a2b_loop q l p (translate_urlsafe s).
Proof.
  induction s as [|c s IH]; intros q l p; [reflexivity|].
  cbn [only_data]. unfold data_char.
  destruct (Ascii.eqb c "=") eqn:Eeq; cbn [orb].
  - cbn [translate_urlsafe a2b_loop]. rewrite urlsafe_char_eq, Eeq.
    rewrite !IH. reflexivity.
  - destruct (table_a2b (urlsafe_char c)) as [v|] eqn:Etab.
    + cbn [translate_urlsafe a2b_loop]. rewrite urlsafe_char_eq, Eeq, Etab.
      rewrite !IH. reflexivity.
    + cbn [translate_urlsafe a2b_loop]. rewrite urlsafe_char_eq, Eeq, Etab.
      apply IH.
Qed.

Lemma only_data_app a b : only_data (a ++ b) = only_data a ++ only_data b.
Proof.
  induction a as [|c a IH]; [reflexivity|]. cbn [append only_data].
  destruct (data_char c); cbn [append]; now rewrite IH.
Qed.

Lemma only_data_ascii s : is_ascii_str s = true -> is_ascii_str (only_data s) = true.
Proof.
  induction s as [|c s IH]; [reflexivity|]. cbn [is_ascii_str only_data].
  intros H. apply andb_prop in H. destruct H as [Hc Hs].
  destruct (data_char c); cbn [is_ascii_str]; [rewrite Hc|]; now apply IH.
Qed.

Lemma only_data_no_dot s : no_dot (only_data s) = true.
Proof.
  induction s as [|c s IH]; [reflexivity|]. cbn [only_data].
  destruct (data_char c) eqn:E; [|exact IH].
  cbn [no_dot]. rewrite IH, andb_true_r.
  destruct (Ascii.eqb_spec c ".") as [-> | _]; [discriminate E | reflexivity].
Qed.

Lemma urlsafe_b64decode_only_data s :
  is_ascii_str s = true ->
  urlsafe_b64decode (only_data s) = urlsafe_b64decode s.
Proof.
  intros H. unfold urlsafe_b64decode, _bytes_from_decode_data.
  rewrite H, (only_data_ascii s H). cbn [rbind ok].
  unfold b64decode, a2b_base64. apply a2b_loop_only_data.
Qed.

(** The segments of a token have no dot, whatever is put together. *)
Lemma no_dot_app a b : no_dot (a ++ b) = no_dot a && no_dot b.
Proof.
  induction a as [|c a IH]; [reflexivity|]. cbn [append no_dot].
  now rewrite IH, andb_assoc.
Qed.

(** An ASCII payload segment decodes as the segment without the
    characters the decoder skips. *)
Lemma decode_jwt_only_data header payload signature :
  no_dot header = true -> no_dot payload = true -> no_dot signature = true ->
  is_ascii_str payload = true ->
  _decode_jwt (header ++ "." ++ payload ++ "." ++ signature)
  = _decode_jwt (header ++ "." ++ only_data payload ++ "." ++ signature).
Proof.
  intros Hh Hp Hs Hascii.
  unfold _decode_jwt.
  rewrite !split_dot_three by (assumption || apply only_data_no_dot).
  replace (only_data payload ++ "==") with (only_data (payload ++ "=="))
    by (rewrite only_data_app; reflexivity).
  rewrite urlsafe_b64decode_only_data; [reflexivity|].
  rewrite is_ascii_app. now rewrite Hascii.
Qed.

(** A character the decoder skips can be taken out of the segment. *)
Lemma only_data_skip before c after :
  data_char c = false ->
  only_data (before ++ String c after) = only_data (before ++ after).
Proof.
  intros H. rewrite !only_data_app. cbn [only_data]. now rewrite H.
Qed.

End SegmentFacts.

(** ** Values used in the examples *)

Module Examples.

(** A text with every apostrophe replaced by a double quote, to write JSON
    down in an example. *)
Fixpoint json_text (s : string) : string :=
  match s with
  | EmptyString => ""
  | String c rest =>
      String (if Ascii.eqb c "'" then ascii_of_N 34 else c) (json_text rest)
  end.

Definition example_config : OAuthConfig :=
  {| client_id := "abc"; client_secret := "secret";
     redirect_uri := "https://example.org/callback" |}.

(** A client that holds a token pair for the account [acme]. *)
Definition authorized_client : OAuth.OAuthClient :=
  {| OAuth.config := example_config;
     OAuth.access_token := PStr "A1";
     OAuth.refresh_token := PStr "R1";
     OAuth.longlive_token := PNone;
     OAuth.api_key := PNone;
     OAuth.base_url := Some "https://acme.amocrm.ru" |}.

(** A network that answers every call with the same response. *)
Definition always (status : Z) (text : string) : network :=
  fun _ _ => Answered {| status_code := status; text := text |}.

(** A network that fails every call. *)
Definition unreachable : network := fun _ _ => Failed "Connection refused".

(** A token whose payload is [{'exp':1700000000}], one with
    [{'exp':253402300800}] (the first second of the year 10000), one with
    [{'sub':'x'}]. *)
Definition token_exp_2023 : string := "h.eyJleHAiOjE3MDAwMDAwMDB9.s".
Definition token_exp_10000 : string := "h.eyJleHAiOjI1MzQwMjMwMDgwMH0.s".
Definition token_without_exp : string := "h.eyJzdWIiOiJ4In0.s".

(** A token whose payload is [{'exp':null}]. *)
Definition token_exp_null : string := "h.eyJleHAiOm51bGx9.s".

(** 2023-11-14 22:13:20.999999 UTC, in microseconds. *)
Definition clock_2023 : Z := 1700000000999999.

(** A storage service that creates the session and accepts three parts,
    answering the third without [next_url]. *)
Definition storage_service : network :=
  fun log _ =>
    match log with
    | [] => Answered {| status_code := 200; text := json_text "{'upload_url':'u0'}" |}
    | [_] => Answered {| status_code := 200; text := json_text "{'next_url':'u1'}" |}
    | [_; _] => Answered {| status_code := 200; text := json_text "{'next_url':'u2'}" |}
    | _ => Answered {| status_code := 200; text := json_text "{}" |}
    end.

(** The same service, with an error 500 for the second part. *)
Definition storage_service_500 : network :=
  fun log _ =>
    match log with
    | [] => Answered {| status_code := 200; text := json_text "{'upload_url':'u0'}" |}
    | [_] => Answered {| status_code := 200; text := json_text "{'next_url':'u1'}" |}
    | [_; _] => Answered {| status_code := 500; text := "Internal Server Error" |}
    | _ => Answered {| status_code := 200; text := json_text "{}" |}
    end.

(** The same service, with a status 302 for the second part. *)
Definition storage_service_302 : network :=
  fun log _ =>
    match log with
    | [] => Answered {| status_code := 200; text := json_text "{'upload_url':'u0'}" |}
    | [_] => Answered {| status_code := 200; text := json_text "{'next_url':'u1'}" |}
    | [_; _] => Answered {| status_code := 302; text := json_text "{'next_url':'u2'}" |}
    | _ => Answered {| status_code := 200; text := json_text "{}" |}
    end.

(** A service that answers the first part without [next_url]; posting to
    the address [None] then fails inside [requests] ("Invalid URL"). *)
Definition storage_service_no_next : network :=
  fun log req =>
    match url req with
    | PNone => Failed "Invalid URL 'None': No scheme supplied"
    | _ =>
        match log with
        | [] => Answered {| status_code := 200; text := json_text "{'upload_url':'u0'}" |}
        | _ => Answered {| status_code := 200; text := json_text "{}" |}
        end
    end.

(** A file of 300000 zero bytes, and one of ten bytes. *)
Definition zeros_300000 : list Byte.byte := repeat Byte.x00 (Z.to_nat 300000).
Definition ten_bytes : list Byte.byte := repeat Byte.x00 10.

(** An uploader with the default part size, and one that sends four bytes
    at a time. *)
Definition uploader : Upload.FileUploadManager :=
  Upload.__init__ "T" Upload.DEFAULT_MAX_PART_SIZE.
Definition small_uploader : Upload.FileUploadManager := Upload.__init__ "T" 4.

End Examples.

(** * The claims *)

(** ** [OAuthClient] *)

Module OAuthClaims.
Import OAuth Examples.

(** The request [refresh_access_token] sends. *)
Definition refresh_request (c : OAuthClient) : request :=
  {| method := "POST";
     url := PStr (str_base_url c ++ "/oauth2/access_token");
     headers := [];
     payload := JsonBody (PDict [ ("client_id", PStr (client_id (config c)));
                                  ("client_secret", PStr (client_secret (config c)));
                                  ("grant_type", PStr "refresh_token");
                                  ("refresh_token", refresh_token c) ]) |}.

(** The address [get_access_token] posts to, and the request it sends. *)
Definition exchange_url (subdomain : string) : string :=
  ("https://" ++ subdomain ++ ".amocrm.ru") ++ "/oauth2/access_token".

Definition exchange_request (c : OAuthClient) (code subdomain : string) : request :=
  {| method := "POST";
     url := PStr (exchange_url subdomain);
     headers := [];
     payload := JsonBody (PDict [ ("client_id", PStr (client_id (config c)));
                                  ("client_secret", PStr (client_secret (config c)));
                                  ("redirect_uri", PStr (redirect_uri (config c)));
                                  ("code", PStr code);
                                  ("grant_type", PStr "authorization_code") ]) |}.

(** A call that did not give a 200 response: a transport failure, or any
    other status (among them every status outside 200..299). *)
Definition not_200 (out : outcome) : Prop :=
  match out with
  | Failed _ => True
  | Answered r => status_code r <> 200
  end.

(** The message of the [OAuthError] raised for such a call: it carries the
    message of the transport failure, or the body of the response. *)
Definition failure_message (url : string) (out : outcome) : string :=
  match out with
  | Failed e => "Request failed: " ++ e
  | Answered r => "Failed to post to " ++ url ++ ": " ++ text r
  end.

(** C1.  With [state] and [mode] both given, [get_authorization_url] keeps
    both: the parameters are [client_id], [state] and [mode], in this
    order, and the URL has the query [client_id=..&state=..&mode=..].  The
    docstring of the method says that [mode] is passed when [state] is not
    given; the code passes it whenever it is not [None]. *)
Theorem get_authorization_url_state_and_mode :
  forall (c : OAuthClient) (state mode : string),
    authorization_params c (Some state) (Some mode)
    = [ ("client_id", client_id (config c)); ("state", state); ("mode", mode) ]
    /\ get_authorization_url c (Some state) (Some mode)
       = "https://www.amocrm.ru/oauth?client_id=" ++ Urllib.quote_plus (client_id (config c))
         ++ "&state=" ++ Urllib.quote_plus state
         ++ "&mode=" ++ Urllib.quote_plus mode.
Proof.
  intros c state mode. split; [reflexivity|].
  unfold get_authorization_url, _encode_params, Urllib.urlencode, authorization_params.
  cbn [drop_none map Urllib.join_amp fst snd].
  rewrite !str_app_assoc. reflexivity.
Qed.

(** With [state] alone the URL has [state] and no [mode]. *)
Lemma get_authorization_url_state_only (c : OAuthClient) (state : string) :
  authorization_params c (Some state) None
  = [ ("client_id", client_id (config c)); ("state", state) ]
  /\ get_authorization_url c (Some state) None
     = "https://www.amocrm.ru/oauth?client_id=" ++ Urllib.quote_plus (client_id (config c))
       ++ "&state=" ++ Urllib.quote_plus state.
Proof.
  split; [reflexivity|].
  unfold get_authorization_url, _encode_params, Urllib.urlencode, authorization_params.
  cbn [drop_none map Urllib.join_amp fst snd].
  rewrite !str_app_assoc. reflexivity.
Qed.

Example get_authorization_url_x_popup :
  get_authorization_url (__init__ example_config) (Some "x") (Some "popup")
  = "https://www.amocrm.ru/oauth?client_id=abc&state=x&mode=popup".
Proof. reflexivity. Qed.

(** *** Refreshing the access token *)

(** C4.  When no refresh token is stored, [refresh_access_token] raises the
    [OAuthError] "No refresh token available" (the error the specification
    names [MissingRefreshTokenError]); the client and the log of the calls
    are what they were: no call is made and no field is written. *)
Theorem refresh_access_token_without_refresh_token :
  forall (net : network) (c : OAuthClient) (log : list request),
    refresh_token c = PNone ->
    refresh_access_token net (c, log)
    = (raise (OAuthError "No refresh token available"), (c, log)).
Proof.
  intros net c log H.
  unfold refresh_access_token, mbind, self_, mraise. simpl.
  rewrite H. reflexivity.
Qed.

Lemma refresh_access_token_without_refresh_token_witness :
  refresh_access_token unreachable (__init__ example_config, [])
  = (raise (OAuthError "No refresh token available"), (__init__ example_config, [])).
Proof.
  apply (refresh_access_token_without_refresh_token unreachable (__init__ example_config) []).
  reflexivity.
Defined.

(** What [_make_post_request] does with the outcome of its call. *)
Lemma make_post_request_not_200 net c log url data :
  let req := {| method := "POST"; url := PStr url; headers := [];
                payload := JsonBody data |} in
  not_200 (net log req) ->
  _make_post_request net url data (c, log)
  = (raise (OAuthError (failure_message url (net log req))), (c, (log ++ [req])%list)).
Proof.
  intros req H.
  unfold _make_post_request, _make_request, mbind, call, mret, mraise. simpl.
  fold req. destruct (net log req) as [e | r]; simpl in *; [reflexivity|].
  destruct (status_code r =? 200) eqn:E; [|reflexivity].
  apply Z.eqb_eq in E. contradiction.
Qed.

Lemma make_post_request_200 net c log url data r :
  let req := {| method := "POST"; url := PStr url; headers := [];
                payload := JsonBody data |} in
  net log req = Answered r ->
  status_code r = 200 ->
  _make_post_request net url data (c, log)
  = (Requests.json r, (c, (log ++ [req])%list)).
Proof.
  intros req Hnet Hst.
  unfold _make_post_request, _make_request, mbind, call, mret, mraise, lift. simpl.
  fold req. rewrite Hnet. simpl. rewrite Hst. reflexivity.
Qed.

(** C2 (amended).  When a refresh token is stored and the token endpoint
    answers 200 with a JSON object that has [access_token] and no
    [refresh_token], [refresh_access_token] returns that object, stores the
    new access token and sets the stored refresh token to [None]; the other
    fields stay, and one call is logged. *)
Theorem refresh_access_token_response_without_refresh_token :
  forall (net : network) (c : OAuthClient) (log : list request)
         (r : response) (items : list (string * pyval)) (new_access : pyval),
    truthy (refresh_token c) = true ->
    net log (refresh_request c) = Answered r ->
    status_code r = 200 ->
    Json.loads (text r) = ok (PDict items) ->
    dict_get "access_token" items = Some new_access ->
    dict_get "refresh_token" items = None ->
    refresh_access_token net (c, log)
    = (ok (PDict items),
       ({| config := config c;
           access_token := new_access;
           refresh_token := PNone;
           longlive_token := longlive_token c;
           api_key := api_key c;
           base_url := base_url c |},
        (log ++ [refresh_request c])%list)).
Proof.
  intros net c log r items new_access Htok Hnet Hst Hjson Hacc Href.
  unfold refresh_access_token.
  unfold mbind at 1. unfold self_ at 1. cbn [fst snd ok].
  rewrite Htok. cbn [negb].
  unfold mbind at 1.
  rewrite (make_post_request_200 net c log _ _ r Hnet Hst).
  unfold Requests.json. rewrite Hjson.
  unfold mbind, lift, set_self, mret, py_getitem, py_get. cbn.
  rewrite Hacc, Href. reflexivity.
Qed.

Lemma refresh_access_token_response_without_refresh_token_witness :
  refresh_access_token (always 200 (json_text "{'access_token':'A2'}"))
    (authorized_client, [])
  = (ok (PDict [("access_token", PStr "A2")]),
     ({| config := example_config;
         access_token := PStr "A2";
         refresh_token := PNone;
         longlive_token := PNone;
         api_key := PNone;
         base_url := Some "https://acme.amocrm.ru" |},
      [refresh_request authorized_client])).
Proof.
  apply (refresh_access_token_response_without_refresh_token
           (always 200 (json_text "{'access_token':'A2'}")) authorized_client []
           {| status_code := 200; text := json_text "{'access_token':'A2'}" |}
           [("access_token", PStr "A2")] (PStr "A2"));
    reflexivity.
Defined.

(** C2 as stated fails: after a 200 response that has [access_token] and no
    [refresh_token], the stored refresh token is [None], not the value it
    had. *)
Lemma refresh_access_token_forgets_refresh_token :
  let net := always 200 (json_text "{'access_token':'A2'}") in
  let after := fst (snd (refresh_access_token net (authorized_client, []))) in
  refresh_token authorized_client = PStr "R1"
  /\ access_token after = PStr "A2"
  /\ refresh_token after = PNone
  /\ refresh_token after <> refresh_token authorized_client.
Proof.
  cbv zeta. repeat split; try reflexivity.
  vm_compute. discriminate.
Qed.

(** *** Exchanging the authorization code *)

(** C3 (amended).  When the call of [get_access_token] fails in transport
    or gets a response whose status is not 200, the method raises an
    [OAuthError] (the error the specification names [AuthExchangeError])
    whose message carries the failure or the body of the response;
    [access_token], [refresh_token] and [longlive_token] keep their values,
    and [base_url] is the address of the account just given. *)
Theorem get_access_token_failure :
  forall (net : network) (c : OAuthClient) (log : list request)
         (code subdomain : string),
    not_200 (net log (exchange_request c code subdomain)) ->
    get_access_token net code subdomain (c, log)
    = (raise (OAuthError (failure_message (exchange_url subdomain)
                            (net log (exchange_request c code subdomain)))),
       ({| config := config c;
           access_token := access_token c;
           refresh_token := refresh_token c;
           longlive_token := longlive_token c;
           api_key := api_key c;
           base_url := Some ("https://" ++ subdomain ++ ".amocrm.ru") |},
        (log ++ [exchange_request c code subdomain])%list)).
Proof.
  intros net c log code subdomain H.
  unfold get_access_token.
  unfold mbind at 1. unfold set_self at 1. cbn [fst snd ok].
  unfold mbind at 1. unfold self_ at 1. cbn [fst snd ok].
  unfold mbind at 1.
  unfold str_base_url, set_base_url. cbn [base_url config].
  rewrite make_post_request_not_200 by exact H.
  reflexivity.
Qed.

Lemma get_access_token_failure_witness :
  get_access_token (always 400 "bad code") "code" "acme" (authorized_client, [])
  = (raise (OAuthError "Failed to post to https://acme.amocrm.ru/oauth2/access_token: bad code"),
     (authorized_client, [exchange_request authorized_client "code" "acme"])).
Proof.
  apply (get_access_token_failure (always 400 "bad code") authorized_client [] "code" "acme").
  simpl. lia.
Defined.

(** C3 as stated fails: a client that has no [base_url] has one after an
    exchange that was refused with status 400. *)
Lemma get_access_token_failure_sets_base_url :
  let before := __init__ example_config in
  let run := get_access_token (always 400 "bad code") "code" "acme" (before, []) in
  fst run = raise (OAuthError "Failed to post to https://acme.amocrm.ru/oauth2/access_token: bad code")
  /\ base_url before = None
  /\ base_url (fst (snd run)) = Some "https://acme.amocrm.ru"
  /\ base_url (fst (snd run)) <> base_url before.
Proof.
  cbv zeta. repeat split; try reflexivity.
  vm_compute. discriminate.
Qed.

End OAuthClaims.

(** ** Expiry of a token *)

Module ExpiryClaims.
Import Datetime DatetimeFacts Utils OAuth Examples ExpiryFacts.

(** C5 (amended).  [is_token_expired] returns [None] for the token [None].
    For a token whose payload is an object with an integer [exp], when
    [exp] and the clock are both between 1000-01-01 00:00:00 and
    9999-12-31 23:59:59 UTC, it returns [True] if [exp] is before the
    current second and [False] otherwise. *)
Theorem is_token_expired_compares_seconds :
  forall now_us : Z,
    is_token_expired now_us None = ok None
    /\ (forall (token : string) (items : list (string * pyval)) (exp : Z),
          _decode_jwt token = ok (PDict items) ->
          dict_get "exp" items = Some (PInt exp) ->
          YEAR_1000 <= exp <= MAX_TIMESTAMP ->
          YEAR_1000 <= now_us / 1000000 <= MAX_TIMESTAMP ->
          is_token_expired now_us (Some token)
          = ok (Some (exp <? now_us / 1000000))).
Proof.
  intros now_us. split; [reflexivity|].
  intros token items exp Hjwt Hexp Hrange Hnow.
  unfold is_token_expired. rewrite Hjwt. cbn [rbind ok py_get].
  rewrite Hexp. cbn [rbind ok].
  now apply compare_four_digit_years.
Qed.

Lemma is_token_expired_compares_seconds_witness :
  is_token_expired clock_2023 (Some token_exp_2023) = ok (Some false).
Proof.
  apply (proj2 (is_token_expired_compares_seconds clock_2023)
           token_exp_2023 [("exp", PInt 1700000000)] 1700000000).
  - vm_compute. reflexivity.
  - reflexivity.
  - unfold YEAR_1000, MAX_TIMESTAMP. lia.
  - vm_compute. split; discriminate.
Defined.

(** C5 as stated fails: for [exp] in the year 10000, which is after the
    current time, the method raises instead of returning [False]. *)
Lemma is_token_expired_year_10000 :
  _decode_jwt token_exp_10000 = ok (PDict [("exp", PInt 253402300800)])
  /\ clock_2023 / 1000000 <= 253402300800
  /\ is_token_expired clock_2023 (Some token_exp_10000)
     = raise (ValueError "year 10000 is out of range").
Proof. repeat split; vm_compute; congruence. Qed.

(** A year below 1000 is written without zeros in front, and then the
    texts do not compare as the instants: 0999-12-31 23:59:59 is before
    2023, and yet is not found to be before it. *)
Example compare_year_999 :
  _decode_timestamp (PInt (-30610224001)) = ok "999-12-31 23:59:59"
  /\ _compare_timestamp_with_current clock_2023 (PInt (-30610224001)) = ok (Some false).
Proof. split; vm_compute; reflexivity. Qed.

(** C6 (amended).  For a token whose payload is an object without [exp],
    [is_token_expired] returns no value: [jwt.get('exp')] is [None], and
    [datetime.utcfromtimestamp(None)] raises its [TypeError].  The code
    has no test for a missing [exp] and no error of its own for it. *)
Theorem is_token_expired_without_exp :
  forall (now_us : Z) (token : string) (items : list (string * pyval)),
    _decode_jwt token = ok (PDict items) ->
    dict_get "exp" items = None ->
    is_token_expired now_us (Some token)
    = raise (TypeError "'NoneType' object cannot be interpreted as an integer").
Proof.
  intros now_us token items Hjwt Hexp.
  unfold is_token_expired. rewrite Hjwt. cbn [rbind ok py_get].
  rewrite Hexp. reflexivity.
Qed.

Lemma is_token_expired_without_exp_witness :
  is_token_expired clock_2023 (Some token_without_exp)
  = raise (TypeError "'NoneType' object cannot be interpreted as an integer").
Proof.
  apply (is_token_expired_without_exp clock_2023 token_without_exp [("sub", PStr "x")]).
  - vm_compute. reflexivity.
  - reflexivity.
Defined.

(** C6 as stated fails: for the payload [{'sub':'x'}] what reaches the
    caller is the [TypeError] of [datetime] for the argument [None], the
    one that the payload [{'exp':null}] gives as well; it is no error of
    the package. *)
Lemma is_token_expired_missing_exp_type_error :
  _decode_jwt token_without_exp = ok (PDict [("sub", PStr "x")])
  /\ _decode_jwt token_exp_null = ok (PDict [("exp", PNone)])
  /\ is_token_expired clock_2023 (Some token_without_exp)
     = raise (TypeError "'NoneType' object cannot be interpreted as an integer")
  /\ is_token_expired clock_2023 (Some token_exp_null)
     = is_token_expired clock_2023 (Some token_without_exp)
  /\ is_OAuthError (TypeError "'NoneType' object cannot be interpreted as an integer")
     = false.
Proof. repeat split; vm_compute; reflexivity. Qed.

(** C10 (amended).  The end of the body of
    [_compare_timestamp_with_current] is never reached, whatever the
    argument; for an integer timestamp that [datetime] can hold (from
    0001-01-01 00:00:00 to 9999-12-31 23:59:59 UTC) the function returns
    [True] or [False]; so [is_token_expired] never returns [None] for a
    token that is not [None], and returns [True] or [False] when the
    payload has such an [exp]. *)
Theorem compare_timestamp_returns_bool :
  forall now_us : Z,
    (forall timestamp : pyval,
        _compare_timestamp_with_current now_us timestamp <> ok None)
    /\ (forall t : Z,
          MIN_TIMESTAMP <= t <= MAX_TIMESTAMP ->
          exists b : bool,
            _compare_timestamp_with_current now_us (PInt t) = ok (Some b))
    /\ (forall token : string, is_token_expired now_us (Some token) <> ok None)
    /\ (forall (token : string) (items : list (string * pyval)) (t : Z),
          _decode_jwt token = ok (PDict items) ->
          dict_get "exp" items = Some (PInt t) ->
          MIN_TIMESTAMP <= t <= MAX_TIMESTAMP ->
          exists b : bool, is_token_expired now_us (Some token) = ok (Some b)).
Proof.
  intros now_us. repeat split.
  - intros timestamp. apply compare_never_falls_through.
  - intros t Ht. now apply compare_returns_bool.
  - intros token. unfold is_token_expired.
    destruct (_decode_jwt token) as [e | jwt]; [discriminate|]. cbn [rbind].
    destruct (py_get jwt "exp") as [e | v]; [discriminate|]. cbn [rbind].
    apply compare_never_falls_through.
  - intros token items t Hjwt Hexp Ht.
    unfold is_token_expired. rewrite Hjwt. cbn [rbind ok py_get].
    rewrite Hexp. cbn [rbind ok].
    now apply compare_returns_bool.
Qed.

Lemma compare_timestamp_returns_bool_witness :
  exists b : bool,
    _compare_timestamp_with_current clock_2023 (PInt 1700000000) = ok (Some b).
Proof.
  apply (proj1 (proj2 (compare_timestamp_returns_bool clock_2023)) 1700000000).
  unfold MIN_TIMESTAMP, MAX_TIMESTAMP. lia.
Defined.

(** C10 as stated fails: for the integer 253402300800, the first second
    of the year 10000, the function raises and returns no boolean. *)
Lemma compare_timestamp_year_10000 :
  _compare_timestamp_with_current clock_2023 (PInt 253402300800)
  = raise (ValueError "year 10000 is out of range").
Proof. vm_compute. reflexivity. Qed.

End ExpiryClaims.

(** ** The upload protocol *)

Module UploadFacts.
Import Upload.

Lemma mbind_ok {S A B} (m : M S A) (k : A -> M S B) st a st' :
  m st = (ok a, st') -> mbind m k st = k a st'.
Proof. intros H. unfold mbind. now rewrite H. Qed.

Lemma mbind_raise {S A B} (m : M S A) (k : A -> M S B) st e st' :
  m st = (raise e, st') -> mbind m k st = (raise e, st').
Proof. intros H. unfold mbind. now rewrite H. Qed.

(** *** The parts of a file *)

Lemma read_parts_nil fuel size : read_parts fuel size [] = [].
Proof.
  destruct fuel as [|f]; [reflexivity|]. unfold read_parts, read.
  destruct (size <? 0); [reflexivity|]. now rewrite firstn_nil.
Qed.

(** A read of a positive size from a file that has bytes left gives a part
    that has a byte. *)
Lemma read_positive size rest :
  0 < size -> rest <> [] ->
  read size rest = (firstn (Z.to_nat size) rest, skipn (Z.to_nat size) rest)
  /\ firstn (Z.to_nat size) rest <> []
  /\ (List.length (skipn (Z.to_nat size) rest) < List.length rest)%nat.
Proof.
  intros Hs Hr. unfold read.
  replace (size <? 0) with false by (symmetry; apply Z.ltb_ge; lia).
  split; [reflexivity|].
  destruct rest as [|b rest]; [contradiction|].
  destruct (Z.to_nat size) as [|n] eqn:E; [lia|].
  split; [discriminate|]. simpl. rewrite length_skipn. lia.
Qed.

(** One turn of the generator. *)
Lemma read_parts_step fuel size rest :
  0 < size -> rest <> [] -> (List.length rest <= fuel)%nat ->
  read_parts fuel size rest
  = firstn (Z.to_nat size) rest
    :: read_parts (fuel - 1) size (skipn (Z.to_nat size) rest).
Proof.
  intros Hs Hr Hf.
  destruct fuel as [|f]; [destruct rest; [contradiction | simpl in Hf; lia]|].
  destruct (read_positive size rest Hs Hr) as (Hread & Hne & _).
  cbn [read_parts]. rewrite Hread.
  destruct (firstn (Z.to_nat size) rest) eqn:E; [contradiction|].
  now rewrite Nat.sub_1_r.
Qed.

End UploadFacts.

Module UploadClaims.
Import Upload UploadFacts Examples.

(** The call that creates the session, and the call that uploads a part. *)
Definition session_request (self : FileUploadManager) (file_name : string)
    (file_size : Z) : request :=
  {| method := "POST";
     url := PStr "https://drive-b.amocrm.ru/v1.0/sessions";
     headers := [ ("Content-Type", "application/json");
                  ("Authorization", "Bearer " ++ access_token self) ];
     payload := DataJsonText (PDict [ ("file_name", PStr file_name);
                                      ("file_size", PInt file_size);
                                      ("content_type", PStr "image/jpeg") ]) |}.

Definition chunk_request (self : FileUploadManager) (chunk : list Byte.byte)
    (target : pyval) : request :=
  {| method := "POST";
     url := target;
     headers := [ ("Content-Type", "image/jpeg");
                  ("Authorization", "Bearer " ++ access_token self) ];
     payload := DataBytes chunk |}.

(** The session was created, with [upload_url] in the answer. *)
Definition session_answer (out : outcome) (upload_url : pyval) : Prop :=
  exists (r : response) (j : pyval),
    out = Answered r /\ raise_for_status r = ok tt
    /\ Requests.json r = ok j /\ py_getitem j "upload_url" = ok upload_url.

(** The part was accepted; [next_url] is the [next_url] of the answer,
    [PNone] when the answer has none. *)
Definition chunk_answer (out : outcome) (next_url : pyval) : Prop :=
  exists (r : response) (j : pyval),
    out = Answered r /\ raise_for_status r = ok tt
    /\ Requests.json r = ok j /\ py_get j "next_url" = ok next_url.

(** The call failed: in transport, or with a status from 400 to 599. *)
Definition chunk_failure (out : outcome) : Prop :=
  match out with
  | Failed _ => True
  | Answered r => 400 <= status_code r < 600
  end.

(** What [upload_chunk] raises for a failed call: the exception of
    [requests], as it is. *)
Definition chunk_error (out : outcome) : exn :=
  match out with
  | Failed e => RequestException e
  | Answered r =>
      if status_code r <? 500 then HTTPError "Client Error" else HTTPError "Server Error"
  end.

Lemma create_session_ok net self name size log u :
  session_answer (net log (session_request self name size)) u ->
  create_session net self name size log
  = (ok u, (log ++ [session_request self name size])%list).
Proof.
  intros (r & j & Hnet & Hst & Hj & Hu).
  unfold create_session, mbind, post, lift. fold (session_request self name size).
  rewrite Hnet. cbv beta iota delta [ok]. rewrite Hst. cbv beta iota delta [ok].
  rewrite Hj. cbv beta iota delta [ok]. rewrite Hu. reflexivity.
Qed.

Lemma upload_chunk_ok net self chunk target log next :
  chunk_answer (net log (chunk_request self chunk target)) next ->
  upload_chunk net self chunk target log
  = (ok next, (log ++ [chunk_request self chunk target])%list).
Proof.
  intros (r & j & Hnet & Hst & Hj & Hn).
  unfold upload_chunk, mbind, post, lift. fold (chunk_request self chunk target).
  rewrite Hnet. cbv beta iota delta [ok]. rewrite Hst. cbv beta iota delta [ok].
  rewrite Hj. cbv beta iota delta [ok]. rewrite Hn. reflexivity.
Qed.

Lemma upload_chunk_failure net self chunk target log :
  chunk_failure (net log (chunk_request self chunk target)) ->
  upload_chunk net self chunk target log
  = (raise (chunk_error (net log (chunk_request self chunk target))),
     (log ++ [chunk_request self chunk target])%list).
Proof.
  intros H.
  unfold upload_chunk, mbind, post, lift. fold (chunk_request self chunk target).
  destruct (net log (chunk_request self chunk target)) as [e | r]; [reflexivity|].
  cbn [ok chunk_error]. simpl in H. unfold raise_for_status.
  destruct (Z.ltb_spec (status_code r) 500).
  - replace (400 <=? status_code r) with true by (symmetry; apply Z.leb_le; lia).
    reflexivity.
  - replace (500 <=? status_code r) with true by (symmetry; apply Z.leb_le; lia).
    replace (status_code r <? 600) with true by (symmetry; apply Z.ltb_lt; lia).
    rewrite andb_false_r. reflexivity.
Qed.

Lemma chunk_error_is_of_requests out : is_requests_exception (chunk_error out) = true.
Proof. destruct out as [e | r]; simpl; [reflexivity|]. now destruct (_ <? _). Qed.

(** The three parts of a file of 300000 bytes read by 131072. *)
Lemma parts_of_300000_bytes self content :
  max_part_size self = 131072 ->
  Z.of_nat (List.length content) = 300000 ->
  let n := Z.to_nat 131072 in
  let c1 := firstn n content in
  let c2 := firstn n (skipn n content) in
  let c3 := skipn n (skipn n content) in
  upload_file_in_parts self content = [c1; c2; c3]
  /\ content = (c1 ++ c2 ++ c3)%list
  /\ Z.of_nat (List.length c1) = 131072
  /\ Z.of_nat (List.length c2) = 131072
  /\ Z.of_nat (List.length c3) = 37856.
Proof.
  intros Hsize Hlen n c1 c2 c3.
  assert (Hn : Z.of_nat n = 131072) by (subst n; lia).
  assert (L1 : List.length c1 = n) by (subst c1; rewrite length_firstn; lia).
  assert (L2 : List.length (skipn n content) = (List.length content - n)%nat)
    by apply length_skipn.
  assert (L3 : List.length c2 = n)
    by (subst c2; rewrite length_firstn, L2; lia).
  assert (L4 : List.length c3 = (List.length content - n - n)%nat)
    by (subst c3; rewrite !length_skipn; lia).
  repeat split; try lia.
  - unfold upload_file_in_parts. rewrite Hsize.
    rewrite read_parts_step; [| lia | intros E; rewrite E in Hlen; simpl in Hlen; lia | lia].
    fold n. fold c1.
    rewrite read_parts_step;
      [| lia | intros E; rewrite E in L2; simpl in L2; lia | rewrite L2; lia].
    fold n. fold c2. fold c3.
    rewrite read_parts_step;
      [| lia | intros E; rewrite E in L4; simpl in L4; lia | rewrite L4; lia].
    fold n.
    rewrite (firstn_all2 (n := n) c3) by lia.
    rewrite (skipn_all2 (n := n) c3) by lia.
    now rewrite read_parts_nil.
  - subst c1 c2 c3. now rewrite !firstn_skipn.
Qed.

(** C8.  For a file of 300000 bytes and [max_part_size = 131072], when
    the session is created and every part is accepted, [upload_file] makes
    four calls and returns: the call that creates the session, then the
    three parts of 131072, 131072 and 37856 bytes, in the order of the
    file; the first part goes to the [upload_url] of the session, each
    later one to the [next_url] answered for the part before; after the
    answer that has no [next_url] no call is made. *)
Theorem upload_file_300000_bytes :
  forall (net : network) (self : FileUploadManager) (fs : filesystem)
         (file_path file_name : string) (content : list Byte.byte)
         (log : list request) (u0 u1 u2 : pyval),
    max_part_size self = 131072 ->
    fs file_path = Some content ->
    Z.of_nat (List.length content) = 300000 ->
    let n := Z.to_nat 131072 in
    let c1 := firstn n content in
    let c2 := firstn n (skipn n content) in
    let c3 := skipn n (skipn n content) in
    let q0 := session_request self file_name 300000 in
    let q1 := chunk_request self c1 u0 in
    let q2 := chunk_request self c2 u1 in
    let q3 := chunk_request self c3 u2 in
    session_answer (net log q0) u0 ->
    chunk_answer (net (log ++ [q0])%list q1) u1 ->
    chunk_answer (net (log ++ [q0; q1])%list q2) u2 ->
    chunk_answer (net (log ++ [q0; q1; q2])%list q3) PNone ->
    upload_file net self fs file_path file_name log
    = (ok tt, (log ++ [q0; q1; q2; q3])%list)
    /\ content = (c1 ++ c2 ++ c3)%list
    /\ Z.of_nat (List.length c1) = 131072
    /\ Z.of_nat (List.length c2) = 131072
    /\ Z.of_nat (List.length c3) = 37856.
Proof.
  intros net self fs file_path file_name content log u0 u1 u2 Hsize Hfs Hlen
         n c1 c2 c3 q0 q1 q2 q3 H0 H1 H2 H3.
  destruct (parts_of_300000_bytes self content Hsize Hlen)
    as (Hparts & Hcat & L1 & L2 & L3).
  fold n c1 c2 c3 in Hparts, Hcat, L1, L2, L3.
  split; [| now repeat split].
  unfold upload_file. rewrite Hfs, Hlen, Hparts.
  rewrite (mbind_ok _ _ _ _ _ (create_session_ok net self file_name 300000 log u0 H0)).
  cbn [upload_parts].
  rewrite (mbind_ok _ _ _ _ _ (upload_chunk_ok net self c1 u0 _ u1 H1)).
  replace ((log ++ [q0]) ++ [chunk_request self c1 u0])%list
    with (log ++ [q0; q1])%list by (now rewrite <- app_assoc).
  rewrite (mbind_ok _ _ _ _ _ (upload_chunk_ok net self c2 u1 _ u2 H2)).
  replace ((log ++ [q0; q1]) ++ [chunk_request self c2 u1])%list
    with (log ++ [q0; q1; q2])%list by (now rewrite <- app_assoc).
  rewrite (mbind_ok _ _ _ _ _ (upload_chunk_ok net self c3 u2 _ PNone H3)).
  unfold mret. now rewrite <- app_assoc.
Qed.

Lemma upload_file_300000_bytes_witness :
  let n := Z.to_nat 131072 in
  let c1 := firstn n zeros_300000 in
  let c2 := firstn n (skipn n zeros_300000) in
  let c3 := skipn n (skipn n zeros_300000) in
  upload_file storage_service uploader (fun _ => Some zeros_300000) "cat.jpeg" "cat.jpeg" []
  = (ok tt,
     [ session_request uploader "cat.jpeg" 300000;
       chunk_request uploader c1 (PStr "u0");
       chunk_request uploader c2 (PStr "u1");
       chunk_request uploader c3 (PStr "u2") ])
  /\ zeros_300000 = (c1 ++ c2 ++ c3)%list
  /\ Z.of_nat (List.length c1) = 131072
  /\ Z.of_nat (List.length c2) = 131072
  /\ Z.of_nat (List.length c3) = 37856.
Proof.
  apply (upload_file_300000_bytes storage_service uploader (fun _ => Some zeros_300000)
           "cat.jpeg" "cat.jpeg" zeros_300000 [] (PStr "u0") (PStr "u1") (PStr "u2")).
  - reflexivity.
  - reflexivity.
  - unfold zeros_300000. rewrite repeat_length. lia.
  - exists {| status_code := 200; text := json_text "{'upload_url':'u0'}" |},
      (PDict [("upload_url", PStr "u0")]).
    repeat split; reflexivity.
  - exists {| status_code := 200; text := json_text "{'next_url':'u1'}" |},
      (PDict [("next_url", PStr "u1")]).
    repeat split; reflexivity.
  - exists {| status_code := 200; text := json_text "{'next_url':'u2'}" |},
      (PDict [("next_url", PStr "u2")]).
    repeat split; reflexivity.
  - exists {| status_code := 200; text := json_text "{}" |}, (PDict []).
    repeat split; reflexivity.
Defined.

(** C9 (amended).  For a file of at least three parts, when the session is
    created, the first part is accepted and the call for the second part
    fails in transport or gets a status from 400 to 599, [upload_file]
    stops there: three calls were made, none for a third part, and the
    caller gets the exception of [requests] as it is
    ([RequestException] or [HTTPError]). *)
Theorem upload_file_second_chunk_fails :
  forall (net : network) (self : FileUploadManager) (fs : filesystem)
         (file_path file_name : string) (content : list Byte.byte)
         (log : list request) (p1 p2 p3 : list Byte.byte)
         (more : list (list Byte.byte)) (u0 u1 : pyval),
    fs file_path = Some content ->
    upload_file_in_parts self content = p1 :: p2 :: p3 :: more ->
    let q0 := session_request self file_name (Z.of_nat (List.length content)) in
    let q1 := chunk_request self p1 u0 in
    let q2 := chunk_request self p2 u1 in
    session_answer (net log q0) u0 ->
    chunk_answer (net (log ++ [q0])%list q1) u1 ->
    chunk_failure (net (log ++ [q0; q1])%list q2) ->
    upload_file net self fs file_path file_name log
    = (raise (chunk_error (net (log ++ [q0; q1])%list q2)), (log ++ [q0; q1; q2])%list)
    /\ is_requests_exception (chunk_error (net (log ++ [q0; q1])%list q2)) = true.
Proof.
  intros net self fs file_path file_name content log p1 p2 p3 more u0 u1 Hfs Hparts
         q0 q1 q2 H0 H1 H2.
  split; [| apply chunk_error_is_of_requests].
  unfold upload_file. rewrite Hfs, Hparts.
  rewrite (mbind_ok _ _ _ _ _ (create_session_ok net self file_name _ log u0 H0)).
  cbn [upload_parts].
  rewrite (mbind_ok _ _ _ _ _ (upload_chunk_ok net self p1 u0 _ u1 H1)).
  replace ((log ++ [q0]) ++ [chunk_request self p1 u0])%list
    with (log ++ [q0; q1])%list by (now rewrite <- app_assoc).
  rewrite (mbind_raise _ _ _ _ _ (upload_chunk_failure net self p2 u1 _ H2)).
  now rewrite <- app_assoc.
Qed.

Lemma upload_file_second_chunk_fails_witness :
  let p := [Byte.x00; Byte.x00; Byte.x00; Byte.x00] in
  upload_file storage_service_500 small_uploader (fun _ => Some ten_bytes) "f" "f" []
  = (raise (HTTPError "Server Error"),
     [ session_request small_uploader "f" 10;
       chunk_request small_uploader p (PStr "u0");
       chunk_request small_uploader p (PStr "u1") ])
  /\ is_requests_exception (HTTPError "Server Error") = true.
Proof.
  apply (upload_file_second_chunk_fails storage_service_500 small_uploader
           (fun _ => Some ten_bytes) "f" "f" ten_bytes []
           [Byte.x00; Byte.x00; Byte.x00; Byte.x00] [Byte.x00; Byte.x00; Byte.x00; Byte.x00]
           [Byte.x00; Byte.x00] [] (PStr "u0") (PStr "u1")).
  - reflexivity.
  - reflexivity.
  - exists {| status_code := 200; text := json_text "{'upload_url':'u0'}" |},
      (PDict [("upload_url", PStr "u0")]).
    repeat split; reflexivity.
  - exists {| status_code := 200; text := json_text "{'next_url':'u1'}" |},
      (PDict [("next_url", PStr "u1")]).
    repeat split; reflexivity.
  - simpl. lia.
Defined.

(** C9 as stated fails: when the second of three parts gets an error 500,
    what reaches the caller is the [HTTPError] of [requests], an exception
    of the HTTP library and not an error of the package. *)
Lemma upload_file_leaks_http_error :
  let run := upload_file storage_service_500 small_uploader
               (fun _ => Some ten_bytes) "f" "f" [] in
  List.length (upload_file_in_parts small_uploader ten_bytes) = 3%nat
  /\ fst run = raise (HTTPError "Server Error")
  /\ is_requests_exception (HTTPError "Server Error") = true
  /\ List.length (snd run) = 3%nat.
Proof. cbv zeta. repeat split; vm_compute; reflexivity. Qed.

(** A status outside 200..299 is not always a failure: with 302 for the
    second part the upload goes on and the third part is sent. *)
Example upload_file_continues_after_302 :
  let p := [Byte.x00; Byte.x00; Byte.x00; Byte.x00] in
  upload_file storage_service_302 small_uploader (fun _ => Some ten_bytes) "f" "f" []
  = (ok tt,
     [ session_request small_uploader "f" 10;
       chunk_request small_uploader p (PStr "u0");
       chunk_request small_uploader p (PStr "u1");
       chunk_request small_uploader [Byte.x00; Byte.x00] (PStr "u2") ]).
Proof. vm_compute. reflexivity. Qed.

(** The loop follows the parts of the file, not the answers: after an
    answer without [next_url], the next part is still posted, to the
    address [None]. *)
Example upload_file_goes_on_without_next_url :
  let p := [Byte.x00; Byte.x00; Byte.x00; Byte.x00] in
  upload_file storage_service_no_next small_uploader (fun _ => Some ten_bytes) "f" "f" []
  = (raise (RequestException "Invalid URL 'None': No scheme supplied"),
     [ session_request small_uploader "f" 10;
       chunk_request small_uploader p (PStr "u0");
       chunk_request small_uploader p PNone ]).
Proof. vm_compute. reflexivity. Qed.

End UploadClaims.

(** ** Decoding a token *)

Module TokenClaims.
Import Utils Issuer Base64 TokenFacts SegmentFacts Examples.

(** A character of base64url text: a letter, a digit, [-], [_], or the
    padding [=]. *)
Definition base64url_char (c : ascii) : bool :=
  Urllib.is_upper c || Urllib.is_lower c || Urllib.is_digit c
  || Ascii.eqb c "-" || Ascii.eqb c "_" || Ascii.eqb c "=".

Fixpoint base64url_text (s : string) : bool :=
  match s with
  | EmptyString => true
  | String c rest => base64url_char c && base64url_text rest
  end.

(** Every character of base64url text is one the decoder reads. *)
Lemma base64url_char_data c : base64url_char c = true -> data_char c = true.
Proof.
  destruct c as [[] [] [] [] [] [] [] []]; vm_compute; intros H;
    try discriminate H; reflexivity.
Qed.

Lemma base64url_text_app a b :
  base64url_text (a ++ b) = base64url_text a && base64url_text b.
Proof.
  induction a as [|c a IH]; [reflexivity|]. cbn [append base64url_text].
  now rewrite IH, andb_assoc.
Qed.

(** C7.  [_decode_jwt] does not refuse a middle segment that is not
    base64url text.  A character that is neither of the base64 alphabets
    nor [=] (and no dot), anywhere in an ASCII middle segment, is skipped:
    the token decodes as the token without it; so [h.e30!.s] gives the
    empty object, as [h.e30.s] does.  The docstring of the function
    promises a [ValueError] for a token of incorrect format.  The rest is
    as claimed: the middle segment that is the base64url encoding of a
    text, padded or not, is read back as that text and handed to
    [json.loads]; a token that does not have three segments is a
    [ValueError]. *)
Theorem decode_jwt_accepts_malformed_segment :
  (forall (header before after signature : string) (c : ascii),
      no_dot header = true -> no_dot before = true -> no_dot after = true ->
      no_dot signature = true ->
      is_ascii_str (before ++ String c after) = true ->
      data_char c = false -> c <> "."%char ->
      base64url_text (before ++ String c after) = false
      /\ _decode_jwt (header ++ "." ++ (before ++ String c after) ++ "." ++ signature)
         = _decode_jwt (header ++ "." ++ (before ++ after) ++ "." ++ signature))
  /\ _decode_jwt "h.e30!.s" = ok (PDict [])
  /\ (forall (pad : bool) (header text signature : string),
        no_dot header = true -> no_dot signature = true ->
        _decode_jwt (header ++ "." ++ urlsafe_b64encode pad text ++ "." ++ signature)
        = (payload_json <- Utf8.decode text ;; Json.loads payload_json))
  /\ (forall token : string,
        List.length (split_dot token) <> 3%nat ->
        exists msg, _decode_jwt token = raise (ValueError msg)).
Proof.
  split; [|split; [vm_compute; reflexivity | split]].
  - intros header before after signature c Hh Hb Ha Hs Hascii Hc Hdot. split.
    + rewrite base64url_text_app. cbn [base64url_text].
      destruct (base64url_char c) eqn:E.
      * rewrite (base64url_char_data c E) in Hc. discriminate.
      * now rewrite andb_false_r.
    + assert (Hascii' : is_ascii_str (before ++ after) = true).
      { rewrite is_ascii_app in *. cbn [is_ascii_str] in Hascii.
        apply andb_prop in Hascii. destruct Hascii as [H1 H2].
        apply andb_prop in H2. destruct H2 as [_ H2]. now rewrite H1, H2. }
      assert (Hnd : no_dot (before ++ String c after) = true).
      { rewrite no_dot_app. cbn [no_dot]. rewrite Hb, Ha.
        destruct (Ascii.eqb_spec c "."); [contradiction | reflexivity]. }
      assert (Hnd' : no_dot (before ++ after) = true)
        by (rewrite no_dot_app; now rewrite Hb, Ha).
      rewrite (decode_jwt_only_data header (before ++ String c after) signature)
        by assumption.
      rewrite (decode_jwt_only_data header (before ++ after) signature) by assumption.
      now rewrite only_data_skip.
  - intros pad header text signature. apply decode_jwt_encoded_text.
  - apply decode_jwt_segments.
Qed.

Lemma decode_jwt_accepts_malformed_segment_witness :
  base64url_text ("e30" ++ String "!" "") = false
  /\ _decode_jwt ("h" ++ "." ++ ("e30" ++ String "!" "") ++ "." ++ "s")
     = _decode_jwt ("h" ++ "." ++ ("e30" ++ "") ++ "." ++ "s").
Proof.
  apply (proj1 decode_jwt_accepts_malformed_segment "h" "e30" "" "s" "!"%char);
    try reflexivity.
  discriminate.
Defined.

(** The middle segment [e30!] is not base64url text (it has a [!]), and
    the token is decoded all the same. *)
Lemma decode_jwt_skips_foreign_characters :
  base64url_text "e30!" = false
  /\ split_dot "h.e30!.s" = ["h"; "e30!"; "s"]
  /\ _decode_jwt "h.e30!.s" = ok (PDict []).
Proof. repeat split; vm_compute; reflexivity. Qed.

(** The claims an issuer wrote come back: the token of [{'exp':
    1700000000, 'sub': 'u1'}]. *)
Example decode_jwt_claims :
  _decode_jwt "h.eyJleHAiOjE3MDAwMDAwMDAsInN1YiI6InUxIn0.s"
  = ok (PDict [("exp", PInt 1700000000); ("sub", PStr "u1")]).
Proof. vm_compute. reflexivity. Qed.

(** A middle segment that is JSON but no object is returned as it is:
    [NQ] is the encoding of [5]. *)
Example decode_jwt_number : _decode_jwt "h.NQ.s" = ok (PInt 5).
Proof. vm_compute. reflexivity. Qed.

Example decode_jwt_two_segments :
  _decode_jwt "h.e30"
  = raise (ValueError "not enough values to unpack (expected 3, got 2)").
Proof. reflexivity. Qed.

End TokenClaims.

(** * Further properties of the code *)

(** ** The upload protocol *)

Module UploadProperties.
Import Upload UploadFacts UploadClaims Examples.

(** The part sizes the generator is followed for: [file.read(size)] of a
    file opened in binary mode reads [size] bytes for a positive [size],
    nothing for zero and everything for [-1]; it refuses a size below [-1]
    ("read length must be non-negative or -1"), which [read] does not
    follow.  The properties of the generator are stated for the sizes from
    [-1] up. *)
Definition readable_size (self : FileUploadManager) : Prop :=
  -1 <= max_part_size self.

(** The bytes a call posts. *)
Definition sent_bytes (q : request) : list Byte.byte :=
  match payload q with
  | DataBytes b => b
  | _ => []
  end.

(** The loop over [parts] when every part is accepted: it starts at
    [target] after the calls [log], makes the calls [calls], and [last] is
    the [next_url] of the last answer. *)
Inductive accepted (net : network) (self : FileUploadManager)
  : list request -> pyval -> list (list Byte.byte) -> list request -> pyval -> Prop :=
| accepted_nil log target : accepted net self log target [] [] target
| accepted_cons log target part parts next calls last :
    chunk_answer (net log (chunk_request self part target)) next ->
    accepted net self (log ++ [chunk_request self part target])%list next parts calls last ->
    accepted net self log target (part :: parts)
      (chunk_request self part target :: calls) last.

(** An authorized POST of the uploader. *)
Definition authorized_post (self : FileUploadManager) (q : request) : Prop :=
  method q = "POST"
  /\ In ("Authorization", "Bearer " ++ access_token self) (headers q).

(** *** The generator *)



Lemma read_parts_negative fuel size rest :
  size < 0 -> rest <> [] -> read_parts (S fuel) size rest = [rest].
Proof.
  intros Hs Hr. cbn [read_parts]. unfold read.
  replace (size <? 0) with true by (symmetry; apply Z.ltb_lt; lia).
  destruct rest as [|b rest]; [contradiction|]. now rewrite read_parts_nil.
Qed.







(** *** The calls *)

Lemma create_session_failure net self name size log :
  chunk_failure (net log (session_request self name size)) ->
  create_session net self name size log
  = (raise (chunk_error (net log (session_request self name size))),
     (log ++ [session_request self name size])%list).
Proof.
  intros H.
  unfold create_session, mbind, post, lift. fold (session_request self name size).
  destruct (net log (session_request self name size)) as [e | r]; [reflexivity|].
  cbn [ok chunk_error]. simpl in H. unfold raise_for_status.
  destruct (Z.ltb_spec (status_code r) 500).
  - replace (400 <=? status_code r) with true by (symmetry; apply Z.leb_le; lia).
    reflexivity.
  - replace (500 <=? status_code r) with true by (symmetry; apply Z.leb_le; lia).
    replace (status_code r <? 600) with true by (symmetry; apply Z.ltb_lt; lia).
    rewrite andb_false_r. reflexivity.
Qed.

(** Whatever the network does, [create_session] and [upload_chunk] make
    one call each. *)
Lemma create_session_log net self name size log :
  snd (create_session net self name size log)
  = (log ++ [session_request self name size])%list.
Proof.
  unfold create_session, mbind, post, lift. fold (session_request self name size).
  destruct (net log (session_request self name size)) as [e | r]; [reflexivity|].
  cbv beta iota delta [ok].
  destruct (raise_for_status r) as [e | []]; [reflexivity|].
  destruct (Requests.json r) as [e | j]; [reflexivity|].
  reflexivity.
Qed.

Lemma upload_chunk_log net self chunk target log :
  snd (upload_chunk net self chunk target log)
  = (log ++ [chunk_request self chunk target])%list.
Proof.
  unfold upload_chunk, mbind, post, lift. fold (chunk_request self chunk target).
  destruct (net log (chunk_request self chunk target)) as [e | r]; [reflexivity|].
  cbv beta iota delta [ok].
  destruct (raise_for_status r) as [e | []]; [reflexivity|].
  destruct (Requests.json r) as [e | j]; [reflexivity|].
  reflexivity.
Qed.

Lemma session_request_authorized self name size :
  authorized_post self (session_request self name size).
Proof. split; [reflexivity|]. simpl. auto. Qed.

Lemma chunk_request_authorized self chunk target :
  authorized_post self (chunk_request self chunk target).
Proof. split; [reflexivity|]. simpl. auto. Qed.

(** The loop over parts that are accepted, followed by more parts. *)
Lemma upload_parts_accepted net self log target parts calls last more :
  accepted net self log target parts calls last ->
  upload_parts net self (parts ++ more)%list target log
  = upload_parts net self more last (log ++ calls)%list.
Proof.
  induction 1 as [log target | log target part parts next calls last Hans Hacc IH].
  - now rewrite app_nil_r.
  - cbn [app upload_parts].
    rewrite (mbind_ok _ _ _ _ _ (upload_chunk_ok net self part target log next Hans)).
    rewrite IH. now rewrite <- app_assoc.
Qed.


Lemma accepted_sent net self log target parts calls last :
  accepted net self log target parts calls last ->
  map sent_bytes calls = parts /\ List.length calls = List.length parts.
Proof.
  induction 1 as [| log target part parts next calls last Hans Hacc [IH1 IH2]].
  - split; reflexivity.
  - split; cbn; [now rewrite IH1 | now rewrite IH2].
Qed.

(** Whatever the network does, the loop makes at most one call for each
    part, every one an authorized POST, and as many calls as parts when it
    returns. *)
Lemma upload_parts_calls net self parts :
  forall target log,
  exists calls,
    snd (upload_parts net self parts target log) = (log ++ calls)%list
    /\ Forall (authorized_post self) calls
    /\ (List.length calls <= List.length parts)%nat
    /\ (fst (upload_parts net self parts target log) = ok tt ->
        List.length calls = List.length parts).
Proof.
  induction parts as [|part parts IH]; intros target log.
  - exists []. cbn. rewrite app_nil_r. split; [reflexivity|]. split; [constructor|]. split; auto.
  - cbn [upload_parts]. unfold mbind.
    pose proof (upload_chunk_log net self part target log) as Hlog.
    destruct (upload_chunk net self part target log) as [[e | next] log'] eqn:E;
      cbn [snd] in Hlog; subst log'.
    + exists [chunk_request self part target]. cbv beta iota. cbn [fst snd List.length].
      split; [reflexivity|]. split; [|split; [lia | discriminate]].
      constructor; [apply chunk_request_authorized | constructor].
    + destruct (IH next (log ++ [chunk_request self part target])%list)
        as (calls & Hsnd & Hall & Hlen & Hok).
      exists (chunk_request self part target :: calls). cbv beta iota.
      rewrite Hsnd, <- app_assoc. cbn [List.length app].
      split; [reflexivity|]. split; [|split; [lia|]].
      * constructor; [apply chunk_request_authorized | assumption].
      * intros H. now rewrite (Hok H).
Qed.






(** X3.  The part size [-1] reads the whole file at once: a file that has
    bytes is one part. *)
Theorem upload_file_in_parts_whole_file :
  forall (self : FileUploadManager) (content : list Byte.byte),
    max_part_size self = -1 -> content <> [] ->
    upload_file_in_parts self content = [content].
Proof.
  intros self content Hsize Hne. unfold upload_file_in_parts.
  destruct content as [|b content]; [contradiction|].
  cbn [List.length]. apply read_parts_negative; [lia | assumption].
Qed.

Lemma upload_file_in_parts_whole_file_witness :
  upload_file_in_parts (__init__ "T" (-1)) ten_bytes = [ten_bytes].
Proof.
  apply (upload_file_in_parts_whole_file (__init__ "T" (-1)) ten_bytes).
  - reflexivity.
  - discriminate.
Defined.






(** X6.  For a part size from [-1] up, when the session is created, the
    parts before some part are accepted and the call for that part fails in
    transport or gets a status from 400 to 599, [upload_file] stops there
    with the exception of [requests]: the failed call is the last one, and
    no later part is posted. *)
Theorem upload_file_part_fails :
  forall (net : network) (self : FileUploadManager) (fs : filesystem)
         (file_path file_name : string) (content : list Byte.byte)
         (log calls : list request) (before after : list (list Byte.byte))
         (part : list Byte.byte) (u0 target : pyval),
    readable_size self ->
    fs file_path = Some content ->
    upload_file_in_parts self content = (before ++ part :: after)%list ->
    let q0 := session_request self file_name (Z.of_nat (List.length content)) in
    let q := chunk_request self part target in
    session_answer (net log q0) u0 ->
    accepted net self (log ++ [q0])%list u0 before calls target ->
    chunk_failure (net (log ++ q0 :: calls)%list q) ->
    upload_file net self fs file_path file_name log
    = (raise (chunk_error (net (log ++ q0 :: calls)%list q)),
       (log ++ q0 :: calls ++ [q])%list)
    /\ is_requests_exception (chunk_error (net (log ++ q0 :: calls)%list q)) = true
    /\ List.length calls = List.length before.
Proof.
  intros net self fs file_path file_name content log calls before after part u0 target
         _ Hfs Hparts q0 q H0 Hacc Hfail.
  split; [| split; [apply chunk_error_is_of_requests | apply (accepted_sent _ _ _ _ _ _ _ Hacc)]].
  unfold upload_file. rewrite Hfs, Hparts.
  rewrite (mbind_ok _ _ _ _ _ (create_session_ok net self file_name _ log u0 H0)).
  fold q0. rewrite (upload_parts_accepted _ _ _ _ _ _ _ (part :: after) Hacc).
  cbn [upload_parts].
  replace ((log ++ [q0]) ++ calls)%list with (log ++ q0 :: calls)%list
    by (now rewrite <- app_assoc).
  rewrite (mbind_raise _ _ _ _ _ (upload_chunk_failure net self part target _ Hfail)).
  fold q. now rewrite <- app_assoc.
Qed.

Lemma upload_file_part_fails_witness :
  let p := [Byte.x00; Byte.x00; Byte.x00; Byte.x00] in
  upload_file storage_service_500 small_uploader (fun _ => Some ten_bytes) "f" "f" []
  = (raise (HTTPError "Server Error"),
     [ session_request small_uploader "f" 10;
       chunk_request small_uploader p (PStr "u0");
       chunk_request small_uploader p (PStr "u1") ])
  /\ is_requests_exception (HTTPError "Server Error") = true
  /\ List.length [chunk_request small_uploader p (PStr "u0")] = 1%nat.
Proof.
  apply (upload_file_part_fails storage_service_500 small_uploader
           (fun _ => Some ten_bytes) "f" "f" ten_bytes []
           [chunk_request small_uploader [Byte.x00; Byte.x00; Byte.x00; Byte.x00] (PStr "u0")]
           [[Byte.x00; Byte.x00; Byte.x00; Byte.x00]] [[Byte.x00; Byte.x00]]
           [Byte.x00; Byte.x00; Byte.x00; Byte.x00] (PStr "u0") (PStr "u1")).
  - unfold readable_size. simpl. lia.
  - reflexivity.
  - reflexivity.
  - exists {| status_code := 200; text := json_text "{'upload_url':'u0'}" |},
      (PDict [("upload_url", PStr "u0")]).
    repeat split; reflexivity.
  - apply accepted_cons with (next := PStr "u1").
    { exists {| status_code := 200; text := json_text "{'next_url':'u1'}" |},
        (PDict [("next_url", PStr "u1")]).
      repeat split; reflexivity. }
    apply accepted_nil.
  - simpl. lia.
Defined.

(** X7.  Nothing of the file is posted when the upload cannot start: for a
    path that does not exist [upload_file] raises [FileNotFoundError]
    before any call, and when the call that creates the session fails in
    transport or gets a status from 400 to 599 it raises the exception of
    [requests] after that one call. *)
Theorem upload_file_cannot_start :
  forall (net : network) (self : FileUploadManager) (fs : filesystem)
         (file_path file_name : string) (log : list request),
    (fs file_path = None ->
     upload_file net self fs file_path file_name log
     = (raise (FileNotFoundError file_path), log))
    /\ (forall content : list Byte.byte,
          fs file_path = Some content ->
          let q0 := session_request self file_name (Z.of_nat (List.length content)) in
          chunk_failure (net log q0) ->
          upload_file net self fs file_path file_name log
          = (raise (chunk_error (net log q0)), (log ++ [q0])%list)
          /\ is_requests_exception (chunk_error (net log q0)) = true).
Proof.
  intros net self fs file_path file_name log. split.
  - intros Hfs. unfold upload_file. now rewrite Hfs.
  - intros content Hfs q0 Hfail. split; [| apply chunk_error_is_of_requests].
    unfold upload_file. rewrite Hfs.
    now rewrite (mbind_raise _ _ _ _ _ (create_session_failure net self file_name _ log Hfail)).
Qed.

Lemma upload_file_cannot_start_witness :
  upload_file unreachable small_uploader (fun _ => None) "f" "f" []
  = (raise (FileNotFoundError "f"), [])
  /\ upload_file unreachable small_uploader (fun _ => Some ten_bytes) "f" "f" []
     = (raise (RequestException "Connection refused"),
        [session_request small_uploader "f" 10]).
Proof.
  split.
  - apply (proj1 (upload_file_cannot_start unreachable small_uploader (fun _ => None)
                    "f" "f" [])).
    reflexivity.
  - apply (proj2 (upload_file_cannot_start unreachable small_uploader
                    (fun _ => Some ten_bytes) "f" "f" []) ten_bytes).
    + reflexivity.
    + exact I.
Defined.

(** X8.  When the answer that creates the session is a JSON object without
    [upload_url], [create_session] raises [KeyError] after its call;
    [upload_file] then raises it too and posts no part. *)
Theorem create_session_without_upload_url :
  forall (net : network) (self : FileUploadManager) (fs : filesystem)
         (file_path file_name : string) (content : list Byte.byte)
         (log : list request) (r : response) (items : list (string * pyval)),
    fs file_path = Some content ->
    let q0 := session_request self file_name (Z.of_nat (List.length content)) in
    net log q0 = Answered r ->
    raise_for_status r = ok tt ->
    Requests.json r = ok (PDict items) ->
    dict_get "upload_url" items = None ->
    create_session net self file_name (Z.of_nat (List.length content)) log
    = (raise (KeyError "upload_url"), (log ++ [q0])%list)
    /\ upload_file net self fs file_path file_name log
       = (raise (KeyError "upload_url"), (log ++ [q0])%list).
Proof.
  intros net self fs file_path file_name content log r items Hfs q0 Hnet Hst Hj Hkey.
  assert (Hs : create_session net self file_name (Z.of_nat (List.length content)) log
               = (raise (KeyError "upload_url"), (log ++ [q0])%list)).
  { unfold create_session, mbind, post, lift.
    fold (session_request self file_name (Z.of_nat (List.length content))). fold q0.
    rewrite Hnet. cbv beta iota delta [ok]. rewrite Hst. cbv beta iota delta [ok].
    rewrite Hj. cbv beta iota delta [ok]. unfold py_getitem. now rewrite Hkey. }
  split; [exact Hs|].
  unfold upload_file. rewrite Hfs. now rewrite (mbind_raise _ _ _ _ _ Hs).
Qed.

Lemma create_session_without_upload_url_witness :
  create_session (always 200 (json_text "{}")) small_uploader "f" 10 []
  = (raise (KeyError "upload_url"), [session_request small_uploader "f" 10])
  /\ upload_file (always 200 (json_text "{}")) small_uploader (fun _ => Some ten_bytes)
       "f" "f" []
     = (raise (KeyError "upload_url"), [session_request small_uploader "f" 10]).
Proof.
  apply (create_session_without_upload_url (always 200 (json_text "{}")) small_uploader
           (fun _ => Some ten_bytes) "f" "f" ten_bytes []
           {| status_code := 200; text := json_text "{}" |} []);
    reflexivity.
Defined.

(** X9.  The loop follows the parts, not the answers: when a part is
    accepted with an answer that has no [next_url] and a part is left, the
    next call posts that part to the address [None]. *)
Theorem upload_parts_without_next_url :
  forall (net : network) (self : FileUploadManager) (log : list request)
         (target : pyval) (part next_part : list Byte.byte)
         (rest : list (list Byte.byte)),
    chunk_answer (net log (chunk_request self part target)) PNone ->
    exists more : list request,
      snd (upload_parts net self (part :: next_part :: rest) target log)
      = (log ++ chunk_request self part target
             :: chunk_request self next_part PNone :: more)%list.
Proof.
  intros net self log target part next_part rest Hans.
  cbn [upload_parts].
  rewrite (mbind_ok _ _ _ _ _ (upload_chunk_ok net self part target log PNone Hans)).
  unfold mbind.
  pose proof (upload_chunk_log net self next_part PNone
                (log ++ [chunk_request self part target])%list) as Hlog.
  destruct (upload_chunk net self next_part PNone _) as [[e | next] log'];
    cbn [snd] in Hlog; subst log'.
  - exists []. cbn [snd]. now rewrite <- app_assoc.
  - destruct (upload_parts_calls net self rest next
                ((log ++ [chunk_request self part target])
                 ++ [chunk_request self next_part PNone])%list)
      as (calls & Hsnd & _).
    exists calls. rewrite Hsnd. now rewrite <- !app_assoc.
Qed.

Lemma upload_parts_without_next_url_witness :
  exists more : list request,
    snd (upload_parts storage_service_no_next small_uploader
           [[Byte.x00]; [Byte.x01]; [Byte.x02]] (PStr "u0")
           [session_request small_uploader "f" 3])
    = ([session_request small_uploader "f" 3]
         ++ chunk_request small_uploader [Byte.x00] (PStr "u0")
         :: chunk_request small_uploader [Byte.x01] PNone :: more)%list.
Proof.
  apply (upload_parts_without_next_url storage_service_no_next small_uploader
           [session_request small_uploader "f" 3] (PStr "u0") [Byte.x00] [Byte.x01]
           [[Byte.x02]]).
  exists {| status_code := 200; text := json_text "{}" |}, (PDict []).
  repeat split; reflexivity.
Defined.

(** X10.  Whatever the network answers, for a file that exists and a part
    size from [-1] up, [upload_file] only adds calls to the log, at most
    one for the session and one for each part; every call it makes is a
    POST that carries the bearer token of the uploader; and when it returns
    it has made exactly one call for the session and one for each part. *)
Theorem upload_file_calls :
  forall (net : network) (self : FileUploadManager) (fs : filesystem)
         (file_path file_name : string) (content : list Byte.byte)
         (log : list request),
    readable_size self ->
    fs file_path = Some content ->
    exists calls : list request,
      snd (upload_file net self fs file_path file_name log) = (log ++ calls)%list
      /\ Forall (authorized_post self) calls
      /\ (List.length calls <= 1 + List.length (upload_file_in_parts self content))%nat
      /\ (fst (upload_file net self fs file_path file_name log) = ok tt ->
          List.length calls = (1 + List.length (upload_file_in_parts self content))%nat).
Proof.
  intros net self fs file_path file_name content log _ Hfs.
  unfold upload_file. rewrite Hfs. unfold mbind.
  pose proof (create_session_log net self file_name (Z.of_nat (List.length content)) log)
    as Hlog.
  destruct (create_session net self file_name _ log) as [[e | u0] log'];
    cbn [snd] in Hlog; subst log'.
  - exists [session_request self file_name (Z.of_nat (List.length content))].
    cbn [fst snd List.length].
    split; [reflexivity|]. split; [|split; [lia | discriminate]].
    constructor; [apply session_request_authorized | constructor].
  - destruct (upload_parts_calls net self (upload_file_in_parts self content) u0
                (log ++ [session_request self file_name (Z.of_nat (List.length content))])%list)
      as (calls & Hsnd & Hall & Hlen & Hok).
    exists (session_request self file_name (Z.of_nat (List.length content)) :: calls).
    rewrite Hsnd, <- app_assoc. cbn [List.length app].
    split; [reflexivity|]. split; [|split; [lia|]].
    + constructor; [apply session_request_authorized | assumption].
    + intros H. now rewrite (Hok H).
Qed.

Lemma upload_file_calls_witness :
  exists calls : list request,
    snd (upload_file storage_service_500 small_uploader (fun _ => Some ten_bytes) "f" "f" [])
    = ([] ++ calls)%list
    /\ Forall (authorized_post small_uploader) calls
    /\ (List.length calls <= 1 + List.length (upload_file_in_parts small_uploader ten_bytes))%nat
    /\ (fst (upload_file storage_service_500 small_uploader (fun _ => Some ten_bytes) "f" "f" [])
        = ok tt ->
        List.length calls
        = (1 + List.length (upload_file_in_parts small_uploader ten_bytes))%nat).
Proof.
  apply (upload_file_calls storage_service_500 small_uploader (fun _ => Some ten_bytes)
           "f" "f" ten_bytes []).
  - unfold readable_size. simpl. lia.
  - reflexivity.
Defined.

End UploadProperties.

(** ** [OAuthClient] *)

Module OAuthProperties.
Import OAuth Examples OAuthClaims UploadFacts.

(** The refresh token [get_access_token] and [refresh_access_token] store
    for an answer: [token_data.get("refresh_token")]. *)
Definition answered_refresh_token (items : list (string * pyval)) : pyval :=
  match dict_get "refresh_token" items with
  | Some v => v
  | None => PNone
  end.

(** The client after a token endpoint answered for the account at
    [address]. *)
Definition with_tokens (c : OAuthClient) (address : option string)
    (access refresh : pyval) : OAuthClient :=
  {| config := config c;
     access_token := access;
     refresh_token := refresh;
     longlive_token := longlive_token c;
     api_key := api_key c;
     base_url := address |}.

Definition account_address (subdomain : string) : string :=
  "https://" ++ subdomain ++ ".amocrm.ru".

(** The request of [_make_authenticated_request]. *)
Definition api_request (__version__ : string) (address token endpoint method : string)
    (b : body) : request :=
  {| method := method;
     url := PStr (address ++ "/" ++ endpoint);
     headers := [ ("Authorization", "Bearer " ++ token);
                  ("Content-Type", "application/json");
                  ("User-Agent", "amocrm-api-middleware/" ++ __version__) ];
     payload := b |}.


(** *** Exchanging the authorization code *)

Lemma get_access_token_unfold net c log code subdomain :
  get_access_token net code subdomain (c, log)
  = mbind (_make_post_request net (exchange_url subdomain)
             (PDict [ ("client_id", PStr (client_id (config c)));
                      ("client_secret", PStr (client_secret (config c)));
                      ("redirect_uri", PStr (redirect_uri (config c)));
                      ("code", PStr code);
                      ("grant_type", PStr "authorization_code") ]))
      (fun token_data =>
         access <~ lift (py_getitem token_data "access_token") ;;
         set_self (set_access_token access) ;;;
         refresh <~ lift (py_get token_data "refresh_token") ;;
         set_self (set_refresh_token refresh) ;;;
         mret token_data)
      (set_base_url (Some (account_address subdomain)) c, log).
Proof. reflexivity. Qed.

Lemma get_access_token_200 net c log code subdomain r items access :
  net log (exchange_request c code subdomain) = Answered r ->
  status_code r = 200 ->
  Json.loads (text r) = ok (PDict items) ->
  dict_get "access_token" items = Some access ->
  get_access_token net code subdomain (c, log)
  = (ok (PDict items),
     (with_tokens c (Some (account_address subdomain)) access
        (answered_refresh_token items),
      (log ++ [exchange_request c code subdomain])%list)).
Proof.
  intros Hnet Hst Hjson Hacc.
  rewrite get_access_token_unfold.
  unfold mbind at 1.
  rewrite (make_post_request_200 net _ log _ _ r Hnet Hst).
  unfold Requests.json. rewrite Hjson.
  unfold mbind, lift, set_self, mret, py_getitem, py_get, answered_refresh_token. cbn.
  rewrite Hacc. destruct (dict_get "refresh_token" items); reflexivity.
Qed.

(** X11.  When the token endpoint answers 200 with a JSON object that has
    [access_token], [get_access_token] returns that object after one call;
    the client then holds the address of the account, the access token of
    the answer and its [refresh_token] ([None] when the answer has none);
    the long-lived token and the API key stay. *)
Theorem get_access_token_stores_tokens :
  forall (net : network) (c : OAuthClient) (log : list request)
         (code subdomain : string) (r : response)
         (items : list (string * pyval)) (access : pyval),
    net log (exchange_request c code subdomain) = Answered r ->
    status_code r = 200 ->
    Json.loads (text r) = ok (PDict items) ->
    dict_get "access_token" items = Some access ->
    get_access_token net code subdomain (c, log)
    = (ok (PDict items),
       (with_tokens c (Some (account_address subdomain)) access
          (answered_refresh_token items),
        (log ++ [exchange_request c code subdomain])%list)).
Proof.
  intros net c log code subdomain r items access. apply get_access_token_200.
Qed.

Lemma get_access_token_stores_tokens_witness :
  get_access_token (always 200 (json_text "{'access_token':'A2','refresh_token':'R2'}"))
    "code" "acme" (__init__ example_config, [])
  = (ok (PDict [("access_token", PStr "A2"); ("refresh_token", PStr "R2")]),
     (with_tokens (__init__ example_config) (Some "https://acme.amocrm.ru")
        (PStr "A2") (PStr "R2"),
      [exchange_request (__init__ example_config) "code" "acme"])).
Proof.
  apply (get_access_token_stores_tokens
           (always 200 (json_text "{'access_token':'A2','refresh_token':'R2'}"))
           (__init__ example_config) [] "code" "acme"
           {| status_code := 200;
              text := json_text "{'access_token':'A2','refresh_token':'R2'}" |}
           [("access_token", PStr "A2"); ("refresh_token", PStr "R2")] (PStr "A2"));
    reflexivity.
Defined.

(** What reading [access_token] off an answer raises is no [OAuthError]. *)
Lemma access_token_error r e :
  (token_data <- Requests.json r ;; py_getitem token_data "access_token") = raise e ->
  is_OAuthError e = false.
Proof.
  unfold Requests.json. destruct (Json.loads (text r)) as [e' | j]; cbn.
  - intros H. injection H as <-. reflexivity.
  - unfold py_getitem.
    destruct j as [| | | | | |items]; cbn; try (intros H; injection H as <-; reflexivity).
    destruct (dict_get "access_token" items); cbn; intros H; [discriminate|].
    injection H as <-. reflexivity.
Qed.

(** X12.  When the token endpoint answers 200 and the body is not JSON,
    or is JSON without [access_token], [get_access_token] raises what
    reading the answer raises (the JSON error of [requests], a [KeyError]
    or a [TypeError]), which is no [OAuthError]; the two tokens keep their
    values, the address of the account is set, and one call was made. *)
Theorem get_access_token_unusable_answer :
  forall (net : network) (c : OAuthClient) (log : list request)
         (code subdomain : string) (r : response) (e : exn),
    net log (exchange_request c code subdomain) = Answered r ->
    status_code r = 200 ->
    (token_data <- Requests.json r ;; py_getitem token_data "access_token") = raise e ->
    get_access_token net code subdomain (c, log)
    = (raise e,
       (with_tokens c (Some (account_address subdomain)) (access_token c) (refresh_token c),
        (log ++ [exchange_request c code subdomain])%list))
    /\ is_OAuthError e = false.
Proof.
  intros net c log code subdomain r e Hnet Hst Herr.
  split; [| exact (access_token_error r e Herr)].
  rewrite get_access_token_unfold.
  unfold mbind at 1.
  rewrite (make_post_request_200 net _ log _ _ r Hnet Hst).
  destruct (Requests.json r) as [e' | j]; cbn in Herr.
  - injection Herr as <-. reflexivity.
  - unfold mbind at 1. unfold lift at 1. rewrite Herr. reflexivity.
Qed.

Lemma get_access_token_unusable_answer_witness :
  get_access_token (always 200 "<html>") "code" "acme" (authorized_client, [])
  = (raise (RequestsJSONDecodeError "Expecting value"),
     (with_tokens authorized_client (Some (account_address "acme")) (PStr "A1") (PStr "R1"),
      [exchange_request authorized_client "code" "acme"]))
  /\ is_OAuthError (RequestsJSONDecodeError "Expecting value") = false.
Proof.
  apply (get_access_token_unusable_answer (always 200 "<html>") authorized_client []
           "code" "acme" {| status_code := 200; text := "<html>" |}
           (RequestsJSONDecodeError "Expecting value"));
    reflexivity.
Defined.

(** *** Refreshing *)

Lemma refresh_access_token_unfold net c log :
  truthy (refresh_token c) = true ->
  refresh_access_token net (c, log)
  = mbind (_make_post_request net (str_base_url c ++ "/oauth2/access_token")
             (PDict [ ("client_id", PStr (client_id (config c)));
                      ("client_secret", PStr (client_secret (config c)));
                      ("grant_type", PStr "refresh_token");
                      ("refresh_token", refresh_token c) ]))
      (fun token_data =>
         access <~ lift (py_getitem token_data "access_token") ;;
         set_self (set_access_token access) ;;;
         refresh <~ lift (py_get token_data "refresh_token") ;;
         set_self (set_refresh_token refresh) ;;;
         mret token_data)
      (c, log).
Proof.
  intros H. unfold refresh_access_token.
  unfold mbind at 1. unfold self_ at 1. cbn [fst snd ok].
  rewrite H. reflexivity.
Qed.

Lemma refresh_access_token_refused net c log :
  truthy (refresh_token c) = false ->
  refresh_access_token net (c, log)
  = (raise (OAuthError "No refresh token available"), (c, log)).
Proof.
  intros H. unfold refresh_access_token.
  unfold mbind at 1. unfold self_ at 1. cbn [fst snd ok].
  rewrite H. reflexivity.
Qed.

(** X13.  When a refresh token is stored and the call of
    [refresh_access_token] fails in transport or gets a status other than
    200, the method raises an [OAuthError] that carries the failure or the
    body of the response, and the client is what it was: the refresh token
    is kept. *)
Theorem refresh_access_token_failure :
  forall (net : network) (c : OAuthClient) (log : list request),
    truthy (refresh_token c) = true ->
    not_200 (net log (refresh_request c)) ->
    refresh_access_token net (c, log)
    = (raise (OAuthError (failure_message (str_base_url c ++ "/oauth2/access_token")
                            (net log (refresh_request c)))),
       (c, (log ++ [refresh_request c])%list)).
Proof.
  intros net c log Htok H.
  rewrite refresh_access_token_unfold by assumption.
  unfold mbind at 1.
  now rewrite make_post_request_not_200 by exact H.
Qed.

Lemma refresh_access_token_failure_witness :
  refresh_access_token unreachable (authorized_client, [])
  = (raise (OAuthError "Request failed: Connection refused"),
     (authorized_client, [refresh_request authorized_client])).
Proof.
  apply (refresh_access_token_failure unreachable authorized_client []).
  - reflexivity.
  - exact I.
Defined.

(** X14.  When a refresh token is stored and the token endpoint answers
    200 with a JSON object that has [access_token], [refresh_access_token]
    returns that object after one call and stores the access token and the
    [refresh_token] of the answer ([None] when it has none); the address of
    the account and the other fields stay. *)
Theorem refresh_access_token_rotates :
  forall (net : network) (c : OAuthClient) (log : list request)
         (r : response) (items : list (string * pyval)) (access : pyval),
    truthy (refresh_token c) = true ->
    net log (refresh_request c) = Answered r ->
    status_code r = 200 ->
    Json.loads (text r) = ok (PDict items) ->
    dict_get "access_token" items = Some access ->
    refresh_access_token net (c, log)
    = (ok (PDict items),
       (with_tokens c (base_url c) access (answered_refresh_token items),
        (log ++ [refresh_request c])%list)).
Proof.
  intros net c log r items access Htok Hnet Hst Hjson Hacc.
  rewrite refresh_access_token_unfold by assumption.
  unfold mbind at 1.
  rewrite (make_post_request_200 net c log _ _ r Hnet Hst).
  unfold Requests.json. rewrite Hjson.
  unfold mbind, lift, set_self, mret, py_getitem, py_get, answered_refresh_token. cbn.
  rewrite Hacc. destruct (dict_get "refresh_token" items); reflexivity.
Qed.

Lemma refresh_access_token_rotates_witness :
  refresh_access_token (always 200 (json_text "{'access_token':'A2','refresh_token':'R2'}"))
    (authorized_client, [])
  = (ok (PDict [("access_token", PStr "A2"); ("refresh_token", PStr "R2")]),
     (with_tokens authorized_client (Some "https://acme.amocrm.ru") (PStr "A2") (PStr "R2"),
      [refresh_request authorized_client])).
Proof.
  apply (refresh_access_token_rotates
           (always 200 (json_text "{'access_token':'A2','refresh_token':'R2'}"))
           authorized_client []
           {| status_code := 200;
              text := json_text "{'access_token':'A2','refresh_token':'R2'}" |}
           [("access_token", PStr "A2"); ("refresh_token", PStr "R2")] (PStr "A2"));
    reflexivity.
Defined.

(** Whatever the network does, a refresh with a token makes one call. *)
Lemma make_post_request_log net c log url data :
  snd (_make_post_request net url data (c, log))
  = (c, (log ++ [ {| method := "POST"; url := PStr url; headers := [];
                     payload := JsonBody data |} ])%list).
Proof.
  unfold _make_post_request, _make_request, mbind, call, mret, mraise, lift. simpl.
  destruct (net log _) as [e | r]; simpl; [reflexivity|].
  destruct (status_code r =? 200); reflexivity.
Qed.

Lemma refresh_access_token_log net c log :
  truthy (refresh_token c) = true ->
  snd (snd (refresh_access_token net (c, log))) = (log ++ [refresh_request c])%list.
Proof.
  intros H. rewrite refresh_access_token_unfold by assumption.
  unfold mbind at 1.
  pose proof (make_post_request_log net c log (str_base_url c ++ "/oauth2/access_token")
                (PDict [ ("client_id", PStr (client_id (config c)));
                         ("client_secret", PStr (client_secret (config c)));
                         ("grant_type", PStr "refresh_token");
                         ("refresh_token", refresh_token c) ])) as Hlog.
  destruct (_make_post_request net _ _ (c, log)) as [[e | j] st]; cbn [snd] in Hlog; subst st.
  - reflexivity.
  - unfold mbind, lift, set_self, mret.
    destruct (py_getitem j "access_token") as [e | a]; [reflexivity|].
    cbn [fst snd ok].
    destruct (py_get j "refresh_token") as [e | a']; reflexivity.
Qed.

(** X15.  [get_access_token] followed by [refresh_access_token]: after an
    exchange that succeeded, when the answer had no [refresh_token] (or an
    empty one) the refresh is refused with "No refresh token available"
    and no second call is made; otherwise the second call posts the
    [refresh_token] of the answer, with the client id and secret, to the
    token endpoint of the same account. *)
Theorem exchange_then_refresh :
  forall (net : network) (c : OAuthClient) (log : list request)
         (code subdomain : string) (r : response)
         (items : list (string * pyval)) (access : pyval),
    net log (exchange_request c code subdomain) = Answered r ->
    status_code r = 200 ->
    Json.loads (text r) = ok (PDict items) ->
    dict_get "access_token" items = Some access ->
    let run := (get_access_token net code subdomain ;;; refresh_access_token net) (c, log) in
    let q0 := exchange_request c code subdomain in
    (truthy (answered_refresh_token items) = false ->
     run = (raise (OAuthError "No refresh token available"),
            (with_tokens c (Some (account_address subdomain)) access
               (answered_refresh_token items),
             (log ++ [q0])%list)))
    /\ (truthy (answered_refresh_token items) = true ->
        snd (snd run)
        = (log ++ [ q0;
                    {| method := "POST";
                       url := PStr (exchange_url subdomain);
                       headers := [];
                       payload := JsonBody
                         (PDict [ ("client_id", PStr (client_id (config c)));
                                  ("client_secret", PStr (client_secret (config c)));
                                  ("grant_type", PStr "refresh_token");
                                  ("refresh_token", answered_refresh_token items) ]) |} ])%list).
Proof.
  intros net c log code subdomain r items access Hnet Hst Hjson Hacc run q0.
  subst run.
  rewrite (mbind_ok _ _ _ _ _
             (get_access_token_200 net c log code subdomain r items access
                Hnet Hst Hjson Hacc)).
  split; intros Htok.
  - now apply refresh_access_token_refused.
  - rewrite refresh_access_token_log by exact Htok.
    rewrite <- app_assoc. reflexivity.
Qed.


Lemma exchange_then_refresh_witness :
  let net := always 200 (json_text "{'access_token':'A2'}") in
  (get_access_token net "code" "acme" ;;; refresh_access_token net)
    (__init__ example_config, [])
  = (raise (OAuthError "No refresh token available"),
     (with_tokens (__init__ example_config) (Some (account_address "acme")) (PStr "A2") PNone,
      [exchange_request (__init__ example_config) "code" "acme"])).
Proof.
  apply (proj1 (exchange_then_refresh (always 200 (json_text "{'access_token':'A2'}"))
                  (__init__ example_config) [] "code" "acme"
                  {| status_code := 200; text := json_text "{'access_token':'A2'}" |}
                  [("access_token", PStr "A2")] (PStr "A2")
                  eq_refl eq_refl eq_refl eq_refl)).
  reflexivity.
Defined.

(** *** [_make_request] *)



(** *** Authenticated requests *)

Lemma make_authenticated_request_get net version c log endpoint data token :
  py_str (bearer_token c) = ok token ->
  _make_authenticated_request net version endpoint "GET" data (c, log)
  = (match net log (api_request version (str_base_url c) token endpoint "GET" NoBody) with
     | Answered r => Requests.json r
     | Failed e => raise (OAuthError ("Request failed: " ++ e))
     end,
     (c, (log ++ [api_request version (str_base_url c) token endpoint "GET" NoBody])%list)).
Proof.
  intros Htok. unfold _make_authenticated_request.
  unfold mbind at 1. unfold self_ at 1. cbn [fst snd ok].
  unfold mbind at 1. unfold lift at 1. rewrite Htok. cbv beta iota delta [ok].
  unfold _make_request. cbn [String.eqb Ascii.eqb Bool.eqb].
  unfold mbind, call, mret, mraise, lift. cbn [fst snd ok].
  fold (api_request version (str_base_url c) token endpoint "GET" NoBody).
  destruct (net log _) as [e | r]; reflexivity.
Qed.

(** X17.  [get_domain_info] sends one GET to [<base_url>/api/v4/domain]
    with the bearer token, [Content-Type] and [User-Agent] headers and no
    body, does not use its argument, and returns the JSON body of the
    response whatever its status: the status is not looked at. *)
Theorem get_domain_info_returns_any_answer :
  forall (net : network) (version refresh : string) (c : OAuthClient)
         (log : list request) (token : string) (r : response),
    py_str (bearer_token c) = ok token ->
    let q := api_request version (str_base_url c) token "api/v4/domain" "GET" NoBody in
    net log q = Answered r ->
    get_domain_info net version refresh (c, log)
    = (Requests.json r, (c, (log ++ [q])%list)).
Proof.
  intros net version refresh c log token r Htok q Hnet.
  unfold get_domain_info.
  rewrite (make_authenticated_request_get net version c log _ None token Htok).
  fold q. now rewrite Hnet.
Qed.

Lemma get_domain_info_returns_any_answer_witness :
  get_domain_info (always 401 (json_text "{'status':401}")) "1.0" "unused"
    (authorized_client, [])
  = (ok (PDict [("status", PInt 401)]),
     (authorized_client,
      [api_request "1.0" "https://acme.amocrm.ru" "A1" "api/v4/domain" "GET" NoBody])).
Proof.
  apply (get_domain_info_returns_any_answer (always 401 (json_text "{'status':401}"))
           "1.0" "unused" authorized_client [] "A1"
           {| status_code := 401; text := json_text "{'status':401}" |});
    reflexivity.
Defined.

(** X18.  In whichever order [set_longlive_token] and
    [set_oauth_credentials] are called, the request of [get_domain_info]
    carries the long-lived token when it is not empty, and the access token
    when it is; the address is that of the account given last. *)
Theorem long_lived_token_takes_precedence :
  forall (net : network) (version refresh_arg : string)
         (token subdomain access refresh subdomain' : string)
         (c : OAuthClient) (log : list request),
    let bearer := if String.eqb token "" then access else token in
    snd (snd ((set_longlive_token token subdomain ;;;
               set_oauth_credentials access refresh subdomain' ;;;
               get_domain_info net version refresh_arg) (c, log)))
    = (log ++ [api_request version (account_address subdomain') bearer
                 "api/v4/domain" "GET" NoBody])%list
    /\ snd (snd ((set_oauth_credentials access refresh subdomain' ;;;
                  set_longlive_token token subdomain ;;;
                  get_domain_info net version refresh_arg) (c, log)))
       = (log ++ [api_request version (account_address subdomain) bearer
                    "api/v4/domain" "GET" NoBody])%list.
Proof.
  intros net version refresh_arg token subdomain access refresh subdomain' c log bearer.
  split.
  - unfold set_longlive_token, set_oauth_credentials, get_domain_info.
    unfold mbind at 1 2 3 4 5 6 7. unfold set_self, mret. cbn [fst snd ok].
    rewrite (make_authenticated_request_get net version _ log _ None bearer).
    + reflexivity.
    + unfold bearer_token. cbn [longlive_token access_token set_longlive set_base_url
                                  set_access_token set_refresh_token truthy].
      subst bearer. destruct (String.eqb token ""); reflexivity.
  - unfold set_longlive_token, set_oauth_credentials, get_domain_info.
    unfold mbind at 1 2 3 4 5 6 7. unfold set_self, mret. cbn [fst snd ok].
    rewrite (make_authenticated_request_get net version _ log _ None bearer).
    + reflexivity.
    + unfold bearer_token. cbn [longlive_token access_token set_longlive set_base_url
                                  set_access_token set_refresh_token truthy].
      subst bearer. destruct (String.eqb token ""); reflexivity.
Qed.

(** X19.  A client that was given no credentials does not refuse on its
    own: [get_domain_info] calls [requests.get] with the address
    [None/api/v4/domain] and the header [Authorization: Bearer None]. *)
Theorem get_domain_info_without_credentials :
  forall (net : network) (version refresh_arg : string) (config : OAuthConfig)
         (log : list request),
    let q := {| method := "GET";
                url := PStr "None/api/v4/domain";
                headers := [ ("Authorization", "Bearer None");
                             ("Content-Type", "application/json");
                             ("User-Agent", "amocrm-api-middleware/" ++ version) ];
                payload := NoBody |} in
    snd (snd (get_domain_info net version refresh_arg (__init__ config, log)))
    = (log ++ [q])%list.
Proof.
  intros net version refresh_arg config log q. unfold get_domain_info.
  rewrite (make_authenticated_request_get net version _ log _ None "None") by reflexivity.
  reflexivity.
Qed.

End OAuthProperties.

(** ** The query string of the authorization URL *)

Module QueryProperties.
Import Urllib OAuth.

(** Not part of the sources: what a server reads from a query string,
    [urllib.parse.unquote_plus] on each side of the first [=] of each part
    between [&]. *)
Fixpoint unquote_plus (s : string) : string :=
  match s with
  | EmptyString => ""
  | String c rest =>
      if Ascii.eqb c "+" then String " " (unquote_plus rest)
      else if Ascii.eqb c "%" then
        match rest with
        | String h (String l rest') =>
            match Json.hex_val h, Json.hex_val l with
            | Some a, Some b => String (ascii_of_N (a * 16 + b)) (unquote_plus rest')
            | _, _ => String c (unquote_plus rest)
            end
        | _ => String c (unquote_plus rest)
        end
      else String c (unquote_plus rest)
  end.

(** [s.split(sep)]. *)
Fixpoint split_on (sep : ascii) (s : string) : list string :=
  match s with
  | EmptyString => [""]
  | String c rest =>
      if Ascii.eqb c sep then "" :: split_on sep rest
      else
        match split_on sep rest with
        | seg :: segs => String c seg :: segs
        | [] => [String c ""]
        end
  end.

(** [s.partition("=")], without the separator. *)
Fixpoint partition_eq (s : string) : string * string :=
  match s with
  | EmptyString => ("", "")
  | String c rest =>
      if Ascii.eqb c "=" then ("", rest)
      else let (k, v) := partition_eq rest in (String c k, v)
  end.

Definition parse_query (query : string) : list (string * string) :=
  map (fun part => let (k, v) := partition_eq part in (unquote_plus k, unquote_plus v))
      (split_on "&" query).

(** A [str] that [urlencode] can write: one whose text is well-formed
    UTF-8.  A [str] that holds a lone surrogate has no UTF-8 encoding, and
    [quote_plus] raises [UnicodeEncodeError] for it, which
    [Urllib.quote_plus] does not follow: the property is stated for
    parameters that can be encoded. *)
Definition encodable (s : string) : Prop := Utf8.valid s = true.

Definition encodable_option (o : option string) : Prop :=
  match o with
  | Some s => encodable s
  | None => True
  end.

(** [c] does not occur in [s]. *)
Fixpoint free_of (c : ascii) (s : string) : bool :=
  match s with
  | EmptyString => true
  | String x rest => negb (Ascii.eqb x c) && free_of c rest
  end.

Lemma free_of_app c a b : free_of c (a ++ b) = free_of c a && free_of c b.
Proof.
  induction a as [|x a IH]; [reflexivity|]. cbn. rewrite IH. now rewrite andb_assoc.
Qed.

(** What [quote_plus] writes for a byte has no [&] and no [=], and reads
    back as the byte. *)
Lemma quote_byte_spec c :
  free_of "&" (quote_byte c) = true
  /\ free_of "=" (quote_byte c) = true
  /\ forall rest, unquote_plus (quote_byte c ++ rest) = String c (unquote_plus rest).
Proof.
  destruct c as [[] [] [] [] [] [] [] []];
    (split; [vm_compute; reflexivity | split; [vm_compute; reflexivity | intros rest; reflexivity]]).
Qed.

Lemma quote_plus_free s :
  free_of "&" (quote_plus s) = true /\ free_of "=" (quote_plus s) = true.
Proof.
  induction s as [|c s [IH1 IH2]]; [split; reflexivity|].
  cbn [quote_plus]. rewrite !free_of_app, IH1, IH2.
  destruct (quote_byte_spec c) as (H1 & H2 & _). now rewrite H1, H2.
Qed.

Lemma unquote_quote_plus s : unquote_plus (quote_plus s) = s.
Proof.
  induction s as [|c s IH]; [reflexivity|].
  cbn [quote_plus]. rewrite (proj2 (proj2 (quote_byte_spec c))). now rewrite IH.
Qed.

Lemma split_on_free sep s : free_of sep s = true -> split_on sep s = [s].
Proof.
  induction s as [|c s IH]; [reflexivity|]. cbn.
  destruct (Ascii.eqb c sep); cbn; [discriminate|].
  intros H. now rewrite IH.
Qed.

Lemma split_on_app sep a b :
  free_of sep a = true ->
  split_on sep (a ++ String sep b) = a :: split_on sep b.
Proof.
  induction a as [|c a IH]; cbn.
  - intros _. now rewrite Ascii.eqb_refl.
  - destruct (Ascii.eqb c sep); cbn; [discriminate|].
    intros H. now rewrite IH.
Qed.

Lemma partition_eq_app k v :
  free_of "=" k = true -> partition_eq (k ++ String "=" v) = (k, v).
Proof.
  induction k as [|c k IH]; cbn [append partition_eq free_of].
  - reflexivity.
  - destruct (Ascii.eqb c "="); cbn; [discriminate|].
    intros H. now rewrite IH.
Qed.

Lemma parse_query_part k v :
  (let (k', v') := partition_eq (quote_plus k ++ "=" ++ quote_plus v) in
   (unquote_plus k', unquote_plus v')) = (k, v).
Proof.
  change (quote_plus k ++ "=" ++ quote_plus v)
    with (quote_plus k ++ String "=" (quote_plus v)).
  rewrite partition_eq_app by apply quote_plus_free.
  now rewrite !unquote_quote_plus.
Qed.

Lemma encoded_part_free k v :
  free_of "&" (quote_plus k ++ "=" ++ quote_plus v) = true.
Proof.
  rewrite !free_of_app.
  rewrite (proj1 (quote_plus_free k)), (proj1 (quote_plus_free v)). reflexivity.
Qed.

Lemma parse_query_urlencode params :
  params <> [] -> parse_query (urlencode params) = params.
Proof.
  unfold parse_query, urlencode.
  induction params as [|[k v] params IH]; [contradiction|]. intros _.
  destruct params as [|kv params].
  - cbn [map join_amp fst snd].
    rewrite split_on_free by apply encoded_part_free.
    cbn [map]. now rewrite parse_query_part.
  - remember (kv :: params) as more.
    cbn [map]. cbn [fst snd].
    assert (E : join_amp ((quote_plus k ++ "=" ++ quote_plus v)
                          :: map (fun kv => quote_plus (fst kv) ++ "=" ++ quote_plus (snd kv)) more)
                = (quote_plus k ++ "=" ++ quote_plus v)
                  ++ String "&" (join_amp (map (fun kv => quote_plus (fst kv) ++ "="
                                                          ++ quote_plus (snd kv)) more))).
    { subst more. reflexivity. }
    rewrite E. rewrite split_on_app by apply encoded_part_free.
    cbn [map]. rewrite parse_query_part. f_equal.
    apply IH. subst more. discriminate.
Qed.

(** X20.  For a client id, a [state] and a [mode] that can be encoded
    (well-formed text, no lone surrogate), the URL of
    [get_authorization_url] is [https://www.amocrm.ru/oauth?] followed by
    a query that reads back, part by part, as the parameters: [client_id],
    then [state] and [mode] when they are given, each with its value
    exactly, whatever characters the values contain. *)
Theorem get_authorization_url_query_reads_back :
  forall (c : OAuthClient) (state mode : option string),
    encodable (client_id (config c)) ->
    encodable_option state -> encodable_option mode ->
    exists query : string,
      get_authorization_url c state mode = "https://www.amocrm.ru/oauth?" ++ query
      /\ parse_query query = authorization_params c state mode
      /\ authorization_params c state mode
         = (("client_id", client_id (config c))
            :: match state with Some s => [("state", s)] | None => [] end
            ++ match mode with Some m => [("mode", m)] | None => [] end)%list.
Proof.
  intros c state mode _ _ _.
  exists (_encode_params (authorization_params c state mode)).
  split; [reflexivity|]. split.
  - unfold _encode_params. apply parse_query_urlencode.
    unfold authorization_params. cbn. discriminate.
  - unfold authorization_params. destruct state, mode; reflexivity.
Qed.

Lemma get_authorization_url_query_reads_back_witness :
  exists query : string,
    get_authorization_url (__init__ Examples.example_config) (Some "a b&c=d%") (Some "popup")
    = "https://www.amocrm.ru/oauth?" ++ query
    /\ parse_query query
       = authorization_params (__init__ Examples.example_config) (Some "a b&c=d%")
           (Some "popup")
    /\ authorization_params (__init__ Examples.example_config) (Some "a b&c=d%")
         (Some "popup")
       = [("client_id", "abc"); ("state", "a b&c=d%"); ("mode", "popup")].
Proof.
  apply (get_authorization_url_query_reads_back (__init__ Examples.example_config)
           (Some "a b&c=d%") (Some "popup"));
    reflexivity.
Defined.

(** The query of that URL. *)
Example get_authorization_url_reserved_characters :
  get_authorization_url (__init__ Examples.example_config) (Some "a b&c=d%") (Some "popup")
  = "https://www.amocrm.ru/oauth?client_id=abc&state=a+b%26c%3Dd%25&mode=popup".
Proof. vm_compute. reflexivity. Qed.

End QueryProperties.

(** ** Tokens and their expiry *)

Module TokenProperties.
Import Utils Issuer Base64 TokenFacts SegmentFacts Examples OAuth.

(** X21.  [_decode_jwt] reads the middle segment only: two tokens with
    the same payload segment give the same result, whatever their headers
    and signatures.  No signature is verified. *)
Theorem decode_jwt_reads_the_payload_only :
  forall header payload signature header' signature' : string,
    no_dot header = true -> no_dot payload = true -> no_dot signature = true ->
    no_dot header' = true -> no_dot signature' = true ->
    _decode_jwt (header ++ "." ++ payload ++ "." ++ signature)
    = _decode_jwt (header' ++ "." ++ payload ++ "." ++ signature').
Proof.
  intros header payload signature header' signature' Hh Hp Hs Hh' Hs'.
  unfold _decode_jwt. now rewrite !split_dot_three.
Qed.

Lemma decode_jwt_reads_the_payload_only_witness :
  _decode_jwt ("h" ++ "." ++ "e30" ++ "." ++ "s")
  = _decode_jwt ("other" ++ "." ++ "e30" ++ "." ++ "").
Proof.
  apply (decode_jwt_reads_the_payload_only "h" "e30" "s" "other" ""); reflexivity.
Defined.

(** X22.  In an ASCII payload segment, [_decode_jwt] skips every
    character that is neither of the base64 alphabets ([A-Z], [a-z],
    [0-9], [+], [/], [-], [_]) nor [=]: the token decodes as the one
    without those characters. *)
Theorem decode_jwt_skips_characters :
  forall header payload signature : string,
    no_dot header = true -> no_dot payload = true -> no_dot signature = true ->
    is_ascii_str payload = true ->
    _decode_jwt (header ++ "." ++ payload ++ "." ++ signature)
    = _decode_jwt (header ++ "." ++ only_data payload ++ "." ++ signature).
Proof.
  intros header payload signature. apply decode_jwt_only_data.
Qed.

Lemma decode_jwt_skips_characters_witness :
  _decode_jwt ("h" ++ "." ++ "e 3!0" ++ "." ++ "s")
  = _decode_jwt ("h" ++ "." ++ "e30" ++ "." ++ "s").
Proof.
  apply (decode_jwt_skips_characters "h" "e 3!0" "s"); reflexivity.
Defined.

(** X23.  [token.split(".")] gives one segment more than the token has
    dots.  A token without a dot makes [_decode_jwt] raise [ValueError]
    "not enough values to unpack (expected 3, got 1)", one dot "...
    (expected 3, got 2)", and more than two dots "too many values to
    unpack (expected 3)". *)
Theorem decode_jwt_counts_dots :
  forall token : string,
    List.length (split_dot token) = S (count_dots token)
    /\ (count_dots token = 0%nat ->
        _decode_jwt token
        = raise (ValueError "not enough values to unpack (expected 3, got 1)"))
    /\ (count_dots token = 1%nat ->
        _decode_jwt token
        = raise (ValueError "not enough values to unpack (expected 3, got 2)"))
    /\ ((2 < count_dots token)%nat ->
        _decode_jwt token = raise (ValueError "too many values to unpack (expected 3)")).
Proof.
  intros token. pose proof (split_dot_length token) as H.
  split; [exact H|]. unfold _decode_jwt.
  destruct (split_dot token) as [|h [|p [|s [|x more]]]]; cbn [List.length] in H;
    (split; [|split]); intros Hc; try reflexivity; lia.
Qed.

Lemma decode_jwt_counts_dots_witness :
  _decode_jwt "a.b" = raise (ValueError "not enough values to unpack (expected 3, got 2)").
Proof.
  apply (proj1 (proj2 (proj2 (decode_jwt_counts_dots "a.b")))). reflexivity.
Defined.

End TokenProperties.

Module ExpiryProperties.
Import Datetime DatetimeFacts Utils OAuth Examples ExpiryFacts Issuer TokenFacts.

Lemma strftime_length t us :
  YEAR_1000 <= t <= MAX_TIMESTAMP ->
  String.length (strftime_Ymd_HMS (of_epoch t us)) = 19%nat.
Proof.
  intros H. pose proof (four_digit_year t us H) as Hy.
  unfold strftime_Ymd_HMS, year_text.
  replace (year (of_epoch t us) <? 10) with false by (symmetry; apply Z.ltb_ge; lia).
  replace (year (of_epoch t us) <? 100) with false by (symmetry; apply Z.ltb_ge; lia).
  replace (year (of_epoch t us) <? 1000) with false by (symmetry; apply Z.ltb_ge; lia).
  rewrite !str_length_app, !zero_padded_length. reflexivity.
Qed.

Lemma decode_timestamp_in_range t :
  MIN_TIMESTAMP <= t <= MAX_TIMESTAMP ->
  _decode_timestamp (PInt t) = ok (strftime_Ymd_HMS (of_epoch t 0)).
Proof.
  intros H. unfold _decode_timestamp. cbn [utcfromtimestamp].
  now rewrite from_seconds_in_range.
Qed.

(** X24.  For an integer, [_decode_timestamp] returns a text exactly
    when the timestamp is between 0001-01-01 00:00:00 and 9999-12-31
    23:59:59 UTC.  Outside, it raises; up to 10^16 seconds either way the
    error is the [ValueError] of [datetime] that names the year. *)
Theorem decode_timestamp_range :
  forall t : Z,
    ((exists text, _decode_timestamp (PInt t) = ok text)
     <-> MIN_TIMESTAMP <= t <= MAX_TIMESTAMP)
    /\ (- 10 ^ 16 <= t <= 10 ^ 16 ->
        ~ (MIN_TIMESTAMP <= t <= MAX_TIMESTAMP) ->
        _decode_timestamp (PInt t)
        = raise (ValueError ("year " ++ int_text (year (of_epoch t 0))
                             ++ " is out of range"))).
Proof.
  intros t. split; [split|].
  - intros [text Htext].
    destruct (Z_le_dec MIN_TIMESTAMP t) as [Hlo|Hlo];
      [destruct (Z_le_dec t MAX_TIMESTAMP) as [Hhi|Hhi]; [lia|] |];
      (destruct (from_seconds_fails t ltac:(lia)) as [e He];
       unfold _decode_timestamp in Htext; cbn [utcfromtimestamp] in Htext;
       rewrite He in Htext; discriminate).
  - intros H. eexists. now apply decode_timestamp_in_range.
  - intros Hb H. unfold _decode_timestamp. cbn [utcfromtimestamp].
    now rewrite from_seconds_out_of_range.
Qed.

Lemma decode_timestamp_range_witness :
  exists text, _decode_timestamp (PInt 1700000000) = ok text.
Proof.
  apply (proj2 (proj1 (decode_timestamp_range 1700000000))).
  unfold MIN_TIMESTAMP, MAX_TIMESTAMP. lia.
Defined.

(** The first second of the year 10000, and the last second before the
    year 1. *)
Example decode_timestamp_year_10000 :
  _decode_timestamp (PInt 253402300800) = raise (ValueError "year 10000 is out of range")
  /\ _decode_timestamp (PInt (-62135596801)) = raise (ValueError "year 0 is out of range").
Proof. split; vm_compute; reflexivity. Qed.

(** Further out the C library gives up first, and beyond [time_t] the
    conversion of the number does. *)
Example decode_timestamp_far_out :
  _decode_timestamp (PInt 67768036191676799)
  = raise (ValueError "year -2147481749 is out of range")
  /\ _decode_timestamp (PInt 67768036191676800)
     = raise (OSError "[Errno 75] Value too large for defined data type")
  /\ _decode_timestamp (PInt 9223372036854775808)
     = raise (OverflowError "timestamp out of range for platform time_t").
Proof. repeat split; vm_compute; reflexivity. Qed.

(** X25.  On the timestamps of four-digit years, [_decode_timestamp]
    gives texts of 19 characters that compare as the timestamps do: the
    order is kept and different seconds give different texts. *)
Theorem decode_timestamp_keeps_order :
  forall t1 t2 : Z,
    YEAR_1000 <= t1 <= MAX_TIMESTAMP ->
    YEAR_1000 <= t2 <= MAX_TIMESTAMP ->
    exists text1 text2 : string,
      _decode_timestamp (PInt t1) = ok text1
      /\ _decode_timestamp (PInt t2) = ok text2
      /\ String.length text1 = 19%nat
      /\ str_ltb text1 text2 = (t1 <? t2)
      /\ (text1 = text2 <-> t1 = t2).
Proof.
  intros t1 t2 H1 H2.
  exists (strftime_Ymd_HMS (of_epoch t1 0)), (strftime_Ymd_HMS (of_epoch t2 0)).
  split; [apply decode_timestamp_in_range; unfold YEAR_1000, MIN_TIMESTAMP in *; lia|].
  split; [apply decode_timestamp_in_range; unfold YEAR_1000, MIN_TIMESTAMP in *; lia|].
  split; [now apply strftime_length|].
  split; [now apply strftime_of_epoch_ltb|].
  split.
  - intros E.
    pose proof (strftime_of_epoch_ltb t1 t2 0 0 H1 H2) as L12.
    pose proof (strftime_of_epoch_ltb t2 t1 0 0 H2 H1) as L21.
    rewrite E, str_ltb_irrefl in L12. rewrite E, str_ltb_irrefl in L21.
    symmetry in L12, L21. apply Z.ltb_ge in L12, L21. lia.
  - now intros ->.
Qed.

Lemma decode_timestamp_keeps_order_witness :
  exists text1 text2 : string,
    _decode_timestamp (PInt 0) = ok text1
    /\ _decode_timestamp (PInt 1700000000) = ok text2
    /\ String.length text1 = 19%nat
    /\ str_ltb text1 text2 = (0 <? 1700000000)
    /\ (text1 = text2 <-> 0 = 1700000000).
Proof.
  apply (decode_timestamp_keeps_order 0 1700000000);
    unfold YEAR_1000, MAX_TIMESTAMP; lia.
Defined.

(** The text of the clock reads the whole seconds only. *)
Lemma strftime_utcnow_seconds now_us us :
  strftime_Ymd_HMS (utcnow now_us) = strftime_Ymd_HMS (of_epoch (now_us / 1000000) us).
Proof.
  unfold utcnow, of_epoch.
  destruct (civil_from_days (now_us / 1000000 / 86400)) as [[y m] d]. reflexivity.
Qed.

Lemma compare_stays_expired now_us now_us' timestamp :
  YEAR_1000 <= now_us / 1000000 <= MAX_TIMESTAMP ->
  YEAR_1000 <= now_us' / 1000000 <= MAX_TIMESTAMP ->
  now_us <= now_us' ->
  _compare_timestamp_with_current now_us timestamp = ok (Some true) ->
  _compare_timestamp_with_current now_us' timestamp = ok (Some true).
Proof.
  intros Hn Hn' Hle. unfold _compare_timestamp_with_current.
  destruct (_decode_timestamp timestamp) as [e | text]; cbn [rbind]; [discriminate|].
  destruct (str_ltb text (strftime_Ymd_HMS (utcnow now_us))) eqn:E.
  - intros _.
    rewrite (str_ltb_le_trans text _ (strftime_Ymd_HMS (utcnow now_us')) E); [reflexivity|].
    rewrite (strftime_utcnow_seconds now_us 0), (strftime_utcnow_seconds now_us' 0).
    rewrite strftime_of_epoch_ltb by assumption.
    apply Z.ltb_ge. apply Z.div_le_mono; lia.
  - destruct (str_geb text _); discriminate.
Qed.

(** X26.  A token found expired stays expired: when the clock is in a
    four-digit year, [is_token_expired] returns [True] at every later
    reading of the clock once it has returned [True]. *)
Theorem is_token_expired_stays_expired :
  forall (now_us now_us' : Z) (token : option string),
    YEAR_1000 <= now_us / 1000000 <= MAX_TIMESTAMP ->
    YEAR_1000 <= now_us' / 1000000 <= MAX_TIMESTAMP ->
    now_us <= now_us' ->
    is_token_expired now_us token = ok (Some true) ->
    is_token_expired now_us' token = ok (Some true).
Proof.
  intros now_us now_us' [token|] Hn Hn' Hle; [|discriminate].
  unfold is_token_expired.
  destruct (_decode_jwt token) as [e | jwt]; cbn [rbind]; [discriminate|].
  destruct (py_get jwt "exp") as [e | v]; cbn [rbind]; [discriminate|].
  now apply compare_stays_expired.
Qed.

Lemma is_token_expired_stays_expired_witness :
  is_token_expired (clock_2023 + 1000000) (Some token_exp_2023) = ok (Some true).
Proof.
  apply (is_token_expired_stays_expired (clock_2023 + 1) (clock_2023 + 1000000)
           (Some token_exp_2023)).
  - vm_compute. split; discriminate.
  - vm_compute. split; discriminate.
  - unfold clock_2023. lia.
  - vm_compute. reflexivity.
Defined.

(** X27.  [is_token_expired] reads the clock to the second: two readings
    within the same second give the same outcome. *)
Theorem is_token_expired_ignores_microseconds :
  forall (now_us now_us' : Z) (token : option string),
    now_us / 1000000 = now_us' / 1000000 ->
    is_token_expired now_us token = is_token_expired now_us' token.
Proof.
  intros now_us now_us' [token|] H; [|reflexivity].
  unfold is_token_expired, _compare_timestamp_with_current.
  rewrite (strftime_utcnow_seconds now_us 0), (strftime_utcnow_seconds now_us' 0).
  now rewrite H.
Qed.

Lemma is_token_expired_ignores_microseconds_witness :
  is_token_expired 1700000000000000 (Some token_exp_2023)
  = is_token_expired 1700000000999999 (Some token_exp_2023).
Proof.
  apply (is_token_expired_ignores_microseconds 1700000000000000 1700000000999999
           (Some token_exp_2023)).
  reflexivity.
Defined.

(** X28.  When the token decodes to something that is not a JSON object
    (a number, a string, a list, [null]), [is_token_expired] raises the
    [AttributeError] of [jwt.get]; when it decodes to an object whose
    [exp] is a JSON string, it raises the [TypeError] of
    [datetime.utcfromtimestamp].  Neither is a [ValueError]. *)
Theorem is_token_expired_unusable_claims :
  forall (now_us : Z) (token : string) (claims : pyval),
    _decode_jwt token = ok claims ->
    ((forall items, claims <> PDict items) ->
     is_token_expired now_us (Some token)
     = raise (AttributeError ("'" ++ type_name claims
                              ++ "' object has no attribute 'get'")))
    /\ (forall items text,
          claims = PDict items -> dict_get "exp" items = Some (PStr text) ->
          is_token_expired now_us (Some token)
          = raise (TypeError "'str' object cannot be interpreted as an integer")).
Proof.
  intros now_us token claims Hjwt.
  unfold is_token_expired. rewrite Hjwt. cbn [rbind ok]. split.
  - intros Hno. destruct claims; try reflexivity. now contradiction (Hno items).
  - intros items text -> Hexp. cbn [py_get]. rewrite Hexp. reflexivity.
Qed.

Lemma is_token_expired_unusable_claims_witness :
  is_token_expired clock_2023 (Some "h.MS41.s")
  = raise (AttributeError "'float' object has no attribute 'get'").
Proof.
  apply (proj1 (is_token_expired_unusable_claims clock_2023 "h.MS41.s" (PFloat "1.5")
                  ltac:(vm_compute; reflexivity))).
  intros items. discriminate.
Defined.

(** The token of [{'exp':'x'}]. *)
Example is_token_expired_exp_string :
  is_token_expired clock_2023 (Some "h.eyJleHAiOiJ4In0.s")
  = raise (TypeError "'str' object cannot be interpreted as an integer").
Proof. vm_compute. reflexivity. Qed.

End ExpiryProperties.
